(** * Reconciliation of a GCE forwarding rule and the OpenStack
      load-balancer adapters of kops

    The development embeds two Go files:

    - [upup/pkg/fi/cloudup/gcetasks/forwardingrule.go]: the task
      [ForwardingRule] with [Find] and [RenderGCE];
    - the load-balancer part of the [openstack] cloud package: the
      adapters [createPoolMonitor] ... [createListener], each of which
      wraps calls of the gophercloud SDK in [vfs.RetryWithBackoff].

    Remote services are opaque: a service is a state of type [W] and a
    handler that answers each call and moves the state.  The embedding runs
    in a state monad whose state also carries the log of the calls made so
    far, each with the error it returned, so that statements such as "no
    call is attempted" or "the calls happen in this order" are statements
    about that log. *)

From Stdlib Require Import ZArith QArith List Lia Bool.
From stdpp Require Import base strings gmap list.
Import ListNotations.

#[local] Open Scope Z_scope.
#[local] Open Scope string_scope.
#[local] Open Scope list_scope.

(* ===================================================================== *)
(** * Part I: the embedding                                               *)
(* ===================================================================== *)

(** ** Go values shared by both packages *)

(** A Go [error].  Both SDKs report a failed request as an error that
    carries the HTTP status of the response ([googleapi.Error.Code],
    [gophercloud.ErrUnexpectedResponseCode.Actual]); [fmt.Errorf] builds a
    new error from a format string.  Of the arguments of [fmt.Errorf] only
    the error that is formatted into the message is kept: [Errorf] has
    none, [Errorv] prints it with the verb %v or %s (the new error does not
    wrap it), [Errorw] wraps it with %w. *)
Inductive error : Type :=
| StatusError (code : Z)
| ClientError (msg : string)
| Errorf (format : string)
| Errorv (format : string) (cause : error)
| Errorw (format : string) (cause : error)
| ErrWaitTimeout.

(** [fi.ValueOf]: the pointee, or the zero value for a nil pointer. *)
Definition ValueOf (p : option string) : string :=
  match p with
  | Some s => s
  | None => ""
  end.

(** [s != ""] *)
Definition nonempty (s : string) : bool :=
  match s with
  | EmptyString => false
  | String _ _ => true
  end.

(** [p == nil] and [p != nil] *)
Definition isnil {A : Type} (p : option A) : bool :=
  match p with
  | Some _ => false
  | None => true
  end.

Definition notnil {A : Type} (p : option A) : bool := negb (isnil p).

(** [http.StatusNotFound], [http.StatusConflict] *)
Definition StatusNotFound : Z := 404.
Definition StatusConflict : Z := 409.

(** ** The state monad of the embedding *)

Definition State (St A : Type) : Type := St -> A * St.

Definition ret {St A : Type} (a : A) : State St A := fun s => (a, s).

Definition bind {St A B : Type} (m : State St A) (k : A -> State St B)
  : State St B :=
  fun s => let (a, s') := m s in k a s'.

Declare Scope go_scope.
Delimit Scope go_scope with go.
Notation "'let*' x ':=' c 'in' k" := (bind c (fun x => k))
  (at level 10, x pattern, c at level 100, k at level 200) : go_scope.
Notation "c ';;;' k" := (bind c (fun _ => k))
  (at level 100, k at level 200, right associativity) : go_scope.
#[local] Open Scope go_scope.

(** A variable of the enclosing function that a closure captures lives in
    the first component of the state while the closure can run. *)
Definition assign {L C : Type} (v : L) : State (L * C) unit :=
  fun s => (tt, (v, snd s)).

Definition read {L C : Type} : State (L * C) L :=
  fun s => (fst s, s).

Definition lift {L C A : Type} (m : State C A) : State (L * C) A :=
  fun s => let (a, c) := m (snd s) in (a, (fst s, c)).

Definition with_local {L C A : Type} (init : L) (m : State (L * C) A)
  : State C A :=
  fun c => let (a, s) := m (init, c) in (a, snd s).

(** The body of a Go function that can leave before its end: [inl a] goes
    on with [a], [inr r] has left with [r]. *)
Definition Body (St R A : Type) : Type := State St (A + R).

Definition go_on {St R A : Type} (a : A) : Body St R A := ret (inl a).

Definition leave {St R A : Type} (r : R) : Body St R A := ret (inr r).

Definition bind_body {St R A B : Type} (m : Body St R A)
    (k : A -> Body St R B) : Body St R B :=
  let* x := m in
  match x with
  | inl a => k a
  | inr r => ret (inr r)
  end.

Definition run_body {St R : Type} (m : Body St R R) : State St R :=
  let* x := m in
  match x with
  | inl r => ret r
  | inr r => ret r
  end.

Notation "'let?' x ':=' c 'in' k" := (bind_body c (fun x => k))
  (at level 10, x pattern, c at level 100, k at level 200) : go_scope.

(** ** [k8s.io/apimachinery/pkg/util/wait] *)

Module wait.

(** [wait.Backoff]; [Duration] is in nanoseconds.  The error
    [wait.ErrWaitTimeout] is the constructor [ErrWaitTimeout] of [error]. *)
Record Backoff : Type := {
  Duration : Z;
  Factor : Q;
  Jitter : Q;
  Steps : Z
}.

End wait.

(** ** [k8s.io/kops/util/pkg/vfs] *)

Module vfs.

(** Modelled from the spec: [RetryWithBackoff] of [util/pkg/vfs] is called
    by every adapter but is not among the sources.  Section 4.1 gives its
    contract: the operation is a closure that returns [(done, err)];
    [done = true] stops the loop and hands back the closure's error (none:
    success, some: fatal); [done = false] is retried while attempts remain;
    when the attempts are exhausted the result is [done = false] together
    with the error of the last attempt, if it had one.  The callers turn
    [(false, nil)] into the wait-timeout error themselves.  [Steps] is the
    maximum number of attempts; sleeping between attempts is not
    modelled. *)
Fixpoint retry {St : Type} (attempts : nat)
    (condition : State St (bool * option error)) (last : option error)
  : State St (bool * option error) :=
  match attempts with
  | O => ret (false, last)
  | S attempts' =>
      let* (done, err) := condition in
      if done : bool then ret (true, err) else retry attempts' condition err
  end.

Definition RetryWithBackoff {St : Type} (backoff : wait.Backoff)
    (condition : State St (bool * option error))
  : State St (bool * option error) :=
  retry (Z.to_nat (wait.Steps backoff)) condition None.

End vfs.

(** ** Package [openstack]: the load-balancer adapters *)

Module openstack.

(** [servers.Server]; the adapters read its [ID] only. *)
Record Server : Type := { ID : string }.

(** The gophercloud types that the adapters pass through without looking
    inside, and the decoders of a listing, which make no request. *)
Class SDK : Type := {
  ServiceClient : Type;
  Page : Type;
  monitors_CreateOpts : Type;
  monitors_ListOpts : Type;
  Monitor : Type;
  v2pools_CreateOpts : Type;
  v2pools_ListOpts : Type;
  v2pools_CreateMemberOpts : Type;
  v2pools_UpdateMemberOptsBuilder : Type;
  v2pools_ListMembersOpts : Type;
  Pool : Type;
  Member : Type;
  listeners_CreateOpts : Type;
  listeners_ListOpts : Type;
  Listener : Type;
  loadbalancers_CreateOptsBuilder : Type;
  loadbalancers_ListOptsBuilder : Type;
  loadbalancers_DeleteOpts : Type;
  LoadBalancer : Type;
  Stats : Type;
  monitors_ExtractMonitors : Page -> list Monitor * option error;
  loadbalancers_ExtractLoadBalancers : Page -> list LoadBalancer * option error;
  v2pools_ExtractMembers : Page -> list Member * option error;
  v2pools_ExtractPools : Page -> list Pool * option error;
  listeners_ExtractListeners : Page -> list Listener * option error
}.

Section Adapters.

Context {sdk : SDK}.

(** The requests of the load-balancer API that the adapters issue.  A
    listing request stands for [List(...).AllPages(ctx)], every other one
    for the call followed by [Extract()] or [ExtractErr()]. *)
Inductive Call : Type :=
| monitors_Create (client : ServiceClient) (opts : monitors_CreateOpts)
| monitors_List (client : ServiceClient) (opts : monitors_ListOpts)
| monitors_Delete (client : ServiceClient) (monitorID : string)
| v2pools_Delete (client : ServiceClient) (poolID : string)
| listeners_Delete (client : ServiceClient) (listenerID : string)
| loadbalancers_Delete (client : ServiceClient) (lbID : string)
    (opts : loadbalancers_DeleteOpts)
| loadbalancers_Create (client : ServiceClient)
    (opt : loadbalancers_CreateOptsBuilder)
| loadbalancers_Get (client : ServiceClient) (loadbalancerID : string)
| loadbalancers_List (client : ServiceClient)
    (opt : loadbalancers_ListOptsBuilder)
| loadbalancers_GetStats (client : ServiceClient) (loadbalancerID : string)
| v2pools_Get (client : ServiceClient) (poolID : string)
| v2pools_GetMember (client : ServiceClient) (poolID memberID : string)
| v2pools_UpdateMember (client : ServiceClient) (poolID memberID : string)
    (opts : v2pools_UpdateMemberOptsBuilder)
| v2pools_CreateMember (client : ServiceClient) (poolID : string)
    (opts : v2pools_CreateMemberOpts)
| v2pools_Create (client : ServiceClient) (opts : v2pools_CreateOpts)
| v2pools_ListMembers (client : ServiceClient) (poolID : string)
    (opts : v2pools_ListMembersOpts)
| v2pools_List (client : ServiceClient) (opts : v2pools_ListOpts)
| listeners_List (client : ServiceClient) (opts : listeners_ListOpts)
| listeners_Create (client : ServiceClient) (opts : listeners_CreateOpts).

(** What each request returns, as the Go call returns it: a pointer that
    may be nil and an error that may be nil. *)
Definition Resp (c : Call) : Type :=
  match c with
  | monitors_Create _ _ => (option Monitor * option error)%type
  | monitors_List _ _ => (Page * option error)%type
  | monitors_Delete _ _ => option error
  | v2pools_Delete _ _ => option error
  | listeners_Delete _ _ => option error
  | loadbalancers_Delete _ _ _ => option error
  | loadbalancers_Create _ _ => (option LoadBalancer * option error)%type
  | loadbalancers_Get _ _ => (option LoadBalancer * option error)%type
  | loadbalancers_List _ _ => (Page * option error)%type
  | loadbalancers_GetStats _ _ => (option Stats * option error)%type
  | v2pools_Get _ _ => (option Pool * option error)%type
  | v2pools_GetMember _ _ _ => (option Member * option error)%type
  | v2pools_UpdateMember _ _ _ _ => (option Member * option error)%type
  | v2pools_CreateMember _ _ _ => (option Member * option error)%type
  | v2pools_Create _ _ => (option Pool * option error)%type
  | v2pools_ListMembers _ _ _ => (Page * option error)%type
  | v2pools_List _ _ => (Page * option error)%type
  | listeners_List _ _ => (Page * option error)%type
  | listeners_Create _ _ => (option Listener * option error)%type
  end.

(** The error component of a response. *)
Definition resp_err (c : Call) : Resp c -> option error :=
  match c with
  | monitors_Delete _ _ | v2pools_Delete _ _ | listeners_Delete _ _
  | loadbalancers_Delete _ _ _ => fun r => r
  | _ => fun r => snd r
  end.

(** A load-balancer service: its state and how it answers a request. *)
Class Service : Type := {
  W : Type;
  handle : forall c : Call, W -> Resp c * W
}.

Context {service : Service}.

(** One entry of the log: the request and the error it came back with. *)
Record Event : Type := { ev_call : Call; ev_err : option error }.

Record Cloud : Type := { world : W; log : list Event }.

(** Issue a request: the service answers, the log grows by one entry. *)
Definition api (c : Call) : State Cloud (Resp c) :=
  fun s =>
    let (r, w') := handle c (world s) in
    (r, {| world := w'; log := log s ++ [{| ev_call := c; ev_err := resp_err c r |}] |}).

(** The interface [OpenstackCloud], of which the adapters use one method:
    [LoadBalancerClient()] is nil when the deployment has no
    load-balancer service. *)
Record OpenstackCloud : Type := {
  LoadBalancerClient : option ServiceClient
}.

(** The retry policies of the package.  [memberBackoff] is declared in this
    file; the other three are declared elsewhere in the package and are
    parameters here. *)
Class Backoffs : Type := {
  readBackoff : wait.Backoff;
  writeBackoff : wait.Backoff;
  deleteBackoff : wait.Backoff
}.

Context {backoffs : Backoffs}.

Definition memberBackoff : wait.Backoff := {|
  wait.Duration := 1000000000;
  wait.Factor := 2;
  wait.Jitter := 1 # 10;
  wait.Steps := 10
|}.

(** [gophercloud.ResponseCodeIs]: the error, or an error it wraps, is a
    response with this status.  A nil error has no status. *)
Fixpoint has_status (e : error) (status : Z) : bool :=
  match e with
  | StatusError code => Z.eqb code status
  | Errorw _ cause => has_status cause status
  | _ => false
  end.

Definition ResponseCodeIs (err : option error) (status : Z) : bool :=
  match err with
  | Some e => has_status e status
  | None => false
  end.

(** Modelled from the spec: [isNotFound] is declared elsewhere in the
    package.  The client "returns structured errors distinguishing not
    found from other failures": an error is a not-found when it carries the
    status 404. *)
Definition isNotFound (err : option error) : bool :=
  ResponseCodeIs err StatusNotFound.

Definition errNoLoadBalancer : error :=
  Errorf "loadbalancer support not available in this deployment".

(** The two endings that follow [RetryWithBackoff] in the adapters.

    [if !done { if err == nil { err = wait.ErrWaitTimeout }; return v, err };
     return v, nil] *)
Definition return_unless_done {V : Type} (done : bool) (err : option error)
    (v : V) : V * option error :=
  if negb done then
    (v, Some (match err with Some e => e | None => ErrWaitTimeout end))
  else (v, None).

(** [if err != nil { return err } else if done { return nil }
     else { return wait.ErrWaitTimeout }] *)
Definition return_err_first (done : bool) (err : option error) : option error :=
  match err with
  | Some e => Some e
  | None => if done then None else Some ErrWaitTimeout
  end.

(** *** The adapters

    Each adapter is the package-level function of the same name; the method
    of [openstackCloud] that calls it adds nothing.  A named result that the
    retried closure assigns ([poolMonitor], [lb], ...) is the local variable
    of [with_local]; it starts as the zero value of its type, and a nil
    slice is the empty list.  The named result [err] is overwritten by the
    error that [RetryWithBackoff] returns, so it is not kept as a
    variable. *)

Definition createPoolMonitor (c : OpenstackCloud) (opts : monitors_CreateOpts)
  : State Cloud (option Monitor * option error) :=
  match LoadBalancerClient c with
  | None => ret (None, Some errNoLoadBalancer)
  | Some client =>
      with_local (None : option Monitor) (
        let* (done, err) := vfs.RetryWithBackoff writeBackoff (
          let* (v, err) := lift (api (monitors_Create client opts)) in
          assign v ;;;
          match err with
          | Some e => ret (false, Some (Errorv "failed to create pool monitor: %v" e))
          | None => ret (true, None)
          end) in
        let* poolMonitor := read in
        ret (return_unless_done done err poolMonitor))
  end.

Definition listMonitors (c : OpenstackCloud) (opts : monitors_ListOpts)
  : State Cloud (list Monitor * option error) :=
  match LoadBalancerClient c with
  | None => ret ([], Some errNoLoadBalancer)
  | Some client =>
      with_local ([] : list Monitor) (
        let* (done, err) := vfs.RetryWithBackoff readBackoff (
          let* (allPages, err) := lift (api (monitors_List client opts)) in
          match err with
          | Some e => ret (false, Some (Errorv "failed to list monitors: %s" e))
          | None =>
              let (l, err) := monitors_ExtractMonitors allPages in
              assign l ;;;
              match err with
              | Some e => ret (false, Some (Errorv "failed to extract monitor pages: %s" e))
              | None => ret (true, None)
              end
          end) in
        let* monitorList := read in
        ret (return_unless_done done err monitorList))
  end.

Definition deleteMonitor (c : OpenstackCloud) (monitorID : string)
  : State Cloud (option error) :=
  match LoadBalancerClient c with
  | None => ret (Some errNoLoadBalancer)
  | Some client =>
      let* (done, err) := vfs.RetryWithBackoff deleteBackoff (
        let* err := api (monitors_Delete client monitorID) in
        match err with
        | Some e =>
            if negb (isNotFound err) then
              ret (false, Some (Errorv "error deleting pool: %v" e))
            else if isNotFound err then ret (true, None)
            else ret (false, None)
        | None =>
            if isNotFound err then ret (true, None) else ret (false, None)
        end) in
      ret (return_err_first done err)
  end.

Definition deletePool (c : OpenstackCloud) (poolID : string)
  : State Cloud (option error) :=
  match LoadBalancerClient c with
  | None => ret (Some errNoLoadBalancer)
  | Some client =>
      let* (done, err) := vfs.RetryWithBackoff deleteBackoff (
        let* err := api (v2pools_Delete client poolID) in
        match err with
        | Some e =>
            if negb (isNotFound err) then
              ret (false, Some (Errorv "error deleting pool: %v" e))
            else if isNotFound err then ret (true, None)
            else ret (false, None)
        | None =>
            if isNotFound err then ret (true, None) else ret (false, None)
        end) in
      ret (return_err_first done err)
  end.

Definition deleteListener (c : OpenstackCloud) (listenerID : string)
  : State Cloud (option error) :=
  match LoadBalancerClient c with
  | None => ret (Some errNoLoadBalancer)
  | Some client =>
      let* (done, err) := vfs.RetryWithBackoff deleteBackoff (
        let* err := api (listeners_Delete client listenerID) in
        match err with
        | Some e =>
            if negb (isNotFound err) then
              ret (false, Some (Errorv "error deleting listener: %v" e))
            else if isNotFound err then ret (true, None)
            else ret (false, None)
        | None =>
            if isNotFound err then ret (true, None) else ret (false, None)
        end) in
      ret (return_err_first done err)
  end.

Definition deleteLB (c : OpenstackCloud) (lbID : string) (opts : loadbalancers_DeleteOpts)
  : State Cloud (option error) :=
  match LoadBalancerClient c with
  | None => ret (Some errNoLoadBalancer)
  | Some client =>
      let* (done, err) := vfs.RetryWithBackoff deleteBackoff (
        let* err := api (loadbalancers_Delete client lbID opts) in
        match err with
        | Some e =>
            if negb (isNotFound err) then
              ret (false, Some (Errorv "error deleting loadbalancer: %v" e))
            else if isNotFound err then ret (true, None)
            else ret (false, None)
        | None =>
            if isNotFound err then ret (true, None) else ret (false, None)
        end) in
      ret (return_err_first done err)
  end.

Definition createLB (c : OpenstackCloud) (opt : loadbalancers_CreateOptsBuilder)
  : State Cloud (option LoadBalancer * option error) :=
  match LoadBalancerClient c with
  | None => ret (None, Some errNoLoadBalancer)
  | Some client =>
      with_local (None : option LoadBalancer) (
        let* (done, err) := vfs.RetryWithBackoff writeBackoff (
          let* (v, err) := lift (api (loadbalancers_Create client opt)) in
          match err with
          | Some e => ret (false, Some (Errorv "error creating loadbalancer: %v" e))
          | None => assign v ;;; ret (true, None)
          end) in
        let* i := read in
        ret (i, return_err_first done err))
  end.

Definition getLB (c : OpenstackCloud) (loadbalancerID : string)
  : State Cloud (option LoadBalancer * option error) :=
  match LoadBalancerClient c with
  | None => ret (None, Some errNoLoadBalancer)
  | Some client =>
      with_local (None : option LoadBalancer) (
        let* (done, err) := vfs.RetryWithBackoff readBackoff (
          let* (v, err) := lift (api (loadbalancers_Get client loadbalancerID)) in
          assign v ;;;
          match err with
          | Some e => ret (false, Some e)
          | None => ret (true, None)
          end) in
        let* lb := read in
        ret (return_unless_done done err lb))
  end.

(** A nil client is not an error for [listLBs]: "skip error because cluster
    delete will otherwise fail". *)
Definition listLBs (c : OpenstackCloud) (opt : loadbalancers_ListOptsBuilder)
  : State Cloud (list LoadBalancer * option error) :=
  match LoadBalancerClient c with
  | None => ret ([], None)
  | Some client =>
      with_local ([] : list LoadBalancer) (
        let* (done, err) := vfs.RetryWithBackoff readBackoff (
          let* (allPages, err) := lift (api (loadbalancers_List client opt)) in
          match err with
          | Some e => ret (false, Some (Errorv "failed to list loadbalancers: %s" e))
          | None =>
              let (l, err) := loadbalancers_ExtractLoadBalancers allPages in
              assign l ;;;
              match err with
              | Some e => ret (false, Some (Errorv "failed to extract loadbalancer pages: %s" e))
              | None => ret (true, None)
              end
          end) in
        let* lbs := read in
        ret (return_unless_done done err lbs))
  end.

Definition getLBStats (c : OpenstackCloud) (loadbalancerID : string)
  : State Cloud (option Stats * option error) :=
  match LoadBalancerClient c with
  | None => ret (None, None)
  | Some client =>
      with_local (None : option Stats) (
        let* (done, err) := vfs.RetryWithBackoff readBackoff (
          let* (v, err) := lift (api (loadbalancers_GetStats client loadbalancerID)) in
          assign v ;;;
          match err with
          | Some e => ret (false, Some (Errorv "Error getting load balancer stats %v" e))
          | None => ret (true, None)
          end) in
        let* stats := read in
        ret (return_unless_done done err stats))
  end.

Definition getPool (c : OpenstackCloud) (poolID : string)
  : State Cloud (option Pool * option error) :=
  match LoadBalancerClient c with
  | None => ret (None, Some errNoLoadBalancer)
  | Some client =>
      with_local (None : option Pool) (
        let* (done, err) := vfs.RetryWithBackoff readBackoff (
          let* (v, err) := lift (api (v2pools_Get client poolID)) in
          assign v ;;;
          match err with
          | Some e => ret (false, Some e)
          | None => ret (true, None)
          end) in
        let* pool := read in
        ret (return_unless_done done err pool))
  end.

Definition getPoolMember (c : OpenstackCloud) (poolID : string) (memberID : string)
  : State Cloud (option Member * option error) :=
  match LoadBalancerClient c with
  | None => ret (None, Some errNoLoadBalancer)
  | Some client =>
      with_local (None : option Member) (
        let* (done, err) := vfs.RetryWithBackoff readBackoff (
          let* (v, err) := lift (api (v2pools_GetMember client poolID memberID)) in
          assign v ;;;
          match err with
          | Some e => ret (false, Some e)
          | None => ret (true, None)
          end) in
        let* member := read in
        ret (return_unless_done done err member))
  end.

Definition updateMemberInPool (c : OpenstackCloud) (poolID memberID : string)
    (opts : v2pools_UpdateMemberOptsBuilder)
  : State Cloud (option Member * option error) :=
  match LoadBalancerClient c with
  | None => ret (None, Some errNoLoadBalancer)
  | Some client =>
      with_local (None : option Member) (
        let* (done, err) := vfs.RetryWithBackoff memberBackoff (
          let* (v, err) :=
            lift (api (v2pools_UpdateMember client poolID memberID opts)) in
          assign v ;;;
          match err with
          | Some e =>
              (* member not found anymore *)
              if isNotFound err then ret (true, None)
              (* pool is currently in immutable state, try to retry *)
              else if ResponseCodeIs err StatusConflict then ret (false, None)
              else ret (false, Some (Errorv "failed to update pool membership: %v" e))
          | None => ret (true, None)
          end) in
        let* association := read in
        ret (return_unless_done done err association))
  end.

Definition associateToPool (c : OpenstackCloud) (server : Server)
    (poolID : string) (opts : v2pools_CreateMemberOpts)
  : State Cloud (option Member * option error) :=
  match LoadBalancerClient c with
  | None => ret (None, Some errNoLoadBalancer)
  | Some client =>
      with_local (None : option Member) (
        let* (done, err) := vfs.RetryWithBackoff writeBackoff (
          let* (v, err) :=
            lift (api (v2pools_GetMember client poolID (ID server))) in
          assign v ;;;
          if notnil err || isnil v then
            (* Pool association does not exist.  Create it *)
            let* (v, err) :=
              lift (api (v2pools_CreateMember client poolID opts)) in
            assign v ;;;
            match err with
            | Some e =>
                ret (false, Some (Errorv "failed to create pool association: %v" e))
            | None => ret (true, None)
            end
          else
            (* NOOP *)
            ret (true, None)) in
        let* association := read in
        ret (return_unless_done done err association))
  end.

Definition createPool (c : OpenstackCloud) (opts : v2pools_CreateOpts)
  : State Cloud (option Pool * option error) :=
  match LoadBalancerClient c with
  | None => ret (None, Some errNoLoadBalancer)
  | Some client =>
      with_local (None : option Pool) (
        let* (done, err) := vfs.RetryWithBackoff writeBackoff (
          let* (v, err) := lift (api (v2pools_Create client opts)) in
          assign v ;;;
          match err with
          | Some e => ret (false, Some (Errorv "failed to create pool: %v" e))
          | None => ret (true, None)
          end) in
        let* pool := read in
        ret (return_unless_done done err pool))
  end.

Definition listPoolMembers (c : OpenstackCloud) (poolID : string) (opts : v2pools_ListMembersOpts)
  : State Cloud (list Member * option error) :=
  match LoadBalancerClient c with
  | None => ret ([], Some errNoLoadBalancer)
  | Some client =>
      with_local ([] : list Member) (
        let* (done, err) := vfs.RetryWithBackoff readBackoff (
          let* (memberPage, err) := lift (api (v2pools_ListMembers client poolID opts)) in
          match err with
          | Some e => ret (false, Some (Errorv "failed to list members: %v" e))
          | None =>
              let (l, err) := v2pools_ExtractMembers memberPage in
              assign l ;;;
              match err with
              | Some e => ret (false, Some (Errorv "failed to extract members: %v" e))
              | None => ret (true, None)
              end
          end) in
        let* memberList := read in
        ret (return_unless_done done err memberList))
  end.

Definition listPools (c : OpenstackCloud) (opts : v2pools_ListOpts)
  : State Cloud (list Pool * option error) :=
  match LoadBalancerClient c with
  | None => ret ([], Some errNoLoadBalancer)
  | Some client =>
      with_local ([] : list Pool) (
        let* (done, err) := vfs.RetryWithBackoff readBackoff (
          let* (poolPage, err) := lift (api (v2pools_List client opts)) in
          match err with
          | Some e => ret (false, Some (Errorv "failed to list pools: %v" e))
          | None =>
              let (l, err) := v2pools_ExtractPools poolPage in
              assign l ;;;
              match err with
              | Some e => ret (false, Some (Errorv "failed to extract pools: %v" e))
              | None => ret (true, None)
              end
          end) in
        let* poolList := read in
        ret (return_unless_done done err poolList))
  end.

Definition listListeners (c : OpenstackCloud) (opts : listeners_ListOpts)
  : State Cloud (list Listener * option error) :=
  match LoadBalancerClient c with
  | None => ret ([], Some errNoLoadBalancer)
  | Some client =>
      with_local ([] : list Listener) (
        let* (done, err) := vfs.RetryWithBackoff readBackoff (
          let* (listenerPage, err) := lift (api (listeners_List client opts)) in
          match err with
          | Some e => ret (false, Some (Errorv "failed to list listeners: %v" e))
          | None =>
              let (l, err) := listeners_ExtractListeners listenerPage in
              assign l ;;;
              match err with
              | Some e => ret (false, Some (Errorv "failed to extract listeners: %v" e))
              | None => ret (true, None)
              end
          end) in
        let* listenerList := read in
        ret (return_unless_done done err listenerList))
  end.

(** [createListener] retries under the read policy. *)
Definition createListener (c : OpenstackCloud) (opts : listeners_CreateOpts)
  : State Cloud (option Listener * option error) :=
  match LoadBalancerClient c with
  | None => ret (None, Some errNoLoadBalancer)
  | Some client =>
      with_local (None : option Listener) (
        let* (done, err) := vfs.RetryWithBackoff readBackoff (
          let* (v, err) := lift (api (listeners_Create client opts)) in
          assign v ;;;
          match err with
          | Some e => ret (false, Some (Errorv "unabled to create listener: %v" e))
          | None => ret (true, None)
          end) in
        let* listener := read in
        ret (return_unless_done done err listener))
  end.

(** *** The entry points as data

    [Method] names the methods of [openstackCloud] with their arguments,
    and [invoke] is the call of one of them, of which it keeps the error.
    [DeleteOp] names the four methods that delete. *)
Inductive Method : Type :=
| CreatePoolMonitor (opts : monitors_CreateOpts)
| ListMonitors (opts : monitors_ListOpts)
| DeleteMonitor (monitorID : string)
| DeletePool (poolID : string)
| DeleteListener (listenerID : string)
| DeleteLB (lbID : string) (opts : loadbalancers_DeleteOpts)
| CreateLB (opt : loadbalancers_CreateOptsBuilder)
| GetLB (loadbalancerID : string)
| ListLBs (opt : loadbalancers_ListOptsBuilder)
| GetLBStats (loadbalancerID : string)
| GetPool (poolID : string)
| GetPoolMember (poolID memberID : string)
| UpdateMemberInPool (poolID memberID : string)
    (opts : v2pools_UpdateMemberOptsBuilder)
| AssociateToPool (server : Server) (poolID : string)
    (opts : v2pools_CreateMemberOpts)
| CreatePool (opts : v2pools_CreateOpts)
| ListPoolMembers (poolID : string) (opts : v2pools_ListMembersOpts)
| ListPools (opts : v2pools_ListOpts)
| ListListeners (opts : listeners_ListOpts)
| CreateListener (opts : listeners_CreateOpts).

Definition error_of {V : Type} (m : State Cloud (V * option error))
  : State Cloud (option error) :=
  let* r := m in ret (snd r).

Definition invoke (c : OpenstackCloud) (m : Method) : State Cloud (option error) :=
  match m with
  | CreatePoolMonitor opts => error_of (createPoolMonitor c opts)
  | ListMonitors opts => error_of (listMonitors c opts)
  | DeleteMonitor monitorID => deleteMonitor c monitorID
  | DeletePool poolID => deletePool c poolID
  | DeleteListener listenerID => deleteListener c listenerID
  | DeleteLB lbID opts => deleteLB c lbID opts
  | CreateLB opt => error_of (createLB c opt)
  | GetLB loadbalancerID => error_of (getLB c loadbalancerID)
  | ListLBs opt => error_of (listLBs c opt)
  | GetLBStats loadbalancerID => error_of (getLBStats c loadbalancerID)
  | GetPool poolID => error_of (getPool c poolID)
  | GetPoolMember poolID memberID => error_of (getPoolMember c poolID memberID)
  | UpdateMemberInPool poolID memberID opts =>
      error_of (updateMemberInPool c poolID memberID opts)
  | AssociateToPool server poolID opts =>
      error_of (associateToPool c server poolID opts)
  | CreatePool opts => error_of (createPool c opts)
  | ListPoolMembers poolID opts => error_of (listPoolMembers c poolID opts)
  | ListPools opts => error_of (listPools c opts)
  | ListListeners opts => error_of (listListeners c opts)
  | CreateListener opts => error_of (createListener c opts)
  end.

(** The two methods that answer a missing client with no error. *)
Definition tolerates_missing_client (m : Method) : bool :=
  match m with
  | ListLBs _ | GetLBStats _ => true
  | _ => false
  end.

Inductive DeleteOp : Type :=
| OfMonitor (monitorID : string)
| OfPool (poolID : string)
| OfListener (listenerID : string)
| OfLB (lbID : string) (opts : loadbalancers_DeleteOpts).

Definition delete (c : OpenstackCloud) (d : DeleteOp) : State Cloud (option error) :=
  match d with
  | OfMonitor monitorID => deleteMonitor c monitorID
  | OfPool poolID => deletePool c poolID
  | OfListener listenerID => deleteListener c listenerID
  | OfLB lbID opts => deleteLB c lbID opts
  end.

(** The request that [delete c d] retries. *)
Definition delete_call (client : ServiceClient) (d : DeleteOp) : Call :=
  match d with
  | OfMonitor monitorID => monitors_Delete client monitorID
  | OfPool poolID => v2pools_Delete client poolID
  | OfListener listenerID => listeners_Delete client listenerID
  | OfLB lbID opts => loadbalancers_Delete client lbID opts
  end.

End Adapters.

End openstack.

(** ** [google.golang.org/api/compute/v1]: the fields the task uses *)

Module compute.

Record ForwardingRule : Type := {
  Name : string;
  IPProtocol : string;
  NetworkTier : string;
  PortRange : string;
  Ports : option (list string);
  LoadBalancingScheme : string;
  Target : string;
  BackendService : string;
  IPAddress : string;
  Network : string;
  Subnetwork : string;
  Labels : option (gmap string string);
  LabelFingerprint : string
}.

Record RegionSetLabelsRequest : Type := {
  req_LabelFingerprint : string;
  req_Labels : option (gmap string string)
}.

End compute.

(** ** [k8s.io/kops/upup/pkg/fi/cloudup/gce] *)

Module gce.

(** [gce.GCECloud], as far as the task reads it: the project and the region
    the cloud was opened for. *)
Record GCECloud : Type := {
  Project : string;
  Region : string
}.

Record GCEAPITarget : Type := { Cloud : GCECloud }.

(** Modelled from the spec: [gce.IsNotFound] is declared in package [gce],
    which is not among the sources.  The client "returns structured errors
    distinguishing not found from other failures": the error is a response
    with status 404. *)
Definition IsNotFound (err : option error) : bool :=
  match err with
  | Some (StatusError code) => Z.eqb code StatusNotFound
  | _ => false
  end.

End gce.

(** ** Package [gcetasks]: the task [ForwardingRule] *)

Module gcetasks.

(** The tasks a forwarding rule refers to are declared in other files of
    the package; these are the fields that [forwardingrule.go] reads or
    writes. *)
Module task.

Record TargetPool : Type := { TargetPool_Name : option string }.

Record BackendService : Type := { BackendService_Name : option string }.

Record Network : Type := {
  Network_Name : option string;
  Network_Project : option string
}.

Record Subnet : Type := { Subnet_Name : option string }.

Record Address : Type := {
  Address_Name : option string;
  Address_IPAddress : option string
}.

End task.

(** [ForwardingRule] represents a GCE ForwardingRule.  A nil pointer, a nil
    slice and a nil map are [None]; [Lifecycle] is a string type. *)
Record ForwardingRule : Type := {
  Name : option string;
  Lifecycle : string;
  PortRange : option string;
  Ports : option (list string);
  TargetPool : option task.TargetPool;
  (* An IP address can be specified either in dotted decimal or by
     reference to an address object.  The following two fields are
     mutually exclusive. *)
  IPAddress : option task.Address;
  RuleIPAddress : option string;
  IPProtocol : string;
  LoadBalancingScheme : option string;
  Network : option task.Network;
  Subnetwork : option task.Subnet;
  BackendService : option task.BackendService;
  Region : string;
  (* Labels to set on the resource. *)
  Labels : option (gmap string string);
  (* Fingerprint of the labels, used to avoid race-conditions on updates.
     Only set on the actual resource returned by Find. *)
  labelFingerprint : string
}.

(** [&ForwardingRule{}] *)
Definition zero : ForwardingRule := {|
  Name := None; Lifecycle := ""; PortRange := None; Ports := None;
  TargetPool := None; IPAddress := None; RuleIPAddress := None;
  IPProtocol := ""; LoadBalancingScheme := None; Network := None;
  Subnetwork := None; BackendService := None; Region := "";
  Labels := None; labelFingerprint := ""
|}.

(** [reflect.DeepEqual(changes, &ForwardingRule{})]: every pointer, slice
    and map is nil and every string is empty. *)
Definition DeepEqual_zero (changes : ForwardingRule) : bool :=
  isnil (Name changes) && negb (nonempty (Lifecycle changes))
  && isnil (PortRange changes) && isnil (Ports changes)
  && isnil (TargetPool changes) && isnil (IPAddress changes)
  && isnil (RuleIPAddress changes) && negb (nonempty (IPProtocol changes))
  && isnil (LoadBalancingScheme changes) && isnil (Network changes)
  && isnil (Subnetwork changes) && isnil (BackendService changes)
  && negb (nonempty (Region changes)) && isnil (Labels changes)
  && negb (nonempty (labelFingerprint changes)).

(** [changes.Labels = nil] *)
Definition clear_Labels (changes : ForwardingRule) : ForwardingRule := {|
  Name := Name changes; Lifecycle := Lifecycle changes;
  PortRange := PortRange changes; Ports := Ports changes;
  TargetPool := TargetPool changes; IPAddress := IPAddress changes;
  RuleIPAddress := RuleIPAddress changes; IPProtocol := IPProtocol changes;
  LoadBalancingScheme := LoadBalancingScheme changes;
  Network := Network changes; Subnetwork := Subnetwork changes;
  BackendService := BackendService changes; Region := Region changes;
  Labels := None; labelFingerprint := labelFingerprint changes
|}.

(** What the SDK returns for a request that yields an object: the object
    or an error, never both and never neither. *)
Inductive result (T : Type) : Type :=
| Ok (v : T)
| Failed (err : error).

Arguments Ok {T} v.
Arguments Failed {T} err.

(** The long-running operation handle of the compute API, and the helpers
    of the package that live in other files: the URL of a referenced task
    and the last path component of a URL. *)
Class SDK : Type := {
  Operation : Type;
  TargetPool_URL : task.TargetPool -> gce.GCECloud -> string;
  BackendService_URL : task.BackendService -> gce.GCECloud -> string -> string;
  Network_URL : task.Network -> string -> string;
  Subnet_URL : task.Subnet -> string -> string -> string;
  lastComponent : string -> string
}.

Section Task.

Context {sdk : SDK}.

(** The requests the task makes.  [ForwardingRules_*] are the methods of
    [cloud.Compute().ForwardingRules()], [WaitForOp] is the method of the
    cloud.  [findAddressByIP] and [Address_find] (the method [find] of
    [Address]) are declared in [address.go]; each looks addresses up in the
    cloud and returns a task that may be nil and an error that may be
    nil. *)
Inductive Call : Type :=
| ForwardingRules_Get (project region name : string)
| ForwardingRules_Insert (project region : string) (o : compute.ForwardingRule)
| ForwardingRules_SetLabels (project region name : string)
    (req : compute.RegionSetLabelsRequest)
| WaitForOp (op : Operation)
| findAddressByIP (ip region : string)
| Address_find (address : task.Address) (region : string).

Definition Resp (c : Call) : Type :=
  match c with
  | ForwardingRules_Get _ _ _ => result compute.ForwardingRule
  | ForwardingRules_Insert _ _ _ => result Operation
  | ForwardingRules_SetLabels _ _ _ _ => result Operation
  | WaitForOp _ => option error
  | findAddressByIP _ _ => (option task.Address * option error)%type
  | Address_find _ _ => (option task.Address * option error)%type
  end.

Definition result_err {T : Type} (r : result T) : option error :=
  match r with
  | Ok _ => None
  | Failed err => Some err
  end.

Definition resp_err (c : Call) : Resp c -> option error :=
  match c with
  | ForwardingRules_Get _ _ _ => result_err
  | ForwardingRules_Insert _ _ _ => result_err
  | ForwardingRules_SetLabels _ _ _ _ => result_err
  | WaitForOp _ => fun r => r
  | findAddressByIP _ _ => snd
  | Address_find _ _ => snd
  end.

(** The compute service: its state and how it answers a request. *)
Class Service : Type := {
  W : Type;
  handle : forall c : Call, W -> Resp c * W
}.

Context {service : Service}.

Record Event : Type := { ev_call : Call; ev_err : option error }.

Record Cloud : Type := { world : W; log : list Event }.

Definition api (c : Call) : State Cloud (Resp c) :=
  fun s =>
    let (r, w') := handle c (world s) in
    (r, {| world := w'; log := log s ++ [{| ev_call := c; ev_err := resp_err c r |}] |}).


(** How a call of [RenderGCE] ends: it returns an error (nil on success), or
    it panics on a nil pointer. *)
Inductive exit : Type :=
| Returned (err : option error)
| Panicked.

(** [Find] reads the live forwarding rule named as [e]. *)
Definition Find (cloud : gce.GCECloud) (e : ForwardingRule)
  : State Cloud (option ForwardingRule * option error) :=
  let name := ValueOf (Name e) in
  let* r := api (ForwardingRules_Get (gce.Project cloud) (gce.Region cloud) name) in
  match r with
  | Failed err =>
      if gce.IsNotFound (Some err) then ret (None, None)
      else ret (None, Some (Errorv "error getting ForwardingRule %q: %v" err))
  | Ok r =>
      let* (address, err) :=
        if nonempty (compute.IPAddress r) then
          api (findAddressByIP (compute.IPAddress r) (gce.Region cloud))
        else ret (None, None) in
      match err with
      | Some err =>
          ret (None, Some (Errorv "error finding Address with IP=%q: %v" err))
      | None =>
          let named (url : string) : option string :=
            if nonempty url then Some (lastComponent url) else None in
          let actual := {|
            Name := Some (compute.Name r);
            IPProtocol := compute.IPProtocol r;
            PortRange :=
              if nonempty (compute.PortRange r) then Some (compute.PortRange r)
              else None;
            Ports :=
              match compute.Ports r with
              | Some ports => if (0 <? length ports)%nat then Some ports else None
              | None => None
              end;
            TargetPool :=
              option_map (fun n => {| task.TargetPool_Name := Some n |})
                (named (compute.Target r));
            IPAddress := address;
            RuleIPAddress := None;
            BackendService :=
              option_map (fun n => {| task.BackendService_Name := Some n |})
                (named (compute.BackendService r));
            LoadBalancingScheme :=
              if nonempty (compute.LoadBalancingScheme r)
              then Some (compute.LoadBalancingScheme r) else None;
            Network :=
              option_map
                (fun n => {| task.Network_Name := Some n;
                             task.Network_Project := None |})
                (named (compute.Network r));
            Subnetwork :=
              option_map (fun n => {| task.Subnet_Name := Some n |})
                (named (compute.Subnetwork r));
            Region := "";
            Labels := compute.Labels r;
            labelFingerprint := compute.LabelFingerprint r;
            (* Ignore "system" fields *)
            Lifecycle := Lifecycle e
          |} in
          ret (Some actual, None)
      end
  end.

(** [RenderGCE] applies the changes through the API.  It is embedded in two
    definitions.  [request] is the first part of its body, up to the test
    [a == nil]: it assembles the request [o] from [e], and leaves early
    with an error, or with a panic, when [e] is not well formed.  The
    fields of [o] are local values until the request is assembled.  A
    result holds how the call ended and [changes] as the call leaves it
    ([changes] is passed by pointer and the update path clears its
    labels). *)
Definition request (t : gce.GCEAPITarget) (e changes : ForwardingRule)
  : Body Cloud (exit * ForwardingRule) compute.ForwardingRule :=
  let cloud := gce.Cloud t in
  let fail (err : error) : exit * ForwardingRule :=
    (Returned (Some err), changes) in
  let name := ValueOf (Name e) in
  let o_PortRange :=
    match PortRange e with Some p => p | None => "" end in
  let o_Ports :=
    match Ports e with
    | Some ports => if (0 <? length ports)%nat then Some ports else None
    | None => None
    end in
  let o_LoadBalancingScheme :=
    match LoadBalancingScheme e with Some s => s | None => "" end in
  let o_Target :=
    match TargetPool e with
    | Some tp => TargetPool_URL tp cloud
    | None => ""
    end in
  let? o_BackendService :=
    match BackendService e with
    | Some bs =>
        if nonempty o_Target then
          leave (fail (Errorf
            "cannot specify both %q and %q for forwarding rule target"))
        else go_on (BackendService_URL bs cloud (Region e))
    | None => go_on ""
    end in
  let? o_IPAddress :=
    match IPAddress e with
    | Some address =>
        let ip := ValueOf (task.Address_IPAddress address) in
        if nonempty ip then go_on ip
        else
          let* (addr, err) := api (Address_find address (Region e)) in
          match err with
          | Some err => leave (fail (Errorv "error finding Address %q: %v" err))
          | None =>
              match addr with
              | None => leave (fail (Errorf "Address %q was not found"))
              | Some addr =>
                  let ip := ValueOf (task.Address_IPAddress addr) in
                  if nonempty ip then go_on ip
                  else leave (fail (Errorf "Address had no IP: %v"))
              end
          end
    | None => go_on ""
    end in
  let? _ :=
    if nonempty o_IPAddress && notnil (RuleIPAddress e) then
      leave (fail (Errorf
        "specified both IP Address and rule-managed IP address: %v, %v"))
    else go_on tt in
  let o_IPAddress :=
    match RuleIPAddress e with Some ip => ip | None => o_IPAddress end in
  let o_Network :=
    match Network e with
    | Some network =>
        let project :=
          match task.Network_Project network with
          | Some p => p
          | None => gce.Project cloud
          end in
        Network_URL network project
    | None => ""
    end in
  let? o_Subnetwork :=
    match Subnetwork e with
    | Some subnetwork =>
        match Network e with
        | None => leave (Panicked, changes)   (* e.Network.Project *)
        | Some network =>
            let project :=
              match task.Network_Project network with
              | Some p => p
              | None => gce.Project cloud
              end in
            go_on (Subnet_URL subnetwork project (gce.Region cloud))
        end
    | None => go_on ""
    end in
  go_on {|
    compute.Name := name;
    compute.IPProtocol := IPProtocol e;
    compute.NetworkTier := "PREMIUM";
    compute.PortRange := o_PortRange;
    compute.Ports := o_Ports;
    compute.LoadBalancingScheme := o_LoadBalancingScheme;
    compute.Target := o_Target;
    compute.BackendService := o_BackendService;
    compute.IPAddress := o_IPAddress;
    compute.Network := o_Network;
    compute.Subnetwork := o_Subnetwork;
    compute.Labels := None;
    compute.LabelFingerprint := ""
  |}.

Definition RenderGCE (t : gce.GCEAPITarget) (a : option ForwardingRule)
    (e changes : ForwardingRule) : State Cloud (exit * ForwardingRule) :=
  let cloud := gce.Cloud t in
  let fail (err : error) : exit * ForwardingRule :=
    (Returned (Some err), changes) in
  run_body (
    let name := ValueOf (Name e) in
    let? o := request t e changes in
    match a with
    | None =>
        let* r := api (ForwardingRules_Insert (gce.Project cloud) (Region e) o) in
        match r with
        | Failed err =>
            leave (fail (Errorv "error creating ForwardingRule %q: %v" err))
        | Ok op =>
            let* err := api (WaitForOp op) in
            match err with
            | Some err =>
                leave (fail (Errorv "error creating forwarding rule: %v" err))
            | None =>
                match Labels e with
                | Some _ =>
                    (* We can't set labels on creation; we have to read the
                       object to get the fingerprint *)
                    let* r := api (ForwardingRules_Get (gce.Project cloud)
                                     (Region e) name) in
                    match r with
                    | Failed err =>
                        leave (fail (Errorv
                          "reading created ForwardingRule %q: %v" err))
                    | Ok r =>
                        let req := {|
                          compute.req_LabelFingerprint := compute.LabelFingerprint r;
                          compute.req_Labels := Labels e
                        |} in
                        let* r := api (ForwardingRules_SetLabels
                                         (gce.Project cloud) (Region e)
                                         (compute.Name o) req) in
                        match r with
                        | Failed err =>
                            leave (fail (Errorw
                              "setting ForwardingRule labels: %w" err))
                        | Ok op =>
                            let* err := api (WaitForOp op) in
                            match err with
                            | Some err =>
                                leave (fail (Errorw
                                  "setting ForwardRule labels: %w" err))
                            | None => go_on (Returned None, changes)
                            end
                        end
                    end
                | None => go_on (Returned None, changes)
                end
            end
        end
    | Some a =>
        let? changes :=
          match Labels changes with
          | Some _ =>
              let req := {|
                compute.req_LabelFingerprint := labelFingerprint a;
                compute.req_Labels := Labels e
              |} in
              let* r := api (ForwardingRules_SetLabels (gce.Project cloud)
                               (Region e) (compute.Name o) req) in
              match r with
              | Failed err =>
                  leave (fail (Errorw "setting ForwardingRule labels: %w" err))
              | Ok op =>
                  let* err := api (WaitForOp op) in
                  match err with
                  | Some err =>
                      leave (fail (Errorw "setting ForwardRule labels: %w" err))
                  | None => go_on (clear_Labels changes)
                  end
              end
          | None => go_on changes
          end in
        if negb (DeepEqual_zero changes) then
          leave (Returned (Some (Errorf
                   "cannot apply changes to ForwardingRule: %v")), changes)
        else go_on (Returned None, changes)
    end).

End Task.

End gcetasks.

(** ** The rest of the forwarding-rule task

    [CheckChanges] and the terraform rendering of the rule. *)

Module gcetasks_rest.

Import gcetasks.

(** [terraformWriter.Literal], its two constructors that the task uses, and
    the links of the referenced tasks; all of them are declared in other
    packages and files. *)
Class TerraformWriter : Type := {
  Literal : Type;
  LiteralFromStringValue : string -> Literal;
  LiteralSelfLink : string -> string -> Literal;
  TargetPool_TerraformLink : task.TargetPool -> Literal;
  Network_TerraformLink : task.Network -> Literal;
  Subnet_TerraformLink : task.Subnet -> Literal;
  BackendService_TerraformAddress : task.BackendService -> Literal;
  Address_TerraformAddress : task.Address -> Literal
}.

Section Rest.

Context {writer : TerraformWriter}.

(** [fi.RequiredField], declared in package [fi]: the error for a field
    that must be set. *)
Variable RequiredField : string -> error.

(** [CheckChanges] wants a name and nothing else. *)
Definition CheckChanges (a e changes : ForwardingRule) : option error :=
  if nonempty (ValueOf (Name e)) then None
  else Some (RequiredField "Name").

Record terraformForwardingRule : Type := {
  tf_Name : string;
  tf_PortRange : option string;
  tf_Ports : option (list string);
  tf_Target : option Literal;
  tf_IPAddress : option Literal;
  tf_IPProtocol : string;
  tf_LoadBalancingScheme : option string;
  tf_Network : option Literal;
  tf_Subnetwork : option Literal;
  tf_BackendService : option Literal;
  tf_Labels : option (gmap string string)
}.

(** The terraform target: its state and how [RenderResource] answers. *)
Class TerraformTarget : Type := {
  TW : Type;
  RenderResource :
    string -> string -> terraformForwardingRule -> TW -> option error * TW
}.

Context {terraform : TerraformTarget}.

(** The record [tf] that [RenderTerraform] assembles from [e]. *)
Definition terraform_resource (e : ForwardingRule) : terraformForwardingRule := {|
  tf_Name := ValueOf (Name e);
  tf_IPProtocol := IPProtocol e;
  tf_LoadBalancingScheme := LoadBalancingScheme e;
  tf_Ports := Ports e;
  tf_PortRange := PortRange e;
  tf_Labels := Labels e;
  tf_Target := option_map TargetPool_TerraformLink (TargetPool e);
  tf_Network := option_map Network_TerraformLink (Network e);
  tf_Subnetwork := option_map Subnet_TerraformLink (Subnetwork e);
  tf_BackendService :=
    option_map BackendService_TerraformAddress (BackendService e);
  tf_IPAddress :=
    match IPAddress e with
    | Some address => Some (Address_TerraformAddress address)
    | None =>
        match RuleIPAddress e with
        | Some ip => Some (LiteralFromStringValue ip)
        | None => None
        end
    end
|}.

Definition RenderTerraform (a e changes : ForwardingRule)
  : State TW (option error) :=
  let name := ValueOf (Name e) in
  RenderResource "google_compute_forwarding_rule" name (terraform_resource e).

(** [TerraformLink] of the rule itself. *)
Definition TerraformLink (e : ForwardingRule) : Literal :=
  LiteralSelfLink "google_compute_forwarding_rule" (ValueOf (Name e)).

End Rest.

End gcetasks_rest.

(** ** In-memory services

    Two small load-balancer services and one compute service on which the
    adapters and the task can be run on concrete inputs. *)

Module mockloadbalancer.

Import openstack.

(** Every options type is the identifier the request is about, every object
    is its identifier, and a page is the list of identifiers it holds. *)
#[export] Instance sdk : SDK := {|
  ServiceClient := unit;
  Page := list string;
  monitors_CreateOpts := string;
  monitors_ListOpts := unit;
  Monitor := string;
  v2pools_CreateOpts := string;
  v2pools_ListOpts := unit;
  v2pools_CreateMemberOpts := string;
  v2pools_UpdateMemberOptsBuilder := unit;
  v2pools_ListMembersOpts := unit;
  Pool := string;
  Member := string;
  listeners_CreateOpts := string;
  listeners_ListOpts := unit;
  Listener := string;
  loadbalancers_CreateOptsBuilder := string;
  loadbalancers_ListOptsBuilder := unit;
  loadbalancers_DeleteOpts := unit;
  LoadBalancer := string;
  Stats := unit;
  monitors_ExtractMonitors := fun p => (p, None);
  loadbalancers_ExtractLoadBalancers := fun p => (p, None);
  v2pools_ExtractMembers := fun p => (p, None);
  v2pools_ExtractPools := fun p => (p, None);
  listeners_ExtractListeners := fun p => (p, None)
|}.

(** The response to [c] that carries the error [err], and an object named
    [v] when there is no error. *)
Definition respond (c : Call) (v : string) (err : option error) : Resp c :=
  let obj : option string := if isnil err then Some v else None in
  match c as c' return Resp c' with
  | monitors_Create _ _ => (obj, err)
  | monitors_List _ _ => ([], err)
  | monitors_Delete _ _ => err
  | v2pools_Delete _ _ => err
  | listeners_Delete _ _ => err
  | loadbalancers_Delete _ _ _ => err
  | loadbalancers_Create _ _ => (obj, err)
  | loadbalancers_Get _ _ => (obj, err)
  | loadbalancers_List _ _ => ([], err)
  | loadbalancers_GetStats _ _ => (if isnil err then Some tt else None, err)
  | v2pools_Get _ _ => (obj, err)
  | v2pools_GetMember _ _ _ => (obj, err)
  | v2pools_UpdateMember _ _ _ _ => (obj, err)
  | v2pools_CreateMember _ _ _ => (obj, err)
  | v2pools_Create _ _ => (obj, err)
  | v2pools_ListMembers _ _ _ => ([], err)
  | v2pools_List _ _ => ([], err)
  | listeners_List _ _ => ([], err)
  | listeners_Create _ _ => (obj, err)
  end.

(** The scripted service: its state is the list of the errors still to be
    handed out, one per request; when the script is used up every request
    succeeds. *)
Definition scripted : Service := {|
  W := list (option error);
  handle := fun c w =>
    match w with
    | [] => (respond c "obj" None, [])
    | err :: w' => (respond c "obj" err, w')
    end
|}.

(** The store: the identifiers of the monitors, pools, listeners and load
    balancers that exist, and the memberships as pairs of a pool and a
    member.  Creating registers the identifier given as options, deleting
    removes it, and a request about an identifier that is not there is
    answered with 404. *)
Record Store : Type := {
  monitors : gset string;
  pools : gset string;
  listeners : gset string;
  lbs : gset string;
  members : gset (string * string)
}.

Definition not_found : option error := Some (StatusError StatusNotFound).

Definition store_handle (c : Call) (w : Store) : Resp c * Store :=
  match c as c' return Resp c' * Store with
  | monitors_Create _ id =>
      ((Some id, None),
       {| monitors := {[id]} ∪ monitors w; pools := pools w;
          listeners := listeners w; lbs := lbs w; members := members w |})
  | monitors_List _ _ => ((elements (monitors w), None), w)
  | monitors_Delete _ id =>
      if decide (id ∈ monitors w) then
        (None,
         {| monitors := monitors w ∖ {[id]}; pools := pools w;
            listeners := listeners w; lbs := lbs w; members := members w |})
      else (not_found, w)
  | v2pools_Delete _ id =>
      if decide (id ∈ pools w) then
        (None,
         {| monitors := monitors w; pools := pools w ∖ {[id]};
            listeners := listeners w; lbs := lbs w; members := members w |})
      else (not_found, w)
  | listeners_Delete _ id =>
      if decide (id ∈ listeners w) then
        (None,
         {| monitors := monitors w; pools := pools w;
            listeners := listeners w ∖ {[id]}; lbs := lbs w;
            members := members w |})
      else (not_found, w)
  | loadbalancers_Delete _ id _ =>
      if decide (id ∈ lbs w) then
        (None,
         {| monitors := monitors w; pools := pools w;
            listeners := listeners w; lbs := lbs w ∖ {[id]};
            members := members w |})
      else (not_found, w)
  | loadbalancers_Create _ id =>
      ((Some id, None),
       {| monitors := monitors w; pools := pools w;
          listeners := listeners w; lbs := {[id]} ∪ lbs w;
          members := members w |})
  | loadbalancers_Get _ id =>
      if decide (id ∈ lbs w) then ((Some id, None), w)
      else ((None, not_found), w)
  | loadbalancers_List _ _ => ((elements (lbs w), None), w)
  | loadbalancers_GetStats _ id =>
      if decide (id ∈ lbs w) then ((Some tt, None), w)
      else ((None, not_found), w)
  | v2pools_Get _ id =>
      if decide (id ∈ pools w) then ((Some id, None), w)
      else ((None, not_found), w)
  | v2pools_GetMember _ poolID memberID =>
      if decide ((poolID, memberID) ∈ members w) then ((Some memberID, None), w)
      else ((None, not_found), w)
  | v2pools_UpdateMember _ poolID memberID _ =>
      if decide ((poolID, memberID) ∈ members w) then ((Some memberID, None), w)
      else ((None, not_found), w)
  | v2pools_CreateMember _ poolID memberID =>
      ((Some memberID, None),
       {| monitors := monitors w; pools := pools w;
          listeners := listeners w; lbs := lbs w;
          members := {[(poolID, memberID)]} ∪ members w |})
  | v2pools_Create _ id =>
      ((Some id, None),
       {| monitors := monitors w; pools := {[id]} ∪ pools w;
          listeners := listeners w; lbs := lbs w; members := members w |})
  | v2pools_ListMembers _ poolID _ =>
      ((map snd (filter (fun m => bool_decide (fst m = poolID))
                   (elements (members w))), None), w)
  | v2pools_List _ _ => ((elements (pools w), None), w)
  | listeners_List _ _ => ((elements (listeners w), None), w)
  | listeners_Create _ id =>
      ((Some id, None),
       {| monitors := monitors w; pools := pools w;
          listeners := {[id]} ∪ listeners w; lbs := lbs w;
          members := members w |})
  end.

Definition store : Service := {| W := Store; handle := store_handle |}.

Definition empty_store : Store := {|
  monitors := ∅; pools := ∅; listeners := ∅; lbs := ∅; members := ∅
|}.

(** A store with the monitor "m1" and nothing else. *)
Definition one_monitor : Store := {|
  monitors := {["m1"]}; pools := ∅; listeners := ∅; lbs := ∅; members := ∅
|}.

(** A cloud of either service with an empty log. *)
Definition script (errs : list (option error)) : @Cloud sdk scripted :=
  @Build_Cloud sdk scripted errs [].

Definition start (w : Store) : @Cloud sdk store := @Build_Cloud sdk store w [].

Definition with_lb : OpenstackCloud := {| LoadBalancerClient := Some tt |}.

Definition without_lb : OpenstackCloud := {| LoadBalancerClient := None |}.

(** Sample policies. *)
#[export] Instance backoffs : Backoffs := {|
  readBackoff :=
    {| wait.Duration := 1000000000; wait.Factor := 3 # 2;
       wait.Jitter := 1 # 10; wait.Steps := 4 |};
  writeBackoff :=
    {| wait.Duration := 3000000000; wait.Factor := 3 # 2;
       wait.Jitter := 1 # 10; wait.Steps := 5 |};
  deleteBackoff :=
    {| wait.Duration := 2000000000; wait.Factor := 3 # 2;
       wait.Jitter := 1 # 10; wait.Steps := 20 |}
|}.

End mockloadbalancer.

Module mockcompute.

Import gcetasks.

(** An operation handle carries nothing; the URL of a task ends in its
    name. *)
#[export] Instance sdk : SDK := {|
  Operation := unit;
  TargetPool_URL := fun tp cloud =>
    ("projects/" ++ gce.Project cloud ++ "/targetPools/"
       ++ ValueOf (task.TargetPool_Name tp))%string;
  BackendService_URL := fun bs cloud region =>
    ("projects/" ++ gce.Project cloud ++ "/regions/" ++ region
       ++ "/backendServices/" ++ ValueOf (task.BackendService_Name bs))%string;
  Network_URL := fun n project =>
    ("projects/" ++ project ++ "/global/networks/"
       ++ ValueOf (task.Network_Name n))%string;
  Subnet_URL := fun sn project region =>
    ("projects/" ++ project ++ "/regions/" ++ region ++ "/subnetworks/"
       ++ ValueOf (task.Subnet_Name sn))%string;
  lastComponent := fun url => url
|}.

(** The region holds at most one forwarding rule and some reserved
    addresses.  A fresh rule gets the fingerprint "fp"; setting labels
    needs the current fingerprint, else the request is answered with 412,
    and it moves the fingerprint on. *)
Record Store : Type := {
  rule : option compute.ForwardingRule;
  addresses : list task.Address
}.

Definition with_labels (r : compute.ForwardingRule)
    (labels : option (gmap string string)) (fingerprint : string)
  : compute.ForwardingRule := {|
  compute.Name := compute.Name r;
  compute.IPProtocol := compute.IPProtocol r;
  compute.NetworkTier := compute.NetworkTier r;
  compute.PortRange := compute.PortRange r;
  compute.Ports := compute.Ports r;
  compute.LoadBalancingScheme := compute.LoadBalancingScheme r;
  compute.Target := compute.Target r;
  compute.BackendService := compute.BackendService r;
  compute.IPAddress := compute.IPAddress r;
  compute.Network := compute.Network r;
  compute.Subnetwork := compute.Subnetwork r;
  compute.Labels := labels;
  compute.LabelFingerprint := fingerprint
|}.

Definition named (name : string) (w : Store) : option compute.ForwardingRule :=
  match rule w with
  | Some r => if String.eqb (compute.Name r) name then Some r else None
  | None => None
  end.

Definition store_handle (c : Call) (w : Store) : Resp c * Store :=
  match c as c' return Resp c' * Store with
  | ForwardingRules_Get _ _ name =>
      match named name w with
      | Some r => (Ok r, w)
      | None => (Failed (StatusError StatusNotFound), w)
      end
  | ForwardingRules_Insert _ _ o =>
      match rule w with
      | Some _ => (Failed (StatusError StatusConflict), w)
      | None =>
          (Ok tt, {| rule := Some (with_labels o None "fp");
                     addresses := addresses w |})
      end
  | ForwardingRules_SetLabels _ _ name req =>
      match named name w with
      | Some r =>
          if String.eqb (compute.req_LabelFingerprint req)
               (compute.LabelFingerprint r) then
            (Ok tt,
             {| rule := Some (with_labels r (compute.req_Labels req)
                                (compute.LabelFingerprint r ++ "+")%string);
                addresses := addresses w |})
          else (Failed (StatusError 412), w)
      | None => (Failed (StatusError StatusNotFound), w)
      end
  | WaitForOp _ => (None, w)
  | findAddressByIP ip _ =>
      (find (fun a => String.eqb (ValueOf (task.Address_IPAddress a)) ip)
         (addresses w), None, w)
  | Address_find address _ =>
      (find (fun a => String.eqb (ValueOf (task.Address_Name a))
                        (ValueOf (task.Address_Name address)))
         (addresses w), None, w)
  end.

Definition store : Service := {| W := Store; handle := store_handle |}.

Definition start (w : Store) : @Cloud sdk store := @Build_Cloud sdk store w [].

Definition empty_store : Store := {| rule := None; addresses := [] |}.

Definition target : gce.GCEAPITarget :=
  {| gce.Cloud := {| gce.Project := "proj"; gce.Region := "us-test1" |} |}.

(** A desired rule with a name, a protocol and a region only. *)
Definition plain (name : string) : ForwardingRule := {|
  Name := Some name; Lifecycle := "Sync"; PortRange := None; Ports := None;
  TargetPool := None; IPAddress := None; RuleIPAddress := None;
  IPProtocol := "TCP"; LoadBalancingScheme := None; Network := None;
  Subnetwork := None; BackendService := None; Region := "us-test1";
  Labels := None; labelFingerprint := ""
|}.

(** [plain name] with the labels env=prod. *)
Definition labelled (name : string) : ForwardingRule := {|
  Name := Some name; Lifecycle := "Sync"; PortRange := None; Ports := None;
  TargetPool := None; IPAddress := None; RuleIPAddress := None;
  IPProtocol := "TCP"; LoadBalancingScheme := None; Network := None;
  Subnetwork := None; BackendService := None; Region := "us-test1";
  Labels := Some {[ "env" := "prod" ]}; labelFingerprint := ""
|}.

(** A desired rule that names both a target pool and a backend service,
    with or without a subnetwork; no network. *)
Definition both_targets (subnetwork : option task.Subnet) : ForwardingRule := {|
  Name := Some "rule-b"; Lifecycle := "Sync"; PortRange := None; Ports := None;
  TargetPool := Some {| task.TargetPool_Name := Some "pool" |};
  IPAddress := None; RuleIPAddress := None;
  IPProtocol := "TCP"; LoadBalancingScheme := None; Network := None;
  Subnetwork := subnetwork;
  BackendService := Some {| task.BackendService_Name := Some "backend" |};
  Region := "us-test1"; Labels := None; labelFingerprint := ""
|}.


(** The cloud after [plain "rule-a"] has been created, the rule as [Find]
    then sees it, and the changes that ask for the labels of
    [labelled "rule-a"] and nothing else. *)
Definition created : @Cloud sdk store :=
  snd (RenderGCE target None (plain "rule-a") (plain "rule-a")
         (start empty_store)).

Definition actual : ForwardingRule := {|
  Name := Some "rule-a"; Lifecycle := "Sync"; PortRange := None; Ports := None;
  TargetPool := None; IPAddress := None; RuleIPAddress := None;
  IPProtocol := "TCP"; LoadBalancingScheme := None; Network := None;
  Subnetwork := None; BackendService := None; Region := "";
  Labels := None; labelFingerprint := "fp"
|}.

Definition label_changes : ForwardingRule := {|
  Name := None; Lifecycle := ""; PortRange := None; Ports := None;
  TargetPool := None; IPAddress := None; RuleIPAddress := None;
  IPProtocol := ""; LoadBalancingScheme := None; Network := None;
  Subnetwork := None; BackendService := None; Region := "";
  Labels := Some {[ "env" := "prod" ]}; labelFingerprint := ""
|}.

End mockcompute.

(** A terraform writer and target, and a rule that refers to a reserved
    address. *)
Module mockterraform.

Import gcetasks gcetasks_rest.

(** A literal is the text of the reference. *)
#[export] Instance writer : TerraformWriter := {|
  Literal := string;
  LiteralFromStringValue := fun v => v;
  LiteralSelfLink := fun type name => (type ++ "." ++ name ++ ".self_link")%string;
  TargetPool_TerraformLink := fun tp =>
    ("google_compute_target_pool." ++ ValueOf (task.TargetPool_Name tp)
       ++ ".self_link")%string;
  Network_TerraformLink := fun n =>
    ("google_compute_network." ++ ValueOf (task.Network_Name n)
       ++ ".name")%string;
  Subnet_TerraformLink := fun sn =>
    ("google_compute_subnetwork." ++ ValueOf (task.Subnet_Name sn)
       ++ ".name")%string;
  BackendService_TerraformAddress := fun bs =>
    ("google_compute_backend_service." ++ ValueOf (task.BackendService_Name bs)
       ++ ".id")%string;
  Address_TerraformAddress := fun a =>
    ("google_compute_address." ++ ValueOf (task.Address_Name a)
       ++ ".address")%string
|}.

(** The target keeps what it is asked to render, by type and name, and
    turns down a resource it already has. *)
#[export] Instance files : TerraformTarget := {|
  TW := list (string * string * terraformForwardingRule);
  RenderResource := fun type name tf w =>
    if existsb (fun r => String.eqb (fst (fst r)) type
                         && String.eqb (snd (fst r)) name) w
    then (Some (Errorf "duplicate resource"), w)
    else (None, w ++ [(type, name, tf)])
|}.

(** A reserved address, the store that holds it, and a desired rule that
    refers to it by name only. *)
Definition reserved_address : task.Address :=
  {| task.Address_Name := Some "addr-1";
     task.Address_IPAddress := Some "10.0.0.7" |}.

Definition reserved : mockcompute.Store :=
  {| mockcompute.rule := None; mockcompute.addresses := [reserved_address] |}.

Definition by_reference : ForwardingRule := {|
  Name := Some "rule-d"; Lifecycle := "Sync"; PortRange := Some "443-443";
  Ports := None; TargetPool := None;
  IPAddress := Some {| task.Address_Name := Some "addr-1";
                       task.Address_IPAddress := None |};
  RuleIPAddress := None;
  IPProtocol := "TCP"; LoadBalancingScheme := None; Network := None;
  Subnetwork := None; BackendService := None; Region := "us-test1";
  Labels := None; labelFingerprint := ""
|}.

End mockterraform.

(* ===================================================================== *)
(** * Part II: properties                                                 *)
(* ===================================================================== *)

(** ** The retry loop and the log *)

Module RetryFacts.

(** The loop depends on the closure through its runs only. *)
Lemma retry_ext {St : Type} (c1 c2 : State St (bool * option error)) :
  (forall s, c1 s = c2 s) ->
  forall (n : nat) (last : option error) (s : St),
    vfs.retry n c1 last s = vfs.retry n c2 last s.
Proof.
  intros Heq n. induction n as [|n IH]; intros last s; [reflexivity|].
  cbn [vfs.retry]. unfold bind. rewrite Heq.
  destruct (c2 s) as [[done err] s1]. destruct done; [reflexivity|apply IH].
Qed.

Section Attempts.

Context {St Ev : Type}.

(** The closure under retry appends one event to the log, an event that
    satisfies [good], and what it returns is read off the error of that
    event by [cls]. *)
Variable getlog : St -> list Ev.
Variable err_of : Ev -> option error.
Variable good : Ev -> Prop.
Variable cls : option error -> bool * option error.
Variable cond : State St (bool * option error).

Hypothesis cond_logs : forall s, exists ev,
  getlog (snd (cond s)) = getlog s ++ [ev] /\ good ev /\
  fst (cond s) = cls (err_of ev).

(** The events of [n] attempts and the result they lead to: no attempt at
    all, or some attempts that asked for a retry and a last one that either
    is done or used up the attempts. *)
Inductive attempts (n : nat) (last : option error)
  : list Ev -> bool * option error -> Prop :=
| attempts_none : n = 0%nat -> attempts n last [] (false, last)
| attempts_some (pre : list Ev) (ev : Ev) :
    Forall (fun e => fst (cls (err_of e)) = false) pre ->
    (S (length pre) <= n)%nat ->
    (fst (cls (err_of ev)) = false -> S (length pre) = n) ->
    attempts n last (pre ++ [ev]) (cls (err_of ev)).

Lemma retry_attempts (n : nat) : forall (last : option error) (s : St),
  exists evs,
    getlog (snd (vfs.retry n cond last s)) = getlog s ++ evs /\
    Forall good evs /\
    attempts n last evs (fst (vfs.retry n cond last s)).
Proof.
  induction n as [|n IH]; intros last s.
  - exists []. cbn. rewrite app_nil_r. repeat split; [constructor|].
    now constructor.
  - destruct (cond_logs s) as (ev & Hlog & Hgood & Hres).
    cbn [vfs.retry]. unfold bind.
    destruct (cond s) as [[done err] s1] eqn:Hc. cbn [fst snd] in *.
    destruct done.
    + exists [ev]. cbn [ret fst snd]. repeat split; auto.
      rewrite Hres. apply (attempts_some (S n) last [] ev); cbn; auto.
      * lia.
      * rewrite <- Hres. discriminate.
    + destruct (IH err s1) as (evs & Hlog' & Hgood' & Hatt).
      inversion Hatt as [Hn Hevs Hr | pre ev' Hpre Hlen Hlast Hevs Hr].
      * exists [ev]. subst n. cbn in *. repeat split; auto.
        rewrite Hres. apply (attempts_some 1 last [] ev); cbn; auto.
      * exists ((ev :: pre) ++ [ev']). rewrite Hlog', Hlog, <- Hevs.
        rewrite <- app_assoc. repeat split; auto.
        -- rewrite <- Hevs in Hgood'. cbn. constructor; auto.
        -- apply (attempts_some (S n) last (ev :: pre) ev').
           ++ constructor; auto. now rewrite <- Hres.
           ++ cbn. lia.
           ++ intros H. cbn. f_equal. auto.
Qed.

End Attempts.

End RetryFacts.

(** ** The OpenStack load-balancer adapters *)

Module OpenstackSpec.

Import openstack.

Section MissingClient.

Context {sdk : SDK} {service : Service} {backoffs : Backoffs}.

(** C1, as amended.  When the load-balancer client is nil, every method
    returns at once, without a request and with the cloud untouched.  All
    methods but two return the error "loadbalancer support not available in
    this deployment"; [ListLBs] and [GetLBStats] return no error. *)
Theorem missing_client_returns_at_once
    (c : OpenstackCloud) (m : Method) (s : Cloud) :
  LoadBalancerClient c = None ->
  invoke c m s =
    (if tolerates_missing_client m then None else Some errNoLoadBalancer, s).
Proof.
  intros Hnil.
  destruct m; cbn [invoke tolerates_missing_client];
    unfold error_of, createPoolMonitor, listMonitors, deleteMonitor,
      deletePool, deleteListener, deleteLB, createLB, getLB, listLBs,
      getLBStats, getPool, getPoolMember, updateMemberInPool,
      associateToPool, createPool, listPoolMembers, listPools,
      listListeners, createListener;
    rewrite Hnil; reflexivity.
Qed.

End MissingClient.

Section Delete.

Context {sdk : SDK} {service : Service} {backoffs : Backoffs}.

(** What the retried closure of a delete method returns, given the error
    its request came back with. *)
Definition delete_class (format : string) (err : option error)
  : bool * option error :=
  match err with
  | Some e =>
      if negb (isNotFound err) then (false, Some (Errorv format e))
      else if isNotFound err then (true, None)
      else (false, None)
  | None => if isNotFound err then (true, None) else (false, None)
  end.

Definition delete_format (d : DeleteOp) : string :=
  match d with
  | OfMonitor _ => "error deleting pool: %v"
  | OfPool _ => "error deleting pool: %v"
  | OfListener _ => "error deleting listener: %v"
  | OfLB _ _ => "error deleting loadbalancer: %v"
  end.

Definition delete_cond (client : ServiceClient) (d : DeleteOp)
  : State Cloud (bool * option error) :=
  fun s =>
    let (r, s') := api (delete_call client d) s in
    (delete_class (delete_format d) (resp_err (delete_call client d) r), s').

(** The error the service has for a request in a given state. *)
Definition answer (call : Call) (w : W) : option error :=
  resp_err call (fst (handle call w)).

Lemma delete_class_done (format : string) (err : option error) :
  fst (delete_class format err) = isNotFound err.
Proof.
  unfold delete_class. destruct err as [e|]; destruct (isNotFound _); reflexivity.
Qed.

Lemma delete_class_not_found (format : string) (err : option error) :
  isNotFound err = true -> delete_class format err = (true, None).
Proof.
  intros H. unfold delete_class. destruct err as [e|]; rewrite H; reflexivity.
Qed.

Lemma delete_class_nil (format : string) : delete_class format None = (false, None).
Proof. reflexivity. Qed.

Lemma delete_unfold (c : OpenstackCloud) (client : ServiceClient)
    (d : DeleteOp) (s : Cloud) :
  LoadBalancerClient c = Some client ->
  delete c d s =
    (let (res, s') :=
       vfs.retry (Z.to_nat (wait.Steps deleteBackoff)) (delete_cond client d)
         None s in
     (return_err_first (fst res) (snd res), s')).
Proof.
  intros Hc.
  assert (Hret : forall (cond : State Cloud (bool * option error)),
    (forall s0, cond s0 = delete_cond client d s0) ->
    (let* (done, err) := vfs.RetryWithBackoff deleteBackoff cond in
     ret (return_err_first done err)) s =
    (let (res, s') :=
       vfs.retry (Z.to_nat (wait.Steps deleteBackoff)) (delete_cond client d)
         None s in
     (return_err_first (fst res) (snd res), s'))).
  { intros cond Hext. unfold bind, vfs.RetryWithBackoff.
    rewrite (RetryFacts.retry_ext _ _ Hext).
    destruct (vfs.retry _ _ _ _) as [[done err] s']. reflexivity. }
  destruct d; cbn [delete]; unfold deleteMonitor, deletePool, deleteListener,
    deleteLB; rewrite Hc; apply Hret; intros s0;
    unfold delete_cond, bind; cbn [delete_call delete_format];
    destruct (api _ s0) as [r s1]; cbn [resp_err];
    unfold delete_class; destruct r as [e|]; destruct (isNotFound _);
    reflexivity.
Qed.

Lemma delete_cond_logs (client : ServiceClient) (d : DeleteOp) (s : Cloud) :
  exists ev,
    log (snd (delete_cond client d s)) = log s ++ [ev] /\
    ev_call ev = delete_call client d /\
    fst (delete_cond client d s) = delete_class (delete_format d) (ev_err ev).
Proof.
  unfold delete_cond, api.
  destruct (handle (delete_call client d) (world s)) as [r w'].
  eexists. cbn. repeat split.
Qed.

Lemma delete_attempts (c : OpenstackCloud) (client : ServiceClient)
    (d : DeleteOp) (s : Cloud) :
  LoadBalancerClient c = Some client ->
  exists evs res,
    log (snd (delete c d s)) = log s ++ evs /\
    Forall (fun ev => ev_call ev = delete_call client d) evs /\
    RetryFacts.attempts ev_err (delete_class (delete_format d))
      (Z.to_nat (wait.Steps deleteBackoff)) None evs res /\
    fst (delete c d s) = return_err_first (fst res) (snd res).
Proof.
  intros Hc. rewrite (delete_unfold c client d s Hc).
  destruct (RetryFacts.retry_attempts log ev_err
              (fun ev => ev_call ev = delete_call client d)
              (delete_class (delete_format d)) (delete_cond client d)
              (delete_cond_logs client d)
              (Z.to_nat (wait.Steps deleteBackoff)) None s)
    as (evs & Hlog & Hgood & Hatt).
  destruct (vfs.retry _ _ _ _) as [res s'].
  exists evs, res. cbn [fst snd] in *. auto.
Qed.

(** C10, as amended.  A delete method returns nil only when its last
    attempt observed not-found, and a not-found ends the attempts.  An
    attempt that did not observe not-found, and so one whose request
    succeeded, is followed by another attempt unless it was the last one
    the policy allows.  When no attempt observed not-found the steps of
    the policy are used up and the method returns an error: the
    wait-timeout error when the request of the last attempt succeeded,
    and the error of that request, formatted into the message of the
    method, when it failed. *)
Theorem delete_returns_nil_only_on_not_found
    (c : OpenstackCloud) (client : ServiceClient) (d : DeleteOp) (s : Cloud) :
  LoadBalancerClient c = Some client ->
  exists evs : list Event,
    log (snd (delete c d s)) = log s ++ evs /\
    Forall (fun ev => ev_call ev = delete_call client d) evs /\
    (length evs <= Z.to_nat (wait.Steps deleteBackoff))%nat /\
    (fst (delete c d s) = None ->
     exists ev, last evs = Some ev /\ isNotFound (ev_err ev) = true) /\
    (forall (i : nat) (ev : Event),
       evs !! i = Some ev -> isNotFound (ev_err ev) = true ->
       S i = length evs /\ fst (delete c d s) = None) /\
    (forall (i : nat) (ev : Event),
       evs !! i = Some ev -> isNotFound (ev_err ev) = false ->
       (S i < length evs)%nat \/ S i = Z.to_nat (wait.Steps deleteBackoff)) /\
    (forall ev : Event,
       last evs = Some ev -> ev_err ev = None ->
       fst (delete c d s) = Some ErrWaitTimeout /\
       length evs = Z.to_nat (wait.Steps deleteBackoff)) /\
    (forall (ev : Event) (e : error),
       last evs = Some ev -> ev_err ev = Some e ->
       isNotFound (Some e) = false ->
       fst (delete c d s) = Some (Errorv (delete_format d) e) /\
       length evs = Z.to_nat (wait.Steps deleteBackoff)) /\
    (Forall (fun ev => isNotFound (ev_err ev) = false) evs ->
     length evs = Z.to_nat (wait.Steps deleteBackoff) /\
     fst (delete c d s) <> None).
Proof.
  intros Hc.
  destruct (delete_attempts c client d s Hc) as (evs & res & Hlog & Hgood & Hatt & Hres).
  exists evs. split; [exact Hlog|]. split; [exact Hgood|].
  inversion Hatt as [Hn Hevs Hr | pre ev Hpre Hlen Hlast Hevs Hr]; subst.
  - rewrite Hres. cbn. rewrite Hn.
    repeat split; try lia; try discriminate;
      intros i ev Hi; rewrite lookup_nil in Hi; discriminate Hi.
  - rewrite length_app. cbn [length]. split; [lia|].
    rewrite Hres, delete_class_done in *.
    assert (Hidx : forall i e, (pre ++ [ev]) !! i = Some e ->
              (i < length pre)%nat /\ pre !! i = Some e \/
              i = length pre /\ e = ev).
    { intros i e Hi. apply lookup_lt_Some in Hi as Hbound.
      rewrite length_app in Hbound. cbn in Hbound.
      destruct (Nat.lt_ge_cases i (length pre)) as [Hlt|Hge].
      - left. split; [exact Hlt|]. rewrite lookup_app_l in Hi by lia. exact Hi.
      - right. assert (i = length pre) as -> by lia.
        rewrite lookup_app_r, Nat.sub_diag in Hi by lia.
        injection Hi as <-. auto. }
    split; [|split; [|split; [|split; [|split]]]].
    + intros Hnil. exists ev. rewrite last_snoc. split; [reflexivity|].
      unfold return_err_first in Hnil.
      destruct (snd (delete_class (delete_format d) (ev_err ev))); [discriminate|].
      destruct (isNotFound (ev_err ev)); [reflexivity|discriminate].
    + intros i e Hi Hnf.
      destruct (Hidx i e Hi) as [[Hlt Hin] | [-> ->]].
      * exfalso. rewrite Forall_lookup in Hpre. specialize (Hpre i e Hin).
        cbn in Hpre. rewrite delete_class_done in Hpre. congruence.
      * split; [lia|]. rewrite (delete_class_not_found _ _ Hnf), Hnf. reflexivity.
    + intros i e Hi Hnf.
      destruct (Hidx i e Hi) as [[Hlt Hin] | [-> ->]]; [left; lia|].
      right. rewrite <- (Hlast Hnf). lia.
    + intros ev0 Hl Herr. rewrite last_snoc in Hl. injection Hl as <-.
      rewrite Herr in *. split; [reflexivity|].
      specialize (Hlast eq_refl). lia.
    + intros ev0 e Hl Herr Hnf. rewrite last_snoc in Hl. injection Hl as <-.
      rewrite Herr in *. specialize (Hlast Hnf). split; [|lia].
      unfold delete_class. rewrite Hnf. reflexivity.
    + intros Hall. apply Forall_app in Hall as [_ Hev].
      inversion Hev as [|? ? Hnf _]; subst. specialize (Hlast Hnf).
      split; [lia|].
      unfold delete_class, return_err_first.
      destruct (ev_err ev) as [e|]; rewrite Hnf; discriminate.
Qed.

Lemma delete_on_not_found (c : OpenstackCloud) (client : ServiceClient)
    (d : DeleteOp) (s : Cloud) :
  LoadBalancerClient c = Some client ->
  (0 < Z.to_nat (wait.Steps deleteBackoff))%nat ->
  isNotFound (answer (delete_call client d) (world s)) = true ->
  delete c d s =
    (None,
     {| world := snd (handle (delete_call client d) (world s));
        log := log s ++ [{| ev_call := delete_call client d;
                            ev_err := answer (delete_call client d) (world s) |}] |}).
Proof.
  intros Hc Hsteps Hnf. rewrite (delete_unfold c client d s Hc).
  destruct (Z.to_nat (wait.Steps deleteBackoff)) as [|n]; [lia|].
  cbn [vfs.retry]. unfold bind, delete_cond, api, answer in *.
  destruct (handle (delete_call client d) (world s)) as [r w'].
  cbn [fst snd] in *. rewrite (delete_class_not_found _ _ Hnf). reflexivity.
Qed.

Lemma delete_done_world (client : ServiceClient) (d : DeleteOp) (n : nat) :
  forall (last : option error) (s : Cloud),
    fst (fst (vfs.retry n (delete_cond client d) last s)) = true ->
    (0 < n)%nat /\
    snd (fst (vfs.retry n (delete_cond client d) last s)) = None /\
    exists w,
      isNotFound (answer (delete_call client d) w) = true /\
      world (snd (vfs.retry n (delete_cond client d) last s)) =
        snd (handle (delete_call client d) w).
Proof.
  induction n as [|n IH]; intros last s; [discriminate|].
  cbn [vfs.retry]. unfold bind.
  destruct (delete_cond client d s) as [[done err] s1] eqn:Hcond.
  unfold delete_cond, api in Hcond.
  destruct (handle (delete_call client d) (world s)) as [r w'] eqn:Hh.
  injection Hcond as Hclass Hs1.
  destruct done.
  - intros _. cbn [ret fst snd]. split; [lia|].
    assert (Hnf : isNotFound (resp_err (delete_call client d) r) = true).
    { rewrite <- delete_class_done with (format := delete_format d).
      now rewrite Hclass. }
    rewrite (delete_class_not_found _ _ Hnf) in Hclass.
    injection Hclass as <-. split; [reflexivity|].
    exists (world s). unfold answer. rewrite Hh. subst s1. auto.
  - intros Hdone. destruct (IH err s1 Hdone) as (_ & Herr & Hw).
    split; [lia|]. auto.
Qed.

Lemma delete_then_not_found (c : OpenstackCloud) (client : ServiceClient)
    (d : DeleteOp) (s : Cloud) :
  LoadBalancerClient c = Some client ->
  (1 < Z.to_nat (wait.Steps deleteBackoff))%nat ->
  answer (delete_call client d) (world s) = None ->
  isNotFound (answer (delete_call client d)
                (snd (handle (delete_call client d) (world s)))) = true ->
  fst (delete c d s) = None /\
  length (log (snd (delete c d s))) = S (S (length (log s))).
Proof.
  intros Hc Hsteps Hok Hnf. rewrite (delete_unfold c client d s Hc).
  destruct (Z.to_nat (wait.Steps deleteBackoff)) as [|[|n]]; [lia|lia|].
  cbn [vfs.retry]. unfold bind, delete_cond, api, answer in *.
  destruct (handle (delete_call client d) (world s)) as [r w1].
  cbn [fst snd world log] in *. rewrite Hok, delete_class_nil.
  cbn [fst snd world log].
  destruct (handle (delete_call client d) w1) as [r2 w2].
  cbn [fst snd world log] in *. rewrite (delete_class_not_found _ _ Hnf).
  cbn. split; [reflexivity|]. rewrite !length_app. cbn. lia.
Qed.

(** C7.  A not-found answer to the request of a delete method is success:
    the method returns nil after that one request.  So a second call on the
    same identifier returns nil whenever the first one did, on every
    service that goes on answering not-found once it has done so.  And the
    first call returns nil, after two requests, when the policy has two
    steps or more and the service accepts the request and then answers
    not-found. *)
Theorem delete_not_found_is_success
    (c : OpenstackCloud) (client : ServiceClient) (d : DeleteOp) (s : Cloud) :
  LoadBalancerClient c = Some client ->
  (0 < wait.Steps deleteBackoff ->
   isNotFound (answer (delete_call client d) (world s)) = true ->
   delete c d s =
     (None,
      {| world := snd (handle (delete_call client d) (world s));
         log := log s ++ [{| ev_call := delete_call client d;
                             ev_err := answer (delete_call client d) (world s) |}] |})) /\
  ((forall w : W,
      isNotFound (answer (delete_call client d) w) = true ->
      isNotFound (answer (delete_call client d)
                    (snd (handle (delete_call client d) w))) = true) ->
   fst (delete c d s) = None ->
   fst (delete c d (snd (delete c d s))) = None /\
   length (log (snd (delete c d (snd (delete c d s))))) =
     S (length (log (snd (delete c d s))))) /\
  (1 < wait.Steps deleteBackoff ->
   answer (delete_call client d) (world s) = None ->
   isNotFound (answer (delete_call client d)
                 (snd (handle (delete_call client d) (world s)))) = true ->
   fst (delete c d s) = None /\
   length (log (snd (delete c d s))) = S (S (length (log s)))).
Proof.
  intros Hc. split; [|split].
  3: { intros Hsteps. apply delete_then_not_found; [exact Hc|lia]. }
  - intros Hsteps. apply delete_on_not_found; [exact Hc|lia].
  - intros Hstable Hfirst.
    assert (Hgone : (0 < Z.to_nat (wait.Steps deleteBackoff))%nat /\
              isNotFound (answer (delete_call client d)
                            (world (snd (delete c d s)))) = true).
    { rewrite (delete_unfold c client d s Hc) in Hfirst |- *.
      pose proof (delete_done_world client d
                    (Z.to_nat (wait.Steps deleteBackoff)) None s) as Hdone.
      destruct (vfs.retry _ _ _ _) as [[done err] s1]. cbn [fst snd] in *.
      unfold return_err_first in Hfirst.
      destruct err; [discriminate|]. destruct done; [|discriminate].
      destruct (Hdone eq_refl) as (Hn & _ & w & Hnf & Hw).
      split; [exact Hn|]. rewrite Hw. now apply Hstable. }
    destruct Hgone as [Hn Hnf].
    rewrite (delete_on_not_found c client d _ Hc Hn Hnf). cbn [fst snd log].
    split; [reflexivity|]. rewrite length_app. cbn. lia.
Qed.

End Delete.

Section UpdateMember.

Context {sdk : SDK} {service : Service} {backoffs : Backoffs}.

Definition update_format : string := "failed to update pool membership: %v".

(** What the retried closure of [updateMemberInPool] returns, given the
    error its request came back with. *)
Definition update_class (err : option error) : bool * option error :=
  match err with
  | Some e =>
      if isNotFound err then (true, None)
      else if ResponseCodeIs err StatusConflict then (false, None)
      else (false, Some (Errorv update_format e))
  | None => (true, None)
  end.

Definition update_cond (client : ServiceClient) (poolID memberID : string)
    (opts : v2pools_UpdateMemberOptsBuilder)
  : State (option Member * Cloud) (bool * option error) :=
  fun s =>
    let (r, c') := api (v2pools_UpdateMember client poolID memberID opts) (snd s) in
    (update_class (snd r), (fst r, c')).

Lemma update_unfold (c : OpenstackCloud) (client : ServiceClient)
    (poolID memberID : string) (opts : v2pools_UpdateMemberOptsBuilder)
    (s : Cloud) :
  LoadBalancerClient c = Some client ->
  updateMemberInPool c poolID memberID opts s =
    (let (res, s') :=
       vfs.retry (Z.to_nat (wait.Steps memberBackoff))
         (update_cond client poolID memberID opts) None (None, s) in
     (return_unless_done (fst res) (snd res) (fst s'), snd s')).
Proof.
  intros Hc. unfold updateMemberInPool. rewrite Hc.
  unfold with_local, bind, vfs.RetryWithBackoff.
  rewrite (RetryFacts.retry_ext _ (update_cond client poolID memberID opts)).
  - destruct (vfs.retry _ _ _ _) as [[done err] [v c']]. reflexivity.
  - intros [v0 c0]. unfold update_cond, lift, bind, assign. cbn [fst snd].
    destruct (api _ c0) as [[v err] c1]. cbn [fst snd].
    unfold update_class, update_format.
    destruct err as [e|]; [|reflexivity].
    destruct (isNotFound _); [reflexivity|].
    destruct (ResponseCodeIs _ _); reflexivity.
Qed.

Lemma update_cond_logs (client : ServiceClient) (poolID memberID : string)
    (opts : v2pools_UpdateMemberOptsBuilder) (s : option Member * Cloud) :
  exists ev,
    log (snd (snd (update_cond client poolID memberID opts s))) =
      log (snd s) ++ [ev] /\
    ev_call ev = v2pools_UpdateMember client poolID memberID opts /\
    fst (update_cond client poolID memberID opts s) = update_class (ev_err ev).
Proof.
  unfold update_cond, api.
  destruct (handle _ (world (snd s))) as [r w'].
  eexists. cbn. repeat split.
Qed.

Lemma update_attempts (c : OpenstackCloud) (client : ServiceClient)
    (poolID memberID : string) (opts : v2pools_UpdateMemberOptsBuilder)
    (s : Cloud) :
  LoadBalancerClient c = Some client ->
  exists evs res,
    log (snd (updateMemberInPool c poolID memberID opts s)) = log s ++ evs /\
    Forall (fun ev =>
      ev_call ev = v2pools_UpdateMember client poolID memberID opts) evs /\
    RetryFacts.attempts ev_err update_class 10 None evs res /\
    snd (fst (updateMemberInPool c poolID memberID opts s)) =
      snd (return_unless_done (fst res) (snd res) tt).
Proof.
  intros Hc. rewrite (update_unfold c client poolID memberID opts s Hc).
  destruct (RetryFacts.retry_attempts (fun s => log (snd s)) ev_err
              (fun ev => ev_call ev =
                 v2pools_UpdateMember client poolID memberID opts)
              update_class (update_cond client poolID memberID opts)
              (update_cond_logs client poolID memberID opts)
              (Z.to_nat (wait.Steps memberBackoff)) None (None, s))
    as (evs & Hlog & Hgood & Hatt).
  destruct (vfs.retry _ _ _ _) as [res s'].
  exists evs, res. cbn [fst snd] in *. repeat split; auto.
  unfold return_unless_done. destruct (negb (fst res)); reflexivity.
Qed.

(** C6, as amended.  [updateMemberInPool] makes between one and ten
    attempts.  A not-found on the member is success.  A conflict (409) is
    never returned: it is retried, and when the last attempt still
    conflicts the wait-timeout error is returned.  Every other error is
    retried as well, and is returned, wrapped, only when the last attempt
    the policy allows fails with it. *)
Theorem updateMemberInPool_classifies_errors
    (c : OpenstackCloud) (client : ServiceClient) (poolID memberID : string)
    (opts : v2pools_UpdateMemberOptsBuilder) (s : Cloud) :
  LoadBalancerClient c = Some client ->
  exists evs : list Event,
    log (snd (updateMemberInPool c poolID memberID opts s)) = log s ++ evs /\
    Forall (fun ev =>
      ev_call ev = v2pools_UpdateMember client poolID memberID opts) evs /\
    (1 <= length evs <= 10)%nat /\
    (forall ev : Event,
       last evs = Some ev ->
       ev_err ev = None \/ isNotFound (ev_err ev) = true ->
       snd (fst (updateMemberInPool c poolID memberID opts s)) = None) /\
    (forall ev : Event,
       last evs = Some ev ->
       isNotFound (ev_err ev) = false ->
       ResponseCodeIs (ev_err ev) StatusConflict = true ->
       snd (fst (updateMemberInPool c poolID memberID opts s)) =
         Some ErrWaitTimeout /\
       length evs = 10%nat) /\
    (forall (ev : Event) (e : error),
       last evs = Some ev ->
       ev_err ev = Some e ->
       isNotFound (ev_err ev) = false ->
       ResponseCodeIs (ev_err ev) StatusConflict = false ->
       snd (fst (updateMemberInPool c poolID memberID opts s)) =
         Some (Errorv update_format e) /\
       length evs = 10%nat) /\
    (forall (i : nat) (ev : Event),
       evs !! i = Some ev ->
       ev_err ev <> None -> isNotFound (ev_err ev) = false ->
       (S i < length evs)%nat \/ S i = 10%nat).
Proof.
  intros Hc.
  destruct (update_attempts c client poolID memberID opts s Hc)
    as (evs & res & Hlog & Hgood & Hatt & Hres).
  exists evs. split; [exact Hlog|]. split; [exact Hgood|].
  rewrite Hres. clear Hres Hlog Hgood.
  inversion Hatt as [Hn Hevs Hr | pre ev Hpre Hlen Hlast Hevs Hr]; subst;
    [discriminate|].
  rewrite length_app. cbn [length]. split; [lia|].
  split; [|split; [|split]].
  - intros ev0 Hl Hok. rewrite last_snoc in Hl. injection Hl as <-.
    unfold update_class. destruct Hok as [-> | Hnf]; [reflexivity|].
    destruct (ev_err ev); [|reflexivity]. rewrite Hnf. reflexivity.
  - intros ev0 Hl Hnf Hconflict. rewrite last_snoc in Hl. injection Hl as <-.
    assert (Hclass : update_class (ev_err ev) = (false, None)).
    { unfold update_class. destruct (ev_err ev); [|discriminate].
      rewrite Hnf, Hconflict. reflexivity. }
    rewrite Hclass in *. split; [reflexivity|].
    specialize (Hlast eq_refl). lia.
  - intros ev0 e Hl Herr Hnf Hconflict. rewrite last_snoc in Hl.
    injection Hl as <-.
    assert (Hclass : update_class (ev_err ev) =
                       (false, Some (Errorv update_format e))).
    { unfold update_class. rewrite Herr in *. rewrite Hnf, Hconflict.
      reflexivity. }
    rewrite Hclass in *. split; [reflexivity|].
    specialize (Hlast eq_refl). lia.
  - intros i e Hi Hne Hnf.
    destruct (Nat.lt_ge_cases i (length pre)) as [Hlt|Hge]; [left; lia|].
    right. apply lookup_lt_Some in Hi as Hbound.
    rewrite length_app in Hbound. cbn in Hbound.
    assert (i = length pre) as -> by lia.
    rewrite lookup_app_r, Nat.sub_diag in Hi by lia.
    injection Hi as <-. apply Hlast.
    unfold update_class. destruct (ev_err ev); [|congruence].
    rewrite Hnf. destruct (ResponseCodeIs _ _); reflexivity.
Qed.

End UpdateMember.

Section Associate.

Context {sdk : SDK} {service : Service} {backoffs : Backoffs}.

Variable client : ServiceClient.
Variable server : Server.
Variable poolID : string.
Variable opts : v2pools_CreateMemberOpts.

(** The two requests of [associateToPool]. *)
Definition get_member : Call := v2pools_GetMember client poolID (ID server).

Definition create_member : Call := v2pools_CreateMember client poolID opts.

Definition associate_format : string := "failed to create pool association: %v".

(** The retried closure of [associateToPool], as a function of the
    state. *)
Definition associate_cond : State (option Member * Cloud) (bool * option error) :=
  fun s =>
    let (r, c1) := api get_member (snd s) in
    if notnil (snd r) || isnil (fst r) then
      let (r', c2) := api create_member c1 in
      (match snd r' with
       | Some e => (false, Some (Errorv associate_format e))
       | None => (true, None)
       end, (fst r', c2))
    else ((true, None), (fst r, c1)).

(** The membership is there: the fetch answers with a member and no
    error. *)
Definition found (w : W) : Prop :=
  exists (m : Member) (w' : W), handle get_member w = ((Some m, None), w').

Lemma associate_unfold (c : OpenstackCloud) (s : Cloud) :
  LoadBalancerClient c = Some client ->
  associateToPool c server poolID opts s =
    (let (res, s') :=
       vfs.retry (Z.to_nat (wait.Steps writeBackoff)) associate_cond None
         (None, s) in
     (return_unless_done (fst res) (snd res) (fst s'), snd s')).
Proof.
  intros Hc. unfold associateToPool. rewrite Hc.
  unfold with_local, bind, vfs.RetryWithBackoff.
  rewrite (RetryFacts.retry_ext _ associate_cond).
  - destruct (vfs.retry _ _ _ _) as [[done err] [v c']]. reflexivity.
  - intros [v0 c0].
    unfold associate_cond, get_member, create_member, lift, bind, assign.
    cbn [fst snd].
    destruct (api (v2pools_GetMember _ _ _) c0) as [[v err] c1].
    cbn [fst snd]. destruct (notnil err || isnil v); [|reflexivity].
    cbn [fst snd].
    destruct (api (v2pools_CreateMember _ _ _) c1) as [[v' err'] c2].
    cbn [fst snd]. destruct err'; reflexivity.
Qed.

Lemma associate_existing (c : OpenstackCloud) (s : Cloud) (m : Member) (w1 : W) :
  LoadBalancerClient c = Some client ->
  (0 < Z.to_nat (wait.Steps writeBackoff))%nat ->
  handle get_member (world s) = ((Some m, None), w1) ->
  associateToPool c server poolID opts s =
    ((Some m, None),
     {| world := w1;
        log := log s ++ [{| ev_call := get_member; ev_err := None |}] |}).
Proof.
  intros Hc Hsteps Hget. rewrite (associate_unfold c s Hc).
  destruct (Z.to_nat (wait.Steps writeBackoff)) as [|n]; [lia|].
  cbn [vfs.retry]. unfold bind, associate_cond, api. cbn [fst snd].
  rewrite Hget. reflexivity.
Qed.

Lemma associate_log_grows (n : nat) :
  forall (last : option error) (s : option Member * Cloud),
  exists rest,
    log (snd (snd (vfs.retry n associate_cond last s))) = log (snd s) ++ rest.
Proof.
  induction n as [|n IH]; intros last s.
  - exists []. cbn. now rewrite app_nil_r.
  - cbn [vfs.retry]. unfold bind.
    destruct (associate_cond s) as [[done err] s1] eqn:Hcond.
    assert (Hstep : exists evs, log (snd s1) = log (snd s) ++ evs).
    { unfold associate_cond, api in Hcond.
      destruct (handle get_member (world (snd s))) as [r w1].
      destruct (notnil (snd r) || isnil (fst r)).
      - cbn [world log] in Hcond.
        destruct (handle create_member w1) as [r' w2].
        apply (f_equal snd) in Hcond. cbn [snd] in Hcond. subst s1.
        cbn. rewrite <- app_assoc. eauto.
      - apply (f_equal snd) in Hcond. cbn [snd] in Hcond. subst s1.
        cbn. eauto. }
    destruct Hstep as [evs Hevs].
    destruct done.
    + exists evs. exact Hevs.
    + destruct (IH err s1) as [rest Hrest]. exists (evs ++ rest).
      rewrite Hrest, Hevs. now rewrite app_assoc.
Qed.

Lemma associate_absent (c : OpenstackCloud) (s : Cloud)
    (v : option Member) (err : option error) (w1 : W) :
  LoadBalancerClient c = Some client ->
  (0 < Z.to_nat (wait.Steps writeBackoff))%nat ->
  handle get_member (world s) = ((v, err), w1) ->
  err <> None \/ v = None ->
  (exists rest,
     log (snd (associateToPool c server poolID opts s)) =
       log s ++ [{| ev_call := get_member; ev_err := err |};
                 {| ev_call := create_member;
                    ev_err := snd (fst (handle create_member w1)) |}] ++ rest) /\
  (forall (v' : option Member) (w2 : W),
     handle create_member w1 = ((v', None), w2) ->
     associateToPool c server poolID opts s =
       ((v', None),
        {| world := w2;
           log := log s ++ [{| ev_call := get_member; ev_err := err |};
                            {| ev_call := create_member; ev_err := None |}] |})).
Proof.
  intros Hc Hsteps Hget Habsent. rewrite (associate_unfold c s Hc).
  destruct (Z.to_nat (wait.Steps writeBackoff)) as [|n]; [lia|].
  cbn [vfs.retry]. unfold bind, associate_cond at 1 3, api. cbn [fst snd].
  rewrite Hget. cbn [fst snd world log].
  assert (Htest : notnil err || isnil v = true).
  { destruct Habsent as [Herr | ->].
    - destruct err; [reflexivity|congruence].
    - apply orb_true_r. }
  rewrite Htest.
  destruct (handle create_member w1) as [[v' err'] w2]. cbn [fst snd].
  split.
  - destruct err' as [e|].
    + match goal with
      | |- context [vfs.retry n associate_cond ?l ?st] =>
          destruct (associate_log_grows n l st) as [rest Hrest];
          destruct (vfs.retry n associate_cond l st) as [res s']
      end.
      exists rest. cbn [fst snd log] in *. rewrite Hrest.
      now rewrite <- !app_assoc.
    + exists []. cbn. now rewrite <- app_assoc.
  - intros v'' w2' Heq. injection Heq as -> -> ->. cbn.
    now rewrite <- app_assoc.
Qed.

Lemma associate_done_found (n : nat) :
  (forall (w : W), found w -> found (snd (handle get_member w))) ->
  (forall (w : W), snd (fst (handle create_member w)) = None ->
     found (snd (handle create_member w))) ->
  forall (last : option error) (s : option Member * Cloud),
    fst (fst (vfs.retry n associate_cond last s)) = true ->
    (0 < n)%nat /\
    found (world (snd (snd (vfs.retry n associate_cond last s)))).
Proof.
  intros Hstays Hcreated.
  induction n as [|n IH]; intros last s; [discriminate|].
  cbn [vfs.retry]. unfold bind.
  destruct (associate_cond s) as [[done err] s1] eqn:Hcond.
  destruct done.
  - intros _. split; [lia|]. cbn [ret fst snd].
    unfold associate_cond, api in Hcond.
    destruct (handle get_member (world (snd s))) as [[v e] w1] eqn:Hget.
    cbn [fst snd world log] in Hcond.
    destruct (notnil e || isnil v) eqn:Htest.
    + destruct (handle create_member w1) as [[v' e'] w2] eqn:Hcreate.
      cbn [fst snd] in Hcond. destruct e'; [discriminate|].
      injection Hcond as _ <-. cbn.
      specialize (Hcreated w1). rewrite Hcreate in Hcreated. now apply Hcreated.
    + injection Hcond as _ <-. cbn.
      destruct e; [discriminate|]. destruct v as [m|]; [|discriminate].
      specialize (Hstays (world (snd s))). rewrite Hget in Hstays.
      apply Hstays. exists m, w1. exact Hget.
  - intros Hdone. destruct (IH err s1 Hdone) as [_ Hfound]. split; [lia|auto].
Qed.

(** C5.  [associateToPool] first fetches the membership of the server in
    the pool.  When the membership is there it is returned as it is, after
    that one request.  When the fetch fails or has no membership, the
    create request follows, and what it creates is returned.  So on a
    service that finds a membership again once it has found or created it,
    a second call after a first one that returned no error returns no
    error either, and makes the fetch request only: nothing is created a
    second time. *)
Theorem associateToPool_is_idempotent_upsert (c : OpenstackCloud) (s : Cloud) :
  LoadBalancerClient c = Some client ->
  (forall (m : Member) (w1 : W),
     0 < wait.Steps writeBackoff ->
     handle get_member (world s) = ((Some m, None), w1) ->
     associateToPool c server poolID opts s =
       ((Some m, None),
        {| world := w1;
           log := log s ++ [{| ev_call := get_member; ev_err := None |}] |})) /\
  (forall (v : option Member) (err : option error) (w1 : W),
     0 < wait.Steps writeBackoff ->
     handle get_member (world s) = ((v, err), w1) ->
     err <> None \/ v = None ->
     (exists rest,
        log (snd (associateToPool c server poolID opts s)) =
          log s ++ [{| ev_call := get_member; ev_err := err |};
                    {| ev_call := create_member;
                       ev_err := snd (fst (handle create_member w1)) |}]
                ++ rest) /\
     (forall (v' : option Member) (w2 : W),
        handle create_member w1 = ((v', None), w2) ->
        associateToPool c server poolID opts s =
          ((v', None),
           {| world := w2;
              log := log s ++ [{| ev_call := get_member; ev_err := err |};
                               {| ev_call := create_member; ev_err := None |}] |}))) /\
  ((forall w : W, found w -> found (snd (handle get_member w))) ->
   (forall w : W, snd (fst (handle create_member w)) = None ->
      found (snd (handle create_member w))) ->
   snd (fst (associateToPool c server poolID opts s)) = None ->
   let s1 := snd (associateToPool c server poolID opts s) in
   snd (fst (associateToPool c server poolID opts s1)) = None /\
   log (snd (associateToPool c server poolID opts s1)) =
     log s1 ++ [{| ev_call := get_member; ev_err := None |}]).
Proof.
  intros Hc. split; [|split].
  - intros m w1 Hsteps. apply associate_existing; [exact Hc|lia].
  - intros v err w1 Hsteps. apply associate_absent; [exact Hc|lia].
  - intros Hstays Hcreated Hfirst s1.
    assert (Hfound : (0 < Z.to_nat (wait.Steps writeBackoff))%nat /\
                     found (world s1)).
    { subst s1. rewrite (associate_unfold c s Hc) in Hfirst |- *.
      pose proof (associate_done_found (Z.to_nat (wait.Steps writeBackoff))
                    Hstays Hcreated None (None, s)) as Hdone.
      destruct (vfs.retry _ _ _ _) as [[done err] s']. cbn [fst snd] in *.
      unfold return_unless_done in Hfirst.
      destruct done; [|discriminate]. exact (Hdone eq_refl). }
    destruct Hfound as [Hn (m & w1 & Hget)].
    rewrite (associate_existing c s1 m w1 Hc Hn Hget). split; reflexivity.
Qed.

End Associate.

End OpenstackSpec.

(** ** Runs of the adapters on the in-memory services *)

Module OpenstackRuns.

Import openstack mockloadbalancer OpenstackSpec.

(** The methods that fail on a missing client do so on the scripted service
    too: [DeleteLB] is one of them. *)
Lemma missing_client_returns_at_once_witness :
  invoke without_lb (@DeleteLB sdk "lb-1" tt) (script []) =
  (Some errNoLoadBalancer, script []).
Proof.
  apply (missing_client_returns_at_once without_lb (@DeleteLB sdk "lb-1" tt)).
  reflexivity.
Defined.

(** C1 as stated does not hold: it is not so that every method answers a
    missing client with the error; [ListLBs] returns no error. *)
Lemma ListLBs_missing_client_no_error :
  ~ (forall (sdk : SDK) (service : Service) (backoffs : Backoffs)
       (c : OpenstackCloud) (m : Method) (s : Cloud),
        LoadBalancerClient c = None ->
        fst (invoke c m s) = Some errNoLoadBalancer).
Proof.
  intros Hall.
  specialize (Hall sdk scripted backoffs without_lb (@ListLBs sdk tt)
                (script []) eq_refl).
  discriminate Hall.
Qed.

(** On the store a monitor that is not there stays away. *)
Lemma store_monitor_stays_deleted (monitorID : string) (w : Store) :
  isNotFound (answer (service := store) (monitors_Delete tt monitorID) w) = true ->
  isNotFound (answer (service := store) (monitors_Delete tt monitorID)
                (snd (handle (Service := store) (monitors_Delete tt monitorID) w)))
    = true.
Proof.
  unfold answer. cbn.
  destruct (decide (monitorID ∈ monitors w)) as [Hin|Hout] eqn:Hdec; cbn.
  - discriminate.
  - intros _. rewrite Hdec. reflexivity.
Qed.

(** Deleting a monitor that is not in the store returns nil after one
    request, and deleting the monitor of [one_monitor] twice returns nil
    both times. *)
Lemma delete_not_found_is_success_witness :
  delete with_lb (OfMonitor "m1") (start empty_store) =
    (None,
     @Build_Cloud sdk store empty_store
       [{| ev_call := monitors_Delete tt "m1"; ev_err := not_found |}])
  /\ fst (delete with_lb (OfMonitor "m1") (start one_monitor)) = None
  /\ fst (delete with_lb (OfMonitor "m1")
            (snd (delete with_lb (OfMonitor "m1") (start one_monitor)))) = None.
Proof.
  split; [|split].
  - apply (delete_not_found_is_success (service := store) with_lb tt
             (OfMonitor "m1") (start empty_store) eq_refl).
    + reflexivity.
    + reflexivity.
  - apply (delete_not_found_is_success (service := store) with_lb tt
             (OfMonitor "m1") (start one_monitor) eq_refl).
    + reflexivity.
    + reflexivity.
    + vm_compute. reflexivity.
  - apply (delete_not_found_is_success (service := store) with_lb tt
             (OfMonitor "m1") (start one_monitor) eq_refl).
    + apply store_monitor_stays_deleted.
    + vm_compute. reflexivity.
Defined.

(** Deleting the monitor of [one_monitor] takes two requests: the first
    succeeds, the second observes not-found. *)
Lemma delete_returns_nil_only_on_not_found_witness :
  LoadBalancerClient with_lb = Some tt /\
  exists evs : list Event,
    log (snd (delete with_lb (OfMonitor "m1") (start one_monitor))) = evs /\
    (length evs <= 20)%nat /\
    (exists ev, last evs = Some ev /\ isNotFound (ev_err ev) = true).
Proof.
  split; [reflexivity|].
  destruct (delete_returns_nil_only_on_not_found (service := store) with_lb tt
              (OfMonitor "m1") (start one_monitor) eq_refl)
    as (evs & Hlog & _ & Hlen & Hnil & _).
  exists evs. split; [exact Hlog|]. split; [exact Hlen|].
  apply Hnil. vm_compute. reflexivity.
Defined.

(** C10 as stated does not hold: here the first request of [deleteLB]
    succeeds and the other nineteen fail with status 500.  The twenty
    steps of the policy are used up, no attempt has observed not-found,
    and the method returns the error of the last request, not the
    wait-timeout error. *)
Lemma deleteLB_exhausted_returns_last_error :
  map ev_err
    (log (snd (delete with_lb (OfLB "lb-1" tt)
                 (script (None :: replicate 19 (Some (StatusError 500))))))) =
    None :: replicate 19 (Some (StatusError 500))
  /\ Forall (fun ev => isNotFound (ev_err ev) = false)
       (log (snd (delete with_lb (OfLB "lb-1" tt)
                    (script (None :: replicate 19 (Some (StatusError 500)))))))
  /\ Z.of_nat
       (length (log (snd (delete with_lb (OfLB "lb-1" tt)
                            (script (None :: replicate 19
                                               (Some (StatusError 500))))))))
     = wait.Steps deleteBackoff
  /\ fst (delete with_lb (OfLB "lb-1" tt)
            (script (None :: replicate 19 (Some (StatusError 500))))) =
     Some (Errorv "error deleting loadbalancer: %v" (StatusError 500))
  /\ fst (delete with_lb (OfLB "lb-1" tt)
            (script (None :: replicate 19 (Some (StatusError 500))))) <>
     Some ErrWaitTimeout.
Proof.
  split; [vm_compute; reflexivity|].
  split; [vm_compute; repeat constructor|].
  split; [vm_compute; reflexivity|].
  split; [vm_compute; reflexivity|].
  vm_compute. discriminate.
Qed.

(** C6 as stated does not hold: an update error that is neither a
    not-found nor a conflict is not fatal.  Here the first attempt fails
    with status 500, the second attempt succeeds, and the method returns no
    error. *)
Lemma updateMemberInPool_retries_other_errors :
  map ev_err
    (log (snd (updateMemberInPool with_lb "pool-1" "member-1" tt
                 (script [Some (StatusError 500); None])))) =
    [Some (StatusError 500); None]
  /\ snd (fst (updateMemberInPool with_lb "pool-1" "member-1" tt
                 (script [Some (StatusError 500); None]))) = None.
Proof. split; vm_compute; reflexivity. Qed.

(** Ten conflicts in a row: ten attempts, then the wait-timeout error. *)
Lemma updateMemberInPool_classifies_errors_witness :
  LoadBalancerClient with_lb = Some tt /\
  exists evs : list Event,
    log (snd (updateMemberInPool with_lb "pool-1" "member-1" tt
                (script (replicate 10 (Some (StatusError StatusConflict))))))
      = evs /\
    (1 <= length evs <= 10)%nat /\
    snd (fst (updateMemberInPool with_lb "pool-1" "member-1" tt
                (script (replicate 10 (Some (StatusError StatusConflict))))))
      = Some ErrWaitTimeout.
Proof.
  split; [reflexivity|].
  destruct (updateMemberInPool_classifies_errors (service := scripted)
              with_lb tt "pool-1" "member-1" tt
              (script (replicate 10 (Some (StatusError StatusConflict))))
              eq_refl)
    as (evs & Hlog & _ & Hlen & _ & Hconflict & _).
  exists evs. split; [exact Hlog|]. split; [exact Hlen|].
  refine (proj1 (Hconflict
           {| ev_call := @v2pools_UpdateMember sdk tt "pool-1" "member-1" tt;
              ev_err := Some (StatusError StatusConflict) |} _ _ _)).
  - cbn in Hlog. rewrite <- Hlog. vm_compute. reflexivity.
  - reflexivity.
  - reflexivity.
Defined.

(** On the store a membership that is found is found again, and a
    membership created under the identifier of the server is found. *)
Lemma store_member_stays_found (server : Server) (poolID : string) (w : Store) :
  found (service := store) tt server poolID w ->
  found (service := store) tt server poolID
    (snd (handle (Service := store) (get_member tt server poolID) w)).
Proof.
  unfold found, get_member. cbn.
  destruct (decide ((poolID, ID server) ∈ members w)) as [Hin|Hout] eqn:Hdec;
    cbn.
  - intros _. exists (ID server), w. rewrite Hdec. reflexivity.
  - intros (m & w' & Heq). discriminate Heq.
Qed.

Lemma store_created_member_found (server : Server) (poolID : string) (w : Store) :
  found (service := store) tt server poolID
    (snd (handle (Service := store)
            (create_member tt poolID (ID server : @v2pools_CreateMemberOpts sdk)) w)).
Proof.
  unfold found, get_member, create_member. cbn.
  destruct (decide ((poolID, ID server) ∈ {[(poolID, ID server)]} ∪ members w))
    as [Hin|Hout].
  - eauto.
  - exfalso. apply Hout. set_solver.
Qed.

(** Associating the server "srv-1" with the pool "pool-1" of the empty
    store creates the membership; associating it again fetches it and
    creates nothing. *)
Lemma associateToPool_is_idempotent_upsert_witness :
  let associate :=
    associateToPool (service := store) with_lb {| ID := "srv-1" |} "pool-1"
      ("srv-1" : @v2pools_CreateMemberOpts sdk) in
  let s1 := snd (associate (start empty_store)) in
  map ev_call (log s1) =
    [v2pools_GetMember tt "pool-1" "srv-1";
     v2pools_CreateMember tt "pool-1" ("srv-1" : @v2pools_CreateMemberOpts sdk)]
  /\ snd (fst (associate s1)) = None
  /\ map ev_call (log (snd (associate s1))) =
       [v2pools_GetMember tt "pool-1" "srv-1";
        v2pools_CreateMember tt "pool-1" ("srv-1" : @v2pools_CreateMemberOpts sdk);
        v2pools_GetMember tt "pool-1" "srv-1"].
Proof.
  intros associate s1. split; [vm_compute; reflexivity|].
  destruct (associateToPool_is_idempotent_upsert (service := store) tt
              {| ID := "srv-1" |} "pool-1"
              ("srv-1" : @v2pools_CreateMemberOpts sdk)
              with_lb (start empty_store) eq_refl)
    as (_ & _ & Htwice).
  destruct (Htwice (store_member_stays_found _ _)
              (fun w _ => store_created_member_found {| ID := "srv-1" |} "pool-1" w))
    as [Hnil Hlog].
  - vm_compute. reflexivity.
  - split; [exact Hnil|].
    refine (eq_trans (f_equal (map ev_call) Hlog) _). vm_compute. reflexivity.
Defined.

End OpenstackRuns.

(** ** The forwarding-rule task *)

Module GceSpec.

Import gcetasks.

Lemma nonempty_true (s : string) : s <> "" -> nonempty s = true.
Proof. destruct s; [congruence|reflexivity]. Qed.

Lemma nonempty_false (s : string) : nonempty s = false -> s = "".
Proof. destruct s; [reflexivity|discriminate]. Qed.

(** The errors with which [request] turns a desired rule down. *)
Inductive request_error : error -> Prop :=
| err_both_targets :
    request_error
      (Errorf "cannot specify both %q and %q for forwarding rule target")
| err_address_lookup (err : error) :
    request_error (Errorv "error finding Address %q: %v" err)
| err_address_not_found : request_error (Errorf "Address %q was not found")
| err_address_without_ip : request_error (Errorf "Address had no IP: %v")
| err_both_addresses :
    request_error
      (Errorf "specified both IP Address and rule-managed IP address: %v, %v").

#[local] Hint Constructors request_error : core.

(** The method a request calls. *)
Inductive Kind : Type :=
| Get
| Insert
| SetLabels
| Wait
| LookupByIP
| Lookup.

Section Task.

Context {sdk : SDK} {service : Service}.

Definition kind (c : Call) : Kind :=
  match c with
  | ForwardingRules_Get _ _ _ => Get
  | ForwardingRules_Insert _ _ _ => Insert
  | ForwardingRules_SetLabels _ _ _ _ => SetLabels
  | WaitForOp _ => Wait
  | findAddressByIP _ _ => LookupByIP
  | Address_find _ _ => Lookup
  end.

(** The error the service has for a request in a given state. *)
Definition answer (call : Call) (w : W) : option error :=
  resp_err call (fst (handle call w)).

Definition is_insert (c : Call) : bool :=
  match c with
  | ForwardingRules_Insert _ _ _ => true
  | _ => false
  end.

Definition is_set_labels (c : Call) : bool :=
  match c with
  | ForwardingRules_SetLabels _ _ _ _ => true
  | _ => false
  end.

Definition is_address_find (c : Call) : bool :=
  match c with
  | Address_find _ _ => true
  | _ => false
  end.

(** Destructs what the goal branches on, one scrutinee at a time. *)
Ltac branch :=
  match goal with
  | |- context [match ?x with _ => _ end] =>
      match x with
      | context [match _ with _ => _ end] => fail 1
      | _ => destruct x eqn:?
      end
  end.

(** [request] makes at most one request, the lookup of the address, and
    ends in a request for the API, in one of its errors, or in a panic; it
    leaves [changes] alone. *)
Lemma request_outcome (t : gce.GCEAPITarget) (e changes : ForwardingRule)
    (s : Cloud) :
  (exists evs,
     log (snd (request t e changes s)) = log s ++ evs /\
     Forall (fun ev => is_address_find (ev_call ev) = true) evs) /\
  ((exists o, fst (request t e changes s) = inl o) \/
   (exists err, request_error err /\
      fst (request t e changes s) = inr (Returned (Some err), changes)) \/
   (fst (request t e changes s) = inr (Panicked, changes))).
Proof.
  unfold request, bind_body, bind, go_on, leave, ret, api.
  repeat (branch; cbn [fst snd log world] in *; try discriminate);
    repeat match goal with
           | H : (_, _) = (_, _) |- _ => injection H as ? ?; subst
           | H : inl _ = inl _ |- _ => injection H as ?; subst
           | H : inl _ = inr _ |- _ => discriminate H
           | H : inr _ = inl _ |- _ => discriminate H
           | H : inr _ = inr _ |- _ => injection H as ?; subst
           end;
    (split;
     [ first [ exists []; rewrite app_nil_r; split; [reflexivity|constructor]
             | eexists; split; [reflexivity|repeat constructor] ]
     | eauto 6 ]).
Qed.

Lemma RenderGCE_request_left (t : gce.GCEAPITarget) (a : option ForwardingRule)
    (e changes : ForwardingRule) (s s1 : Cloud) (r : exit * ForwardingRule) :
  request t e changes s = (inr r, s1) ->
  RenderGCE t a e changes s = (r, s1).
Proof.
  intros Hreq. unfold RenderGCE, run_body, bind_body, bind. rewrite Hreq.
  reflexivity.
Qed.

Lemma request_rejects_both_targets (t : gce.GCEAPITarget)
    (e changes : ForwardingRule) (s : Cloud)
    (tp : task.TargetPool) (bs : task.BackendService) :
  TargetPool e = Some tp -> BackendService e = Some bs ->
  TargetPool_URL tp (gce.Cloud t) <> "" ->
  exists err, fst (request t e changes s) = inr (Returned (Some err), changes).
Proof.
  intros Htp Hbs Hurl. unfold request, bind_body, bind, go_on, leave, ret.
  rewrite Htp, Hbs, (nonempty_true _ Hurl). cbn. eauto.
Qed.

Lemma request_rejects_both_addresses (t : gce.GCEAPITarget)
    (e changes : ForwardingRule) (s : Cloud)
    (address : task.Address) (ip : string) :
  IPAddress e = Some address -> RuleIPAddress e = Some ip ->
  exists err, fst (request t e changes s) = inr (Returned (Some err), changes).
Proof.
  intros Haddr Hip. unfold request, bind_body, bind, go_on, leave, ret, api.
  rewrite Haddr, Hip.
  repeat (branch; cbn [fst snd log world notnil isnil negb] in *;
          rewrite ?andb_true_r in *; try congruence);
    eauto.
Qed.

(** C3.  When the target pool and the backend service of the desired rule
    both resolve to a non-empty URL, and when the rule has both an address
    reference and a rule-managed IP address, [RenderGCE] returns an error,
    leaves [changes] as it is and makes no Insert request (the only
    request it can have made is the lookup of the address). *)
Theorem RenderGCE_rejects_conflicting_fields
    (t : gce.GCEAPITarget) (a : option ForwardingRule)
    (e changes : ForwardingRule) (s : Cloud) :
  (exists (tp : task.TargetPool) (bs : task.BackendService),
     TargetPool e = Some tp /\ BackendService e = Some bs /\
     TargetPool_URL tp (gce.Cloud t) <> "" /\
     BackendService_URL bs (gce.Cloud t) (Region e) <> "") \/
  (exists (address : task.Address) (ip : string),
     IPAddress e = Some address /\ RuleIPAddress e = Some ip) ->
  (exists err : error,
     fst (RenderGCE t a e changes s) = (Returned (Some err), changes)) /\
  (exists evs : list Event,
     log (snd (RenderGCE t a e changes s)) = log s ++ evs /\
     Forall (fun ev => is_insert (ev_call ev) = false) evs).
Proof.
  intros Hboth.
  assert (Hrej : exists err,
            fst (request t e changes s) = inr (Returned (Some err), changes)).
  { destruct Hboth as [(tp & bs & Htp & Hbs & Hurl & _)
                      | (address & ip & Haddr & Hip)].
    - exact (request_rejects_both_targets t e changes s tp bs Htp Hbs Hurl).
    - exact (request_rejects_both_addresses t e changes s address ip Haddr Hip). }
  destruct Hrej as [err Herr].
  destruct (request_outcome t e changes s) as [(evs & Hlog & Hevs) _].
  destruct (request t e changes s) as [r s1] eqn:Hreq. cbn [fst snd] in *.
  subst r. rewrite (RenderGCE_request_left t a e changes s s1 _ Hreq).
  cbn [fst snd]. split; [eauto|].
  exists evs. split; [exact Hlog|].
  eapply Forall_impl; [exact Hevs|]. intros ev Hfind. cbn in Hfind.
  destruct (ev_call ev); (reflexivity || discriminate).
Qed.



(** What [RenderGCE] does once [request] has assembled [o]. *)
Lemma run_request_built (t : gce.GCEAPITarget) (e changes : ForwardingRule)
    (s s1 : Cloud) (o : compute.ForwardingRule)
    (k : compute.ForwardingRule ->
         Body Cloud (exit * ForwardingRule) (exit * ForwardingRule)) :
  request t e changes s = (inl o, s1) ->
  run_body (let? o' := request t e changes in k o') s = run_body (k o) s1.
Proof.
  intros Hreq. unfold run_body, bind_body, bind. rewrite Hreq. reflexivity.
Qed.

(** The words of the claim on the changeset, field by field.
    [fully_consumed c]: every field of [c] is zero, a nil pointer, slice
    or map or an empty string.  [labels_cleared changes c]: [c] has no
    labels and is [changes] in every other field. *)
Definition fully_consumed (c : ForwardingRule) : Prop :=
  Name c = None /\ Lifecycle c = "" /\ PortRange c = None /\
  Ports c = None /\ TargetPool c = None /\ IPAddress c = None /\
  RuleIPAddress c = None /\ IPProtocol c = "" /\
  LoadBalancingScheme c = None /\ Network c = None /\
  Subnetwork c = None /\ BackendService c = None /\ Region c = "" /\
  Labels c = None /\ labelFingerprint c = "".

Definition labels_cleared (changes c : ForwardingRule) : Prop :=
  Labels c = None /\
  Name c = Name changes /\ Lifecycle c = Lifecycle changes /\
  PortRange c = PortRange changes /\ Ports c = Ports changes /\
  TargetPool c = TargetPool changes /\ IPAddress c = IPAddress changes /\
  RuleIPAddress c = RuleIPAddress changes /\
  IPProtocol c = IPProtocol changes /\
  LoadBalancingScheme c = LoadBalancingScheme changes /\
  Network c = Network changes /\ Subnetwork c = Subnetwork changes /\
  BackendService c = BackendService changes /\ Region c = Region changes /\
  labelFingerprint c = labelFingerprint changes.

Lemma isnil_true {A : Type} (x : option A) : isnil x = true <-> x = None.
Proof. destruct x; cbn; split; congruence. Qed.

Lemma empty_true (x : string) : negb (nonempty x) = true <-> x = "".
Proof. destruct x; cbn; split; congruence. Qed.

(** [DeepEqual_zero] holds of the changesets that are fully consumed, and
    of no other. *)
Lemma DeepEqual_zero_consumed (c : ForwardingRule) :
  DeepEqual_zero c = true <-> fully_consumed c.
Proof.
  unfold DeepEqual_zero, fully_consumed.
  rewrite !andb_true_iff, !isnil_true, !empty_true. tauto.
Qed.

(** [clear_Labels] clears the labels and nothing else. *)
Lemma clear_Labels_cleared (changes : ForwardingRule) :
  labels_cleared changes (clear_Labels changes).
Proof. unfold labels_cleared. cbn. repeat split. Qed.

(** C2.  On the update path, once the request is assembled.  When the
    changes carry labels: the first request is SetLabels with the
    fingerprint of the actual rule and the labels of the desired one, and
    no other SetLabels follows; when it is accepted, the wait for its
    operation follows and nothing else; when both succeed the changes are
    left with the labels cleared and every other field as it was, and the
    call returns nil if every field is then zero and the error "cannot
    apply changes" if one is not; when one of the two requests fails the
    call returns an error and the changes are as they were.  When the
    changes carry no labels nothing is requested, the changes are left as
    they are, and the call returns nil if every field is zero and the same
    error if one is not. *)
Theorem RenderGCE_update_applies_labels
    (t : gce.GCEAPITarget) (a e changes : ForwardingRule) (s s1 : Cloud)
    (o : compute.ForwardingRule) :
  request t e changes s = (inl o, s1) ->
  let setLabels :=
    ForwardingRules_SetLabels (gce.Project (gce.Cloud t)) (Region e)
      (compute.Name o)
      {| compute.req_LabelFingerprint := labelFingerprint a;
         compute.req_Labels := Labels e |} in
  let run := RenderGCE t (Some a) e changes s in
  let unconsumed :=
    Returned (Some (Errorf "cannot apply changes to ForwardingRule: %v")) in
  (Labels changes <> None ->
   exists evs : list Event,
     log (snd run) = log s1 ++ evs /\
     (exists rest,
        evs = {| ev_call := setLabels;
                 ev_err := answer setLabels (world s1) |} :: rest /\
        Forall (fun ev => is_set_labels (ev_call ev) = false) rest) /\
     (forall (op : Operation) (w2 : W),
        handle setLabels (world s1) = (Ok op, w2) ->
        evs = [{| ev_call := setLabels; ev_err := None |};
               {| ev_call := WaitForOp op;
                  ev_err := answer (WaitForOp op) w2 |}]) /\
     (Forall (fun ev => ev_err ev = None) evs ->
        labels_cleared changes (snd (fst run)) /\
        (fully_consumed (snd (fst run)) -> fst (fst run) = Returned None) /\
        (~ fully_consumed (snd (fst run)) -> fst (fst run) = unconsumed)) /\
     (forall ev : Event,
        ev ∈ evs -> ev_err ev <> None ->
        exists err, fst run = (Returned (Some err), changes))) /\
  (Labels changes = None ->
   snd run = s1 /\ snd (fst run) = changes /\
   (fully_consumed changes -> fst (fst run) = Returned None) /\
   (~ fully_consumed changes -> fst (fst run) = unconsumed)).
Proof.
  intros Hreq setLabels run unconsumed. subst run unconsumed.
  unfold RenderGCE.
  rewrite (run_request_built t e changes s s1 o _ Hreq).
  assert (Hcheck : forall c : ForwardingRule,
            (fully_consumed c ->
             (if DeepEqual_zero c then Returned None
              else Returned (Some (Errorf
                     "cannot apply changes to ForwardingRule: %v")))
             = Returned None) /\
            (~ fully_consumed c ->
             (if DeepEqual_zero c then Returned None
              else Returned (Some (Errorf
                     "cannot apply changes to ForwardingRule: %v")))
             = Returned (Some (Errorf
                 "cannot apply changes to ForwardingRule: %v")))).
  { intros c. pose proof (DeepEqual_zero_consumed c) as Hiff.
    destruct (DeepEqual_zero c); split; intros Hc; try reflexivity.
    - exfalso. apply Hc, Hiff. reflexivity.
    - apply Hiff in Hc. discriminate Hc. }
  split.
  2: { intros Hl. unfold run_body, bind_body, bind, go_on, leave, ret.
       rewrite Hl. cbn [fst snd].
       destruct (Hcheck changes) as [Hyes Hno].
       destruct (DeepEqual_zero changes); cbn [negb fst snd];
         repeat split; auto. }
  intros Hlabels.
  destruct (Labels changes) as [labels|] eqn:Hl; [clear Hlabels|congruence].
  unfold run_body, bind_body, bind, go_on, leave, ret, api.
  fold setLabels. unfold answer.
  destruct (handle setLabels (world s1)) as [[op|err] w2] eqn:Hset;
    cbn [fst snd log world resp_err result_err].
  - destruct (handle (WaitForOp op) w2) as [[err|] w3] eqn:Hwait;
      cbn [fst snd log world resp_err].
    + eexists. split; [rewrite <- app_assoc; reflexivity|].
      split; [eexists; split; [reflexivity|repeat constructor]|].
      split.
      { intros op' w2' Heq. injection Heq as <- <-. rewrite Hwait. reflexivity. }
      split.
      { intros Hall. inversion Hall as [|? ? _ Hrest]; subst.
        inversion Hrest as [|? ? Hw _]; subst. discriminate Hw. }
      intros ev _ _. eauto.
    + eexists. split.
      { destruct (negb (DeepEqual_zero (clear_Labels changes)));
          cbn [snd log]; rewrite <- app_assoc; reflexivity. }
      split; [eexists; split; [reflexivity|repeat constructor]|].
      split.
      { intros op' w2' Heq. injection Heq as <- <-. rewrite Hwait. reflexivity. }
      split.
      { intros _. destruct (Hcheck (clear_Labels changes)) as [Hyes Hno].
        pose proof (clear_Labels_cleared changes) as Hcleared.
        destruct (DeepEqual_zero (clear_Labels changes)); cbn [negb fst snd];
          repeat split; auto; apply Hcleared. }
      intros ev Hin Herr. exfalso. apply Herr.
      apply elem_of_cons in Hin as [-> | Hin]; [reflexivity|].
      apply elem_of_cons in Hin as [-> | Hin]; [reflexivity|].
      inversion Hin.
  - eexists. split; [reflexivity|].
    split; [eexists; split; [reflexivity|constructor]|].
    split; [intros op w2' Heq; discriminate Heq|].
    split.
    { intros Hall. inversion Hall as [|? ? Hw _]; subst. discriminate Hw. }
    intros ev _ _. eauto.
Qed.

(** The one request that [request] can make. *)
Lemma request_log_exact (t : gce.GCEAPITarget) (e changes : ForwardingRule)
    (s : Cloud) :
  snd (request t e changes s) = s \/
  exists (address : task.Address) (err : option error),
    IPAddress e = Some address /\
    nonempty (ValueOf (task.Address_IPAddress address)) = false /\
    log (snd (request t e changes s)) =
      log s ++ [{| ev_call := Address_find address (Region e); ev_err := err |}].
Proof.
  unfold request, bind_body, bind, go_on, leave, ret, api.
  repeat (branch; cbn [fst snd log world] in *; try congruence);
    eauto 6.
Qed.

(** C4.  On the create path, once the request is assembled; before that
    at most one request was made, the lookup of the address the rule
    refers to.  The requests are made in the order Insert, wait, and with
    desired labels Get, SetLabels, wait.  Each is made exactly when the one
    before it succeeded, and the call returns the error of the first that
    fails.  The wait is for the operation of the Insert; the Get reads the
    rule under its name; the SetLabels carries the fingerprint of the rule
    that the Get has just returned, together with the desired labels; the
    last wait is for the operation of the SetLabels.  Without desired
    labels the requests are Insert and wait only.  The changes are left as
    they are. *)
Theorem RenderGCE_create_call_sequence
    (t : gce.GCEAPITarget) (e changes : ForwardingRule) (s s1 : Cloud)
    (o : compute.ForwardingRule) :
  request t e changes s = (inl o, s1) ->
  let project := gce.Project (gce.Cloud t) in
  let insert := ForwardingRules_Insert project (Region e) o in
  let get := ForwardingRules_Get project (Region e) (ValueOf (Name e)) in
  let setLabels (r : compute.ForwardingRule) :=
    ForwardingRules_SetLabels project (Region e) (compute.Name o)
      {| compute.req_LabelFingerprint := compute.LabelFingerprint r;
         compute.req_Labels := Labels e |} in
  let run := RenderGCE t None e changes s in
  let calls := map ev_call in
  let returns (err : option error) := fst run = (Returned err, changes) in
  (exists pre : list Event,
     log s1 = log s ++ pre /\ (length pre <= 1)%nat /\
     Forall (fun ev => is_address_find (ev_call ev) = true) pre) /\
  exists evs : list Event,
    log (snd run) = log s1 ++ evs /\
    (forall (err : error) (w1 : W),
       handle insert (world s1) = (Failed err, w1) ->
       calls evs = [insert] /\
       returns (Some (Errorv "error creating ForwardingRule %q: %v" err))) /\
    (forall (op : Operation) (w1 : W),
       handle insert (world s1) = (Ok op, w1) ->
       (forall (err : error) (w2 : W),
          handle (WaitForOp op) w1 = (Some err, w2) ->
          calls evs = [insert; WaitForOp op] /\
          returns (Some (Errorv "error creating forwarding rule: %v" err))) /\
       (forall w2 : W,
          handle (WaitForOp op) w1 = (None, w2) ->
          (Labels e = None ->
           calls evs = [insert; WaitForOp op] /\ returns None) /\
          (Labels e <> None ->
           (forall (err : error) (w3 : W),
              handle get w2 = (Failed err, w3) ->
              calls evs = [insert; WaitForOp op; get] /\
              returns (Some (Errorv
                "reading created ForwardingRule %q: %v" err))) /\
           (forall (r : compute.ForwardingRule) (w3 : W),
              handle get w2 = (Ok r, w3) ->
              (forall (err : error) (w4 : W),
                 handle (setLabels r) w3 = (Failed err, w4) ->
                 calls evs = [insert; WaitForOp op; get; setLabels r] /\
                 returns (Some (Errorw
                   "setting ForwardingRule labels: %w" err))) /\
              (forall (op' : Operation) (w4 : W),
                 handle (setLabels r) w3 = (Ok op', w4) ->
                 calls evs =
                   [insert; WaitForOp op; get; setLabels r]
                   ++ [WaitForOp op'] /\
                 returns
                   (option_map (Errorw "setting ForwardRule labels: %w")
                      (fst (handle (WaitForOp op') w4)))))))).
Proof.
  intros Hreq project insert get setLabels run calls returns.
  split.
  { destruct (request_log_exact t e changes s)
      as [Hsame | (address & err & _ & _ & Hlog)];
      rewrite Hreq in *; cbn [snd] in *.
    - exists []. subst s1. rewrite app_nil_r. repeat split; auto.
    - eexists. split; [exact Hlog|]. split; [cbn; lia|].
      repeat constructor. }
  subst run calls returns. unfold RenderGCE.
  rewrite (run_request_built t e changes s s1 o _ Hreq).
  unfold run_body, bind_body, bind, go_on, leave, ret, api.
  fold project. fold insert.
  destruct (handle insert (world s1)) as [[op|err] w1] eqn:Hins;
    cbn [fst snd log world].
  2: { eexists. split; [reflexivity|].
       split; [|intros op w1' Heq; discriminate Heq].
       intros err' w1' Heq. injection Heq as <- <-. split; reflexivity. }
  destruct (handle (WaitForOp op) w1) as [[err|] w2] eqn:Hw1;
    cbn [fst snd log world].
  { eexists. split; [rewrite <- app_assoc; reflexivity|].
    split; [intros err' w1' Heq; discriminate Heq|].
    intros op0 w1' Heq. injection Heq as <- <-. rewrite Hw1.
    split; [|intros w2' Heq; discriminate Heq].
    intros err' w2' Heq. injection Heq as <- <-. split; reflexivity. }
  destruct (Labels e) as [labels|] eqn:Hlabels; cbn [fst snd log world].
  2: { eexists. split; [rewrite <- app_assoc; reflexivity|].
       split; [intros err' w1' Heq; discriminate Heq|].
       intros op0 w1' Heq. injection Heq as <- <-. rewrite Hw1.
       split; [intros err' w2' Heq; discriminate Heq|].
       intros w2' Heq. injection Heq as <-.
       split; [|congruence]. intros _. split; reflexivity. }
  fold get.
  destruct (handle get w2) as [[r|err] w3] eqn:Hget; cbn [fst snd log world].
  2: { eexists. split; [rewrite <- !app_assoc; reflexivity|].
       split; [intros err' w1' Heq; discriminate Heq|].
       intros op0 w1' Heq. injection Heq as <- <-. rewrite Hw1.
       split; [intros err' w2' Heq; discriminate Heq|].
       intros w2' Heq. injection Heq as <-.
       split; [discriminate|]. intros _. rewrite Hget.
       split; [|intros r w3' Heq; discriminate Heq].
       intros err' w3' Heq. injection Heq as <- <-. split; reflexivity. }
  change (ForwardingRules_SetLabels project (Region e) (compute.Name o)
            {| compute.req_LabelFingerprint := compute.LabelFingerprint r;
               compute.req_Labels := Some labels |})
    with (setLabels r).
  destruct (handle (setLabels r) w3) as [[op'|err] w4] eqn:Hset;
    cbn [fst snd log world].
  2: { eexists. split; [rewrite <- !app_assoc; reflexivity|].
       split; [intros err' w1' Heq; discriminate Heq|].
       intros op0 w1' Heq. injection Heq as <- <-. rewrite Hw1.
       split; [intros err' w2' Heq; discriminate Heq|].
       intros w2' Heq. injection Heq as <-.
       split; [discriminate|]. intros _. rewrite Hget.
       split; [intros err' w3' Heq; discriminate Heq|].
       intros r0 w3' Heq. injection Heq as <- <-. rewrite Hset.
       split; [|intros op' w4' Heq; discriminate Heq].
       intros err' w4' Heq. injection Heq as <- <-. split; reflexivity. }
  destruct (handle (WaitForOp op') w4) as [[err|] w5] eqn:Hw2;
    cbn [fst snd log world];
    (eexists; split; [rewrite <- !app_assoc; reflexivity|];
     split; [intros err' w1' Heq; discriminate Heq|];
     intros op0 w1' Heq; injection Heq as <- <-; rewrite Hw1;
     split; [intros err' w2' Heq; discriminate Heq|];
     intros w2' Heq; injection Heq as <-;
     split; [discriminate|]; intros _; rewrite Hget;
     split; [intros err' w3' Heq; discriminate Heq|];
     intros r0 w3' Heq; injection Heq as <- <-; rewrite Hset;
     split; [intros err' w4' Heq; discriminate Heq|];
     intros op0' w4' Heq; injection Heq as <- <-; rewrite Hw2;
     split; reflexivity).
Qed.

(** C8.  When the Get of the rule reports not-found, [Find] returns no rule
    and no error.  An error is returned, with no rule, only when the Get
    failed with something else or when the rule has an IP address whose
    reverse lookup failed; no rule and no error means that the Get
    reported not-found. *)
Theorem Find_not_found_is_nil_nil
    (cloud : gce.GCECloud) (e : ForwardingRule) (s : Cloud) :
  let get :=
    ForwardingRules_Get (gce.Project cloud) (gce.Region cloud)
      (ValueOf (Name e)) in
  (forall (err : error) (w1 : W),
     handle get (world s) = (Failed err, w1) ->
     gce.IsNotFound (Some err) = true ->
     Find cloud e s =
       ((None, None),
        {| world := w1;
           log := log s ++ [{| ev_call := get; ev_err := Some err |}] |})) /\
  (forall err' : error,
     snd (fst (Find cloud e s)) = Some err' ->
     fst (fst (Find cloud e s)) = None /\
     ((exists err,
         fst (handle get (world s)) = Failed err /\
         gce.IsNotFound (Some err) = false /\
         err' = Errorv "error getting ForwardingRule %q: %v" err) \/
      (exists r err,
         fst (handle get (world s)) = Ok r /\
         nonempty (compute.IPAddress r) = true /\
         answer (findAddressByIP (compute.IPAddress r) (gce.Region cloud))
           (snd (handle get (world s))) = Some err /\
         err' = Errorv "error finding Address with IP=%q: %v" err))) /\
  (fst (Find cloud e s) = (None, None) ->
   exists err,
     fst (handle get (world s)) = Failed err /\
     gce.IsNotFound (Some err) = true).
Proof.
  intros get. unfold Find, bind, ret, api, answer. fold get.
  destruct (handle get (world s)) as [[r|err] w1] eqn:Hget;
    cbn [fst snd log world].
  - split; [intros err w1' Heq; discriminate Heq|].
    destruct (nonempty (compute.IPAddress r)) eqn:Hip.
    + cbn [log world].
      destruct (handle (findAddressByIP (compute.IPAddress r) (gce.Region cloud)) w1)
        as [[address [err|]] w2] eqn:Hfind; cbn [fst snd resp_err].
      * split; [|discriminate]. intros err' Heq. injection Heq as <-.
        split; [reflexivity|]. right. exists r, err. rewrite Hfind. auto.
      * split; discriminate.
    + cbn [fst snd]. split; discriminate.
  - destruct (gce.IsNotFound (Some err)) eqn:Hnf; cbn [fst snd].
    + split; [|split].
      * intros err0 w1' Heq _. injection Heq as <- <-. reflexivity.
      * discriminate.
      * intros _. eauto.
    + split; [|split].
      * intros err0 w1' Heq Hnf'. injection Heq as <- <-. congruence.
      * intros err' Heq. injection Heq as <-. split; [reflexivity|].
        left. eauto.
      * discriminate.
Qed.

End Task.

End GceSpec.

(** ** Runs of the task on the in-memory compute service *)

Module GceRuns.

Import gcetasks mockcompute GceSpec.

(** [Find] sees the created rule as [actual]. *)
Lemma Find_created :
  fst (Find (gce.Cloud target) (plain "rule-a") created) = (Some actual, None).
Proof. vm_compute. reflexivity. Qed.

(** Updating the labels of the created rule: the SetLabels request carries
    the fingerprint "fp" of the actual rule.  With a port range among the
    changes and no labels, nothing is requested and the changes are left as
    they are. *)
Lemma RenderGCE_update_applies_labels_witness :
  (exists evs rest : list Event,
     log (snd (RenderGCE target (Some actual) (labelled "rule-a") label_changes
                 created)) = log created ++ evs /\
     evs =
       {| ev_call :=
            ForwardingRules_SetLabels "proj" "us-test1" "rule-a"
              {| compute.req_LabelFingerprint := "fp";
                 compute.req_Labels := Some {[ "env" := "prod" ]} |};
          ev_err := None |} :: rest) /\
  snd (RenderGCE target (Some actual) (plain "rule-a") (plain "rule-a") created)
    = created /\
  snd (fst (RenderGCE target (Some actual) (plain "rule-a") (plain "rule-a")
              created)) = plain "rule-a".
Proof.
  split.
  - destruct (RenderGCE_update_applies_labels (service := store) target actual
                (labelled "rule-a") label_changes created _ _ eq_refl)
      as [Hlabels _].
    destruct Hlabels as (evs & Hlog & (rest & Hevs & _) & _); [discriminate|].
    exists evs, rest. split; [exact Hlog|exact Hevs].
  - destruct (RenderGCE_update_applies_labels (service := store) target actual
                (plain "rule-a") (plain "rule-a") created _ _ eq_refl)
      as [_ Hnone].
    destruct (Hnone eq_refl) as (Hstate & Hchanges & _).
    split; [exact Hstate|exact Hchanges].
Defined.

(** A rule with a target pool and a backend service is turned down. *)
Lemma RenderGCE_rejects_conflicting_fields_witness :
  exists err : error,
    fst (RenderGCE target None (both_targets None) (both_targets None)
           (start empty_store)) =
    (Returned (Some err), both_targets None).
Proof.
  apply (RenderGCE_rejects_conflicting_fields (service := store) target None
           (both_targets None) (both_targets None) (start empty_store)).
  left. eexists. eexists.
  split; [reflexivity|]. split; [reflexivity|]. split; discriminate.
Defined.

(** Creating [labelled "rule-a"] on the empty store: the four requests and
    the last wait; the SetLabels request carries the fingerprint "fp" that
    the store gave the new rule, not the empty fingerprint of the desired
    rule; the call returns nil. *)
Lemma RenderGCE_create_call_sequence_witness :
  exists (evs : list Event) (o : compute.ForwardingRule),
    log (snd (RenderGCE target None (labelled "rule-a") (labelled "rule-a")
                (start empty_store))) = evs /\
    map ev_call evs =
      [ForwardingRules_Insert "proj" "us-test1" o;
       WaitForOp tt;
       ForwardingRules_Get "proj" "us-test1" "rule-a";
       ForwardingRules_SetLabels "proj" "us-test1" "rule-a"
         {| compute.req_LabelFingerprint := "fp";
            compute.req_Labels := Some {[ "env" := "prod" ]} |}]
      ++ [WaitForOp tt] /\
    fst (RenderGCE target None (labelled "rule-a") (labelled "rule-a")
           (start empty_store)) = (Returned None, labelled "rule-a").
Proof.
  destruct (RenderGCE_create_call_sequence (service := store) target
              (labelled "rule-a") (labelled "rule-a") (start empty_store)
              _ _ eq_refl)
    as (_ & evs & Hlog & _ & Hinserted).
  destruct (Hinserted tt _ eq_refl) as (_ & Hwaited).
  destruct (Hwaited _ eq_refl) as (_ & Hlabelled).
  destruct Hlabelled as (_ & Hread); [discriminate|].
  destruct (Hread _ _ eq_refl) as (_ & Hset).
  destruct (Hset tt _ eq_refl) as (Hcalls & Hreturns).
  exists evs. eexists. split; [exact Hlog|].
  split; [exact Hcalls|exact Hreturns].
Defined.

(** [Find] on the empty store: the Get reports not-found and [Find]
    returns no rule and no error. *)
Lemma Find_not_found_is_nil_nil_witness :
  fst (Find (gce.Cloud target) (plain "rule-a") (start empty_store)) =
  (None, None).
Proof.
  destruct (Find_not_found_is_nil_nil (service := store) (gce.Cloud target)
              (plain "rule-a") (start empty_store)) as (Hnf & _ & _).
  rewrite (Hnf (StatusError StatusNotFound) empty_store eq_refl eq_refl).
  reflexivity.
Defined.



End GceRuns.

(* ===================================================================== *)
(** * Part III: the rest of the two files                                 *)
(* ===================================================================== *)

(** ** More on the retry loop *)

Module RetryMore.

(** A loop that is done ended on an attempt that was done: the result and
    the final state are those of one run of the closure. *)
Lemma retry_done_last {St : Type} (cond : State St (bool * option error))
    (n : nat) :
  forall (last : option error) (s : St),
    fst (fst (vfs.retry n cond last s)) = true ->
    (0 < n)%nat /\
    exists s0 : St, cond s0 = vfs.retry n cond last s.
Proof.
  induction n as [|n IH]; intros last s; [discriminate|].
  cbn [vfs.retry]. unfold bind.
  destruct (cond s) as [[done err] s1] eqn:Hcond. destruct done.
  - intros _. split; [lia|]. exists s. exact Hcond.
  - intros Hdone. destruct (IH err s1 Hdone) as [_ Hlast]. split; [lia|auto].
Qed.

(** A loop that is not done has used up its attempts, and its error is
    that of the last attempt. *)
Lemma retry_not_done_last {St : Type} (cond : State St (bool * option error))
    (n : nat) :
  forall (last : option error) (s : St),
    fst (fst (vfs.retry n cond last s)) = false ->
    (n = 0%nat /\ vfs.retry n cond last s = ((false, last), s)) \/
    exists s0 : St, cond s0 = vfs.retry n cond last s.
Proof.
  induction n as [|n IH]; intros last s; [left; auto|].
  cbn [vfs.retry]. unfold bind.
  destruct (cond s) as [[done err] s1] eqn:Hcond. destruct done.
  - discriminate.
  - intros Hdone. right. destruct (IH err s1 Hdone) as [[-> Heq]|Hlast].
    + exists s. rewrite Hcond. cbn [vfs.retry]. reflexivity.
    + exact Hlast.
Qed.

Section Bounded.

Context {St Ev : Type}.

Variable getlog : St -> list Ev.
Variable good : Ev -> Prop.
Variable k : nat.
Variable cond : State St (bool * option error).

(** The closure appends at most [k] events, all of them [good]. *)
Hypothesis cond_logs : forall s, exists evs,
  getlog (snd (cond s)) = getlog s ++ evs /\ Forall good evs /\
  (length evs <= k)%nat.

Lemma retry_log_bounded (n : nat) : forall (last : option error) (s : St),
  exists evs,
    getlog (snd (vfs.retry n cond last s)) = getlog s ++ evs /\
    Forall good evs /\ (length evs <= n * k)%nat.
Proof.
  induction n as [|n IH]; intros last s.
  - exists []. cbn. rewrite app_nil_r. repeat split; [constructor|lia].
  - destruct (cond_logs s) as (evs & Hlog & Hgood & Hlen).
    cbn [vfs.retry]. unfold bind.
    destruct (cond s) as [[done err] s1]. cbn [fst snd] in *.
    destruct done.
    + exists evs. cbn [ret snd]. repeat split; auto. lia.
    + destruct (IH err s1) as (evs' & Hlog' & Hgood' & Hlen').
      exists (evs ++ evs'). rewrite Hlog', Hlog, app_assoc.
      repeat split; [apply Forall_app; auto|].
      rewrite length_app. lia.
Qed.

End Bounded.

End RetryMore.

(** ** The adapters that the claims leave out *)

Module OpenstackMore.

Import openstack OpenstackSpec.

Section Methods.

Context {sdk : SDK} {service : Service} {backoffs : Backoffs}.

(** The policy each method retries under, and the requests it can make, as
    the source has them.  [CreateListener] retries under the read
    policy. *)
Definition method_backoff (m : Method) : wait.Backoff :=
  match m with
  | CreatePoolMonitor _ | CreateLB _ | AssociateToPool _ _ _ | CreatePool _ =>
      writeBackoff
  | DeleteMonitor _ | DeletePool _ | DeleteListener _ | DeleteLB _ _ =>
      deleteBackoff
  | UpdateMemberInPool _ _ _ => memberBackoff
  | ListMonitors _ | GetLB _ | ListLBs _ | GetLBStats _ | GetPool _
  | GetPoolMember _ _ | ListPoolMembers _ _ | ListPools _ | ListListeners _
  | CreateListener _ => readBackoff
  end.

Definition method_calls (client : ServiceClient) (m : Method) : list Call :=
  match m with
  | CreatePoolMonitor opts => [monitors_Create client opts]
  | ListMonitors opts => [monitors_List client opts]
  | DeleteMonitor monitorID => [monitors_Delete client monitorID]
  | DeletePool poolID => [v2pools_Delete client poolID]
  | DeleteListener listenerID => [listeners_Delete client listenerID]
  | DeleteLB lbID opts => [loadbalancers_Delete client lbID opts]
  | CreateLB opt => [loadbalancers_Create client opt]
  | GetLB loadbalancerID => [loadbalancers_Get client loadbalancerID]
  | ListLBs opt => [loadbalancers_List client opt]
  | GetLBStats loadbalancerID => [loadbalancers_GetStats client loadbalancerID]
  | GetPool poolID => [v2pools_Get client poolID]
  | GetPoolMember poolID memberID => [v2pools_GetMember client poolID memberID]
  | UpdateMemberInPool poolID memberID opts =>
      [v2pools_UpdateMember client poolID memberID opts]
  | AssociateToPool server poolID opts =>
      [v2pools_GetMember client poolID (ID server);
       v2pools_CreateMember client poolID opts]
  | CreatePool opts => [v2pools_Create client opts]
  | ListPoolMembers poolID opts => [v2pools_ListMembers client poolID opts]
  | ListPools opts => [v2pools_List client opts]
  | ListListeners opts => [listeners_List client opts]
  | CreateListener opts => [listeners_Create client opts]
  end.

(** Splits on what the goal branches on, innermost scrutinee first. *)
Ltac split_match :=
  match goal with
  | |- context [match ?x with _ => _ end] =>
      match x with
      | context [match _ with _ => _ end] => fail 1
      | _ => destruct x
      end
  end.

(** One run of a closure appends its requests to the log. *)
Ltac closure_logs :=
  unfold lift, bind, assign, api, ret; cbn [fst snd];
  repeat (split_match; cbn [fst snd world log]);
  eexists;
  (split; [rewrite <- ?app_assoc; reflexivity|]);
  (split; [repeat constructor|cbn; lia]).

(** X1.  With a client, a method makes no request but its own, with the
    arguments it was called with, and no more of them than the steps of its
    policy allow: one request for each step, two for [AssociateToPool]. *)
Theorem method_requests_bounded
    (c : OpenstackCloud) (client : ServiceClient) (m : Method) (s : Cloud) :
  LoadBalancerClient c = Some client ->
  exists evs : list Event,
    log (snd (invoke c m s)) = log s ++ evs /\
    Forall (fun ev => ev_call ev ∈ method_calls client m) evs /\
    (length evs <=
       Z.to_nat (wait.Steps (method_backoff m)) * length (method_calls client m))%nat.
Proof.
  intros Hc.
  destruct m; cbn [invoke method_backoff];
    unfold error_of, createPoolMonitor, listMonitors, deleteMonitor,
      deletePool, deleteListener, deleteLB, createLB, getLB, listLBs,
      getLBStats, getPool, getPoolMember, updateMemberInPool,
      associateToPool, createPool, listPoolMembers, listPools,
      listListeners, createListener;
    rewrite Hc; unfold with_local, vfs.RetryWithBackoff.
  all: match goal with
       | |- context [vfs.retry ?n ?cond ?last] =>
           match goal with
           | |- context [Forall ?good] =>
               match goal with
               | |- context [(_ * ?k)%nat] =>
                   first
                     [ pose proof (fun step =>
                         RetryMore.retry_log_bounded (fun x => log (snd x))
                           good k cond step n last) as Hloop;
                       assert (forall s0, exists evs,
                                 log (snd (snd (cond s0))) = log (snd s0) ++ evs /\
                                 Forall good evs /\ (length evs <= k)%nat)
                         as Hstep by (intros [v0 c0]; closure_logs)
                     | pose proof (fun step =>
                         RetryMore.retry_log_bounded log good k cond step
                           n last) as Hloop;
                       assert (forall s0, exists evs,
                                 log (snd (cond s0)) = log s0 ++ evs /\
                                 Forall good evs /\ (length evs <= k)%nat)
                         as Hstep by (intros c0; closure_logs) ];
                   specialize (Hloop Hstep); clear Hstep;
                   let loop := fresh "loop" in
                   set (loop := vfs.retry n cond last) in *;
                   unfold bind, read, ret; cbn [fst snd];
                   match goal with
                   | |- context [loop ?st] =>
                       destruct (Hloop st) as (evs & Hlog & Hgood & Hlen);
                       destruct (loop st) as [[done err] st']
                   end
               end
           end
       end.
  all: exists evs; cbn [fst snd] in *; auto.
Qed.

(** *** The methods of one request: create and get *)

(** How such a method reports the error of its request: the create
    methods and [GetLBStats] format it into a new error, [GetLB],
    [GetPool] and [GetPoolMember] hand it on as it is. *)
Definition reported (m : Method) : option (error -> error) :=
  match m with
  | CreatePoolMonitor _ => Some (Errorv "failed to create pool monitor: %v")
  | CreateLB _ => Some (Errorv "error creating loadbalancer: %v")
  | CreatePool _ => Some (Errorv "failed to create pool: %v")
  | CreateListener _ => Some (Errorv "unabled to create listener: %v")
  | GetLBStats _ => Some (Errorv "Error getting load balancer stats %v")
  | GetLB _ | GetPool _ | GetPoolMember _ _ => Some (fun e => e)
  | _ => None
  end.

(** What the closure of such a method returns for the error of its
    request. *)
Definition report_class (wrap : error -> error) (err : option error)
  : bool * option error :=
  match err with
  | Some e => (false, Some (wrap e))
  | None => (true, None)
  end.

(** One run of such a closure appends one request to the log and returns
    what [report_class] says. *)
Ltac closure_reports :=
  unfold lift, bind, assign, api, ret; cbn [fst snd];
  repeat (split_match; cbn [fst snd world log]);
  eexists;
  (split; [reflexivity|]);
  (split; [repeat constructor|reflexivity]).

Lemma report_attempts (wrap : error -> error) (n : nat)
    (evs : list Event) (res : bool * option error) :
  (0 < n)%nat ->
  RetryFacts.attempts ev_err (report_class wrap) n None evs res ->
  exists (pre : list Event) (ev : Event),
    evs = pre ++ [ev] /\
    Forall (fun e => ev_err e <> None) pre /\
    res = report_class wrap (ev_err ev) /\
    (ev_err ev <> None -> length evs = n).
Proof.
  intros Hn Hatt.
  inversion Hatt as [Hz Hevs Hres | pre ev Hpre Hlen Hlast Hevs Hres]; [lia|].
  exists pre, ev. split; [reflexivity|]. split.
  - eapply Forall_impl; [exact Hpre|]. intros e He. cbn beta in He.
    destruct (ev_err e); [discriminate|discriminate He].
  - split; [reflexivity|]. intros Herr. rewrite length_app. cbn.
    rewrite <- Hlast; [lia|].
    destruct (ev_err ev) eqn:Heq; [reflexivity|congruence].
Qed.

Lemma single_request_last
    (c : OpenstackCloud) (client : ServiceClient) (m : Method) (s : Cloud)
    (wrap : error -> error) :
  LoadBalancerClient c = Some client ->
  reported m = Some wrap ->
  (0 < Z.to_nat (wait.Steps (method_backoff m)))%nat ->
  exists (pre : list Event) (ev : Event),
    log (snd (invoke c m s)) = log s ++ pre ++ [ev] /\
    Forall (fun e => ev_err e <> None) pre /\
    fst (invoke c m s) = option_map wrap (ev_err ev) /\
    (ev_err ev <> None ->
     length (pre ++ [ev]) = Z.to_nat (wait.Steps (method_backoff m))).
Proof.
  intros Hc Hrep Hsteps.
  destruct m; cbn [reported] in Hrep; try discriminate Hrep;
    injection Hrep as <-; cbn [invoke method_backoff] in *;
    unfold error_of, createPoolMonitor, createLB, getLB, getLBStats, getPool,
      getPoolMember, createPool, createListener;
    rewrite Hc; unfold with_local, vfs.RetryWithBackoff.
  all: match goal with
       | |- context [vfs.retry ?n ?cond ?last] =>
           match goal with
           | |- context [option_map ?wrap] =>
               assert (forall s0, exists ev,
                         log (snd (snd (cond s0))) = log (snd s0) ++ [ev] /\
                         True /\
                         fst (cond s0) = report_class wrap (ev_err ev))
                 as Hstep by (intros [v0 c0]; closure_reports);
               pose proof (RetryFacts.retry_attempts (fun x => log (snd x))
                             ev_err (fun _ => True) (report_class wrap) cond
                             Hstep n last) as Hloop;
               clear Hstep;
               let loop := fresh "loop" in
               set (loop := vfs.retry n cond last) in *;
               unfold bind, read, ret; cbn [fst snd];
               match goal with
               | |- context [loop ?st] =>
                   destruct (Hloop st) as (evs & Hlog & _ & Hatt);
                   destruct (loop st) as [[done err] st'];
                   destruct (report_attempts wrap n evs (done, err) Hsteps Hatt)
                     as (pre & ev & -> & Hpre & Hres & Hlen)
               end
           end
       end.
  all: exists pre, ev; cbn [fst snd] in *;
    (split; [exact Hlog|]); (split; [exact Hpre|]); (split; [|exact Hlen]);
    unfold report_class in Hres; destruct (ev_err ev);
    injection Hres as -> ->; reflexivity.
Qed.

(** The format of the methods that wrap the error, and the three methods
    that hand it on. *)
Definition error_format (m : Method) : option string :=
  match m with
  | CreatePoolMonitor _ => Some "failed to create pool monitor: %v"
  | CreateLB _ => Some "error creating loadbalancer: %v"
  | CreatePool _ => Some "failed to create pool: %v"
  | CreateListener _ => Some "unabled to create listener: %v"
  | GetLBStats _ => Some "Error getting load balancer stats %v"
  | _ => None
  end.

Definition hands_error_on (m : Method) : bool :=
  match m with
  | GetLB _ | GetPool _ | GetPoolMember _ _ => true
  | _ => false
  end.

(** X2.  [CreatePoolMonitor], [CreateLB], [CreatePool], [CreateListener]
    and [GetLBStats], with a client and a policy of one step or more,
    make at least one request and retry after every failure.  They return
    nil when the last request succeeded; when it failed they have used
    every step and return its error formatted into a message, so the
    status of the response is lost: the result is never a not-found and
    never the wait-timeout error. *)
Theorem wrapping_methods_return_last_error
    (c : OpenstackCloud) (client : ServiceClient) (m : Method) (s : Cloud)
    (format : string) :
  LoadBalancerClient c = Some client ->
  error_format m = Some format ->
  0 < wait.Steps (method_backoff m) ->
  (exists (pre : list Event) (ev : Event),
     log (snd (invoke c m s)) = log s ++ pre ++ [ev] /\
     Forall (fun e => ev_err e <> None) pre /\
     fst (invoke c m s) = option_map (Errorv format) (ev_err ev) /\
     (ev_err ev <> None ->
      length (pre ++ [ev]) = Z.to_nat (wait.Steps (method_backoff m)))) /\
  isNotFound (fst (invoke c m s)) = false /\
  fst (invoke c m s) <> Some ErrWaitTimeout.
Proof.
  intros Hc Hfmt Hsteps.
  assert (Hrep : reported m = Some (Errorv format)).
  { destruct m; cbn in Hfmt; try discriminate Hfmt;
      injection Hfmt as <-; reflexivity. }
  destruct (single_request_last c client m s _ Hc Hrep ltac:(lia))
    as (pre & ev & Hlog & Hpre & Hres & Hlen).
  split; [exists pre, ev; auto|].
  rewrite Hres. destruct (ev_err ev); cbn; split; (reflexivity || discriminate).
Qed.

(** X3.  [GetLB], [GetPool] and [GetPoolMember], with a client and a policy
    of one step or more, return the error of their last request as it is,
    so a not-found stays a not-found for the caller.  A failed request is
    retried whatever its error: a get that returns an error, a not-found
    included, has used every step. *)
Theorem get_methods_return_last_error
    (c : OpenstackCloud) (client : ServiceClient) (m : Method) (s : Cloud) :
  LoadBalancerClient c = Some client ->
  hands_error_on m = true ->
  0 < wait.Steps readBackoff ->
  exists (pre : list Event) (ev : Event),
    log (snd (invoke c m s)) = log s ++ pre ++ [ev] /\
    Forall (fun e => ev_err e <> None) pre /\
    fst (invoke c m s) = ev_err ev /\
    (fst (invoke c m s) <> None ->
     length (pre ++ [ev]) = Z.to_nat (wait.Steps readBackoff)).
Proof.
  intros Hc Hget Hsteps.
  assert (Hrep : reported m = Some (fun e => e) /\ method_backoff m = readBackoff).
  { destruct m; cbn in Hget; try discriminate Hget; split; reflexivity. }
  destruct Hrep as [Hrep Hpolicy].
  destruct (single_request_last c client m s _ Hc Hrep
              ltac:(rewrite Hpolicy; lia))
    as (pre & ev & Hlog & Hpre & Hres & Hlen).
  exists pre, ev. rewrite Hpolicy in Hlen.
  assert (Herr : fst (invoke c m s) = ev_err ev).
  { rewrite Hres. destruct (ev_err ev); reflexivity. }
  rewrite Herr. auto.
Qed.

(** The loop of [createLB] leaves the variable [i] nil until an attempt
    succeeds. *)
Lemma createLB_value_only_when_done (client : ServiceClient)
    (opt : loadbalancers_CreateOptsBuilder)
    (cond : State (option LoadBalancer * Cloud) (bool * option error)) :
  (forall s0, cond s0 =
     (let* (v, err) := lift (api (loadbalancers_Create client opt)) in
      match err with
      | Some e => ret (false, Some (Errorv "error creating loadbalancer: %v" e))
      | None => assign v ;;; ret (true, None)
      end) s0) ->
  forall (n : nat) (last : option error) (c0 : Cloud),
    fst (snd (vfs.retry n cond last (None, c0))) <> None ->
    fst (vfs.retry n cond last (None, c0)) = (true, None).
Proof.
  intros Hcond n. induction n as [|n IH]; intros last c0.
  - cbn. congruence.
  - cbn [vfs.retry]. unfold bind at 1 2.
    destruct (cond (None, c0)) as [[done err] s1] eqn:Hrun.
    rewrite Hcond in Hrun. unfold lift, bind, assign, api, ret in Hrun.
    cbn [fst snd] in Hrun.
    destruct (handle (loadbalancers_Create client opt) (world c0))
      as [[v [e|]] w]; injection Hrun as <- <- <-.
    + apply IH.
    + intros _. reflexivity.
Qed.

(** X4.  [createLB] returns a load balancer only together with a nil
    error: the object of a failed attempt is never handed to the caller. *)
Theorem createLB_object_only_on_success
    (c : OpenstackCloud) (opt : loadbalancers_CreateOptsBuilder) (s : Cloud) :
  fst (fst (createLB c opt s)) <> None ->
  snd (fst (createLB c opt s)) = None.
Proof.
  unfold createLB. destruct (LoadBalancerClient c) as [client|];
    [|cbn; congruence].
  unfold with_local, vfs.RetryWithBackoff.
  match goal with
  | |- context [vfs.retry ?n ?cond ?last] =>
      pose proof (createLB_value_only_when_done client opt cond
                    (fun s0 => eq_refl) n last s) as Hloop;
      set (loop := vfs.retry n cond last) in *
  end.
  unfold bind, read, ret. cbn [fst snd].
  destruct (loop (None, s)) as [[done err] [i s']]. cbn [fst snd] in *.
  intros Hi. specialize (Hloop Hi). injection Hloop as -> ->. reflexivity.
Qed.

(** *** The listings *)

(** The retried closure of a listing, as a function of the state: the
    request for all pages, then the decoding of the page. *)
Definition list_cond {V : Type} (call : Call)
    (page_of : Resp call -> Page * option error)
    (extract : Page -> list V * option error) (format1 format2 : string)
  : State (list V * Cloud) (bool * option error) :=
  fun s =>
    let (r, c1) := api call (snd s) in
    match snd (page_of r) with
    | Some e => ((false, Some (Errorv format1 e)), (fst s, c1))
    | None =>
        let (l, err) := extract (fst (page_of r)) in
        (match err with
         | Some e => (false, Some (Errorv format2 e))
         | None => (true, None)
         end, (l, c1))
    end.

(** A run of a listing that ends without error returns the decoding of
    the page of its last request: that request and the decoding both went
    without error. *)
Definition decodes_last_page {V : Type} (call : Call)
    (page_of : Resp call -> Page * option error)
    (extract : Page -> list V * option error)
    (run : (list V * option error) * Cloud) : Prop :=
  snd (fst run) = None ->
  exists (w : W) (page : Page),
    page_of (fst (handle call w)) = (page, None) /\
    extract page = (fst (fst run), None) /\
    world (snd run) = snd (handle call w).

Lemma list_adapter_decodes {V : Type} (call : Call)
    (page_of : Resp call -> Page * option error)
    (extract : Page -> list V * option error) (format1 format2 : string)
    (cond : State (list V * Cloud) (bool * option error))
    (backoff : wait.Backoff) (init : list V) (s : Cloud) :
  (forall s0, cond s0 = list_cond call page_of extract format1 format2 s0) ->
  decodes_last_page call page_of extract
    (with_local init
       (let* (done, err) := vfs.RetryWithBackoff backoff cond in
        let* l := read in
        ret (return_unless_done done err l)) s).
Proof.
  intros Hext. unfold decodes_last_page, with_local, vfs.RetryWithBackoff.
  pose proof (RetryMore.retry_done_last cond
                (Z.to_nat (wait.Steps backoff)) None (init, s)) as Hlast.
  set (loop := vfs.retry (Z.to_nat (wait.Steps backoff)) cond None) in *.
  unfold bind, read, ret, return_unless_done. cbn [fst snd].
  destruct (loop (init, s)) as [[done err] [l s']]. cbn [fst snd] in *.
  destruct done; [|discriminate]. intros _.
  destruct (Hlast eq_refl) as (_ & s0 & Hrun).
  rewrite Hext in Hrun. unfold list_cond, api in Hrun.
  destruct (handle call (world (snd s0))) as [r w'] eqn:Hh.
  destruct (page_of r) as [page perr] eqn:Hpage. cbn [fst snd] in Hrun.
  destruct perr; [discriminate|].
  destruct (extract page) as [l0 xerr] eqn:Hx.
  destruct xerr; [discriminate|]. injection Hrun as _ <- <-.
  exists (world (snd s0)), page. rewrite Hh. cbn. auto.
Qed.

(** Shows that the closure of a listing is [list_cond]. *)
Ltac closure_lists :=
  intros [v0 c0]; unfold list_cond, lift, bind, assign, ret; cbn [fst snd];
  destruct (api _ c0) as [[page perr] c1]; cbn [fst snd];
  destruct perr; [reflexivity|];
  match goal with
  | |- context [let (_, _) := ?x in _] => destruct x as [l [xerr|]]
  end; reflexivity.

(** X5.  Each of the five listings, when it returns a nil error, returns
    the decoding of the page of its last request; neither that request nor
    the decoding had an error, and no later request moved the service. *)
Theorem listings_return_decoded_last_page
    (c : OpenstackCloud) (client : ServiceClient) (s : Cloud) :
  LoadBalancerClient c = Some client ->
  (forall opts,
     decodes_last_page (monitors_List client opts) (fun r => r)
       monitors_ExtractMonitors (listMonitors c opts s)) /\
  (forall opt,
     decodes_last_page (loadbalancers_List client opt) (fun r => r)
       loadbalancers_ExtractLoadBalancers (listLBs c opt s)) /\
  (forall poolID opts,
     decodes_last_page (v2pools_ListMembers client poolID opts) (fun r => r)
       v2pools_ExtractMembers (listPoolMembers c poolID opts s)) /\
  (forall opts,
     decodes_last_page (v2pools_List client opts) (fun r => r)
       v2pools_ExtractPools (listPools c opts s)) /\
  (forall opts,
     decodes_last_page (listeners_List client opts) (fun r => r)
       listeners_ExtractListeners (listListeners c opts s)).
Proof.
  intros Hc.
  repeat split; intros;
    unfold listMonitors, listLBs, listPoolMembers, listPools, listListeners;
    rewrite Hc;
    eapply list_adapter_decodes; closure_lists.
Qed.

(** *** The third outcome of a delete, and the errors of
        [associateToPool] *)

(** X6.  A delete method that returns an error other than the
    wait-timeout has used every step of its policy, and the error is that
    of its last request, which was not a not-found, formatted into the
    message of the method. *)
Theorem delete_returns_last_error
    (c : OpenstackCloud) (client : ServiceClient) (d : DeleteOp) (s : Cloud)
    (err : error) :
  LoadBalancerClient c = Some client ->
  fst (delete c d s) = Some err ->
  err <> ErrWaitTimeout ->
  exists (pre : list Event) (ev : Event) (e : error),
    log (snd (delete c d s)) = log s ++ pre ++ [ev] /\
    ev_err ev = Some e /\ isNotFound (Some e) = false /\
    err = Errorv (delete_format d) e /\
    length (pre ++ [ev]) = Z.to_nat (wait.Steps deleteBackoff).
Proof.
  intros Hc Herr Hne.
  destruct (delete_attempts c client d s Hc)
    as (evs & res & Hlog & _ & Hatt & Hres).
  rewrite Hres in Herr.
  inversion Hatt as [Hz Hevs Hr | pre ev Hpre Hlen Hlast Hevs Hr]; subst.
  - cbn in Herr. congruence.
  - rewrite delete_class_done in Hlast.
    unfold delete_class, return_err_first in Herr.
    destruct (ev_err ev) as [e|] eqn:Hev.
    + destruct (isNotFound (Some e)) eqn:Hnf; cbn in Herr; [discriminate|].
      injection Herr as <-. exists pre, ev, e.
      rewrite length_app. cbn. rewrite <- (Hlast eq_refl).
      repeat split; auto. lia.
    + cbn in Herr. congruence.
Qed.

(** X7.  [associateToPool], with a client and a policy of one step or
    more, returns no error but that of a create request, formatted into
    its message: an error of the fetch is never returned, it only leads to
    the create request, and the wait-timeout error is never returned. *)
Theorem associateToPool_returns_create_errors_only
    (c : OpenstackCloud) (client : ServiceClient) (server : Server)
    (poolID : string) (opts : v2pools_CreateMemberOpts) (s : Cloud)
    (err : error) :
  LoadBalancerClient c = Some client ->
  0 < wait.Steps writeBackoff ->
  snd (fst (associateToPool c server poolID opts s)) = Some err ->
  exists (e : error) (w : W),
    snd (fst (handle (create_member client poolID opts) w)) = Some e /\
    err = Errorv associate_format e.
Proof.
  intros Hc Hsteps Herr.
  rewrite (associate_unfold client server poolID opts c s Hc) in Herr.
  pose proof (RetryMore.retry_not_done_last
                (associate_cond client server poolID opts)
                (Z.to_nat (wait.Steps writeBackoff)) None (None, s)) as Hlast.
  destruct (vfs.retry _ _ _ _) as [[done err0] [v s']].
  unfold return_unless_done in Herr. cbn [fst snd] in *.
  destruct done; [discriminate|].
  destruct (Hlast eq_refl) as [[Hz _]|(s0 & Hrun)]; [lia|].
  unfold associate_cond, api in Hrun.
  destruct (handle (get_member client server poolID) (world (snd s0)))
    as [r w1].
  cbn [fst snd world log] in Hrun.
  destruct (notnil (snd r) || isnil (fst r)); [|discriminate].
  destruct (handle (create_member client poolID opts) w1) as [[v' e'] w2] eqn:Hc2.
  cbn [fst snd] in Hrun. destruct e' as [e|]; [|discriminate].
  injection Hrun as <- _ _. injection Herr as <-.
  exists e, w1. rewrite Hc2. auto.
Qed.

End Methods.

End OpenstackMore.

(** ** Runs of the other adapters on the in-memory services *)

Module OpenstackMoreRuns.

Import openstack mockloadbalancer OpenstackSpec OpenstackMore.

(** [CreateListener] against a service that always fails stops after the
    four steps of the read policy. *)
Lemma method_requests_bounded_witness :
  exists evs : list Event,
    log (snd (invoke with_lb (@CreateListener sdk "listener-1")
                (script (replicate 9 (Some (StatusError 500)))))) = evs /\
    (length evs <= 4)%nat.
Proof.
  destruct (method_requests_bounded (service := scripted) with_lb tt
              (@CreateListener sdk "listener-1")
              (script (replicate 9 (Some (StatusError 500)))) eq_refl)
    as (evs & Hlog & _ & Hlen).
  exists evs. split; [exact Hlog|exact Hlen].
Defined.

(** [CreatePool] against a service that answers 404: the error returned is
    no not-found any more. *)
Lemma wrapping_methods_return_last_error_witness :
  isNotFound
    (fst (invoke with_lb (@CreatePool sdk "pool-1")
            (script (replicate 5 (Some (StatusError StatusNotFound)))))) = false.
Proof.
  destruct (wrapping_methods_return_last_error (service := scripted)
              (backoffs := backoffs) with_lb tt
              (@CreatePool sdk "pool-1")
              (script (replicate 5 (Some (StatusError StatusNotFound))))
              "failed to create pool: %v" eq_refl eq_refl eq_refl)
    as (_ & Hnf & _).
  exact Hnf.
Defined.

(** [GetPool] of a pool that the store does not have: four requests, and
    the not-found of the last one is returned. *)
Lemma get_methods_return_last_error_witness :
  exists (pre : list Event) (ev : Event),
    log (snd (invoke with_lb (@GetPool sdk "pool-1") (start empty_store))) =
      pre ++ [ev] /\
    fst (invoke with_lb (@GetPool sdk "pool-1") (start empty_store)) =
      ev_err ev /\
    length (pre ++ [ev]) = 4%nat.
Proof.
  destruct (get_methods_return_last_error (service := store)
              (backoffs := backoffs) with_lb tt
              (@GetPool sdk "pool-1") (start empty_store)
              eq_refl eq_refl eq_refl)
    as (pre & ev & Hlog & _ & Herr & Hlen).
  exists pre, ev. split; [exact Hlog|]. split; [exact Herr|].
  apply Hlen. vm_compute. discriminate.
Defined.

(** [createLB] on the store returns the load balancer and no error. *)
Lemma createLB_object_only_on_success_witness :
  snd (fst (createLB (service := store) with_lb
              ("lb-1" : @loadbalancers_CreateOptsBuilder sdk)
              (start empty_store))) = None.
Proof.
  apply (createLB_object_only_on_success (service := store) with_lb
           ("lb-1" : @loadbalancers_CreateOptsBuilder sdk) (start empty_store)).
  vm_compute. discriminate.
Defined.

(** Listing the monitors of [one_monitor]. *)
Lemma listings_return_decoded_last_page_witness :
  exists (w : Store) (page : list string),
    fst (handle (Service := store) (@monitors_List sdk tt tt) w) = (page, None) /\
    monitors_ExtractMonitors page =
      (fst (fst (listMonitors (service := store) with_lb tt (start one_monitor))),
       None) /\
    world (snd (listMonitors (service := store) with_lb tt (start one_monitor)))
      = snd (handle (Service := store) (@monitors_List sdk tt tt) w).
Proof.
  destruct (listings_return_decoded_last_page (service := store) with_lb tt
              (start one_monitor) eq_refl) as (Hmonitors & _).
  apply (Hmonitors tt). vm_compute. reflexivity.
Defined.

(** A delete whose twenty requests all fail with status 500. *)
Lemma delete_returns_last_error_witness :
  exists (pre : list Event) (ev : Event),
    log (snd (delete with_lb (OfListener "listener-1")
                (script (replicate 20 (Some (StatusError 500)))))) =
      pre ++ [ev] /\
    ev_err ev = Some (StatusError 500) /\
    length (pre ++ [ev]) = 20%nat.
Proof.
  destruct (delete_returns_last_error (service := scripted) with_lb tt
              (OfListener "listener-1")
              (script (replicate 20 (Some (StatusError 500))))
              (Errorv "error deleting listener: %v" (StatusError 500))
              eq_refl)
    as (pre & ev & e & Hlog & Hev & _ & Herr & Hlen).
  - vm_compute. reflexivity.
  - discriminate.
  - exists pre, ev. split; [exact Hlog|]. split; [|exact Hlen].
    injection Herr as <-. exact Hev.
Defined.

(** [associateToPool] against a service on which every request fails with
    status 500: the error returned is that of a create request. *)
Lemma associateToPool_returns_create_errors_only_witness :
  exists (e : error) (w : list (option error)),
    snd (fst (handle (Service := scripted)
                (create_member tt "pool-1" ("srv-1" : @v2pools_CreateMemberOpts sdk))
                w)) = Some e /\
    @Errorv associate_format (StatusError 500) = Errorv associate_format e.
Proof.
  apply (associateToPool_returns_create_errors_only (service := scripted)
           (backoffs := backoffs) with_lb tt {| ID := "srv-1" |} "pool-1"
           ("srv-1" : @v2pools_CreateMemberOpts sdk)
           (script (replicate 10 (Some (StatusError 500)))) _ eq_refl eq_refl).
  vm_compute. reflexivity.
Defined.

End OpenstackMoreRuns.

(** ** The forwarding-rule task beyond the claims *)

Module GceMore.

Import gcetasks gcetasks_rest GceSpec.

Section Rest.

Context {sdk : SDK} {service : Service} {writer : TerraformWriter}
        {terraform : TerraformTarget}.

(** [fi.RequiredField], declared in package [fi]. *)
Variable RequiredField : string -> error.

(** Splits on what the goal branches on, innermost scrutinee first. *)
Ltac branch :=
  match goal with
  | |- context [match ?x with _ => _ end] =>
      match x with
      | context [match _ with _ => _ end] => fail 1
      | _ => destruct x eqn:?
      end
  end.

(** The request that [request] assembles carries the name of the rule. *)
Lemma request_names_rule
    (t : gce.GCEAPITarget) (e changes : ForwardingRule) (s s1 : Cloud)
    (o : compute.ForwardingRule) :
  request t e changes s = (inl o, s1) -> compute.Name o = ValueOf (Name e).
Proof.
  unfold request, bind_body, bind, go_on, leave, ret, api.
  repeat (branch; cbn [fst snd log world] in *; try congruence).
  all: intros Heq; injection Heq as <- <-; reflexivity.
Qed.

(** X8.  A request that [request] has assembled is well formed: it carries
    the name of the rule and the premium tier, and no labels; it never has
    both a target and a backend service; a rule with an address reference
    has no rule-managed address and gets a non-empty address, and a
    rule-managed address is used as it is; a rule with a subnetwork has a
    network. *)
Theorem request_is_well_formed
    (t : gce.GCEAPITarget) (e changes : ForwardingRule) (s s1 : Cloud)
    (o : compute.ForwardingRule) :
  request t e changes s = (inl o, s1) ->
  compute.Name o = ValueOf (Name e) /\
  compute.NetworkTier o = "PREMIUM" /\
  compute.Labels o = None /\ compute.LabelFingerprint o = "" /\
  (BackendService e <> None -> compute.Target o = "") /\
  (IPAddress e <> None ->
   RuleIPAddress e = None /\ compute.IPAddress o <> "") /\
  (forall ip, RuleIPAddress e = Some ip -> compute.IPAddress o = ip) /\
  (Subnetwork e <> None -> Network e <> None).
Proof.
  unfold request, bind_body, bind, go_on, leave, ret, api.
  repeat (branch; cbn [fst snd log world notnil isnil negb] in *;
          rewrite ?andb_true_r, ?andb_false_r in *; try congruence).
  all: intros Heq; injection Heq as <- <-; cbn.
  all: repeat split; try congruence; intros;
    repeat match goal with
           | H : nonempty ?x = false |- _ => apply nonempty_false in H
           | H : nonempty ?x = true |- ?x <> "" =>
               let Hx := fresh in intros Hx; rewrite Hx in H; discriminate H
           end; congruence.
Qed.

(** X9.  While the request is checked and assembled, the cloud is left as
    it was for a rule that names both a target pool and a backend service,
    for a rule without an address reference, and for a rule whose
    reference carries its address.  For every other rule the address is
    looked up, once, in the region of the rule, and nothing else is
    requested. *)
Theorem request_looks_up_at_most_once
    (t : gce.GCEAPITarget) (e changes : ForwardingRule) (s : Cloud) :
  let both_targets :=
    exists (tp : task.TargetPool) (bs : task.BackendService),
      TargetPool e = Some tp /\ BackendService e = Some bs /\
      TargetPool_URL tp (gce.Cloud t) <> "" in
  ((both_targets \/ IPAddress e = None \/
    exists address : task.Address,
      IPAddress e = Some address /\
      ValueOf (task.Address_IPAddress address) <> "") ->
   snd (request t e changes s) = s) /\
  (forall address : task.Address,
     ~ both_targets -> IPAddress e = Some address ->
     ValueOf (task.Address_IPAddress address) = "" ->
     snd (request t e changes s) =
       {| world := snd (handle (Address_find address (Region e)) (world s));
          log := log s ++
                 [{| ev_call := Address_find address (Region e);
                     ev_err := answer (Address_find address (Region e))
                                 (world s) |}] |}).
Proof.
  intros both_targets. subst both_targets. split.
  - intros [(tp & bs & Htp & Hbs & Hurl) | [Hnone | (address & Haddr & Hip)]];
      unfold request, bind_body, bind, go_on, leave, ret, api.
    + rewrite Htp, Hbs, (nonempty_true _ Hurl). reflexivity.
    + rewrite Hnone.
      repeat (branch; cbn [fst snd log world] in *; try congruence);
        reflexivity.
    + rewrite Haddr, (nonempty_true _ Hip).
      repeat (branch; cbn [fst snd log world] in *; try congruence);
        reflexivity.
  - intros address Hnot Haddr Hip.
    unfold request, bind_body, bind, go_on, leave, ret, api, answer.
    rewrite Haddr, Hip. cbn [nonempty].
    destruct (BackendService e) as [bs|] eqn:Hbs.
    + destruct (TargetPool e) as [tp|] eqn:Htp.
      * destruct (nonempty (TargetPool_URL tp (gce.Cloud t))) eqn:Hurl.
        { exfalso. apply Hnot. exists tp, bs. repeat split.
          intros Heq. rewrite Heq in Hurl. discriminate Hurl. }
        cbn [fst snd].
        repeat (branch; cbn [fst snd log world resp_err] in *; try congruence);
          reflexivity.
      * cbn [nonempty fst snd].
        repeat (branch; cbn [fst snd log world resp_err] in *; try congruence);
          reflexivity.
    + cbn [fst snd].
      repeat (branch; cbn [fst snd log world resp_err] in *; try congruence);
        reflexivity.
Qed.

(** Where a request goes: the forwarding-rule requests go to the project of
    the cloud and the region of the rule, under the name of the rule; the
    only lookup is that of the address the rule refers to. *)
Definition addressed (t : gce.GCEAPITarget) (e : ForwardingRule) (c : Call)
  : Prop :=
  match c with
  | ForwardingRules_Get project region name =>
      project = gce.Project (gce.Cloud t) /\ region = Region e /\
      name = ValueOf (Name e)
  | ForwardingRules_Insert project region o =>
      project = gce.Project (gce.Cloud t) /\ region = Region e /\
      compute.Name o = ValueOf (Name e)
  | ForwardingRules_SetLabels project region name _ =>
      project = gce.Project (gce.Cloud t) /\ region = Region e /\
      name = ValueOf (Name e)
  | WaitForOp _ => True
  | findAddressByIP _ _ => False
  | Address_find address region =>
      IPAddress e = Some address /\ region = Region e
  end.

(** X10.  Every request of [RenderGCE] is addressed as [addressed] says,
    there are at most six of them, and on the update path none of them is
    an Insert or a Get. *)
Theorem RenderGCE_requests_are_addressed
    (t : gce.GCEAPITarget) (a : option ForwardingRule)
    (e changes : ForwardingRule) (s : Cloud) :
  exists evs : list Event,
    log (snd (RenderGCE t a e changes s)) = log s ++ evs /\
    Forall (fun ev => addressed t e (ev_call ev)) evs /\
    (length evs <= 6)%nat /\
    (a <> None ->
     Forall (fun ev => kind (ev_call ev) <> Insert /\
                       kind (ev_call ev) <> Get) evs).
Proof.
  assert (Hreq : exists pre,
            log (snd (request t e changes s)) = log s ++ pre /\
            Forall (fun ev => addressed t e (ev_call ev)) pre /\
            (length pre <= 1)%nat /\
            Forall (fun ev => kind (ev_call ev) <> Insert /\
                              kind (ev_call ev) <> Get) pre).
  { destruct (request_log_exact t e changes s)
      as [-> | (address & err & Haddr & _ & Hlog)].
    - exists []. rewrite app_nil_r. repeat split; try constructor. cbn. lia.
    - eexists. split; [exact Hlog|].
      repeat split; repeat constructor; cbn; auto; discriminate. }
  destruct Hreq as (pre & Hpre & Haddressed & Hlen & Hkind).
  destruct (request t e changes s) as [[o|r] s1] eqn:Hrequest.
  - pose proof (request_names_rule t e changes s s1 o Hrequest) as Hname.
    cbn [snd] in Hpre. unfold RenderGCE.
    rewrite (run_request_built t e changes s s1 o _ Hrequest).
    match goal with
    | |- context [run_body ?body s1] =>
        assert (Hrest : exists rest,
                  log (snd (run_body body s1)) = log s1 ++ rest /\
                  Forall (fun ev => addressed t e (ev_call ev)) rest /\
                  (length rest <= 5)%nat /\
                  (a <> None ->
                   Forall (fun ev => kind (ev_call ev) <> Insert /\
                                     kind (ev_call ev) <> Get) rest))
    end.
    { unfold run_body, bind_body, bind, go_on, leave, ret, api.
      destruct a as [a|];
        repeat (branch; cbn [fst snd log world] in *);
        (first [ exists []; split; [rewrite app_nil_r; reflexivity|]
               | eexists; split; [rewrite <- ?app_assoc; reflexivity|] ]);
        (split; [cbn; repeat constructor; cbn; auto|]);
        (split; [cbn; lia|]);
        intros Ha; try congruence;
        cbn; repeat constructor; cbn; discriminate. }
    destruct Hrest as (rest & Hlog & Hrest & Hlen' & Hkind').
    exists (pre ++ rest). rewrite Hlog, Hpre, app_assoc.
    split; [reflexivity|]. split; [apply Forall_app; auto|].
    split; [rewrite length_app; lia|].
    intros Ha. apply Forall_app; auto.
  - rewrite (RenderGCE_request_left t a e changes s s1 r Hrequest).
    cbn [snd] in *. exists pre. repeat split; auto. lia.
Qed.

(** X11.  [RenderGCE] leaves [changes] as it was, or with the labels
    cleared and every other field as it was; it leaves it as it was on the
    create path and when it carries no labels.  On the update path a nil
    return means that every field of [changes], as the call leaves it, is
    zero: no change is dropped silently. *)
Theorem RenderGCE_consumes_changes
    (t : gce.GCEAPITarget) (a : option ForwardingRule)
    (e changes : ForwardingRule) (s : Cloud) :
  let after := snd (fst (RenderGCE t a e changes s)) in
  (after = changes \/ labels_cleared changes after) /\
  (a = None \/ Labels changes = None -> after = changes) /\
  (a <> None ->
   fst (fst (RenderGCE t a e changes s)) = Returned None ->
   fully_consumed after).
Proof.
  intros after. subst after.
  destruct (request t e changes s) as [[o|r] s1] eqn:Hrequest.
  - unfold RenderGCE.
    rewrite (run_request_built t e changes s s1 o _ Hrequest).
    unfold run_body, bind_body, bind, go_on, leave, ret, api.
    pose proof (clear_Labels_cleared changes) as Hcleared.
    pose proof (DeepEqual_zero_consumed changes) as Hzero.
    pose proof (DeepEqual_zero_consumed (clear_Labels changes)) as Hzero'.
    destruct a as [a|];
      repeat (branch; cbn [fst snd log world] in *);
      (split; [auto|]);
      (split; [intros [Ha | Hl]; congruence|]);
      intros Ha Hnil; try congruence; try discriminate Hnil;
      repeat match goal with
             | H : negb ?b = false |- _ => apply negb_false_iff in H
             end;
      tauto.
  - rewrite (RenderGCE_request_left t a e changes s s1 r Hrequest).
    cbn [fst snd].
    pose proof (request_outcome t e changes s) as [_ Hend].
    rewrite Hrequest in Hend. cbn [fst] in Hend.
    destruct Hend as [[o Ho] | [(err & _ & Herr) | Hpanic]].
    + discriminate Ho.
    + injection Herr as ->. cbn [fst snd].
      split; [auto|]. split; [auto|]. intros _ Hnil. discriminate Hnil.
    + injection Hpanic as ->. cbn [fst snd].
      split; [auto|]. split; [auto|]. intros _ Hnil. discriminate Hnil.
Qed.

(** X12.  An update with nothing to change is a no-op: on the update path,
    with zero [changes], [RenderGCE] returns nil once the request is
    assembled, and makes no request of its own. *)
Theorem RenderGCE_update_without_changes_is_noop
    (t : gce.GCEAPITarget) (a e changes : ForwardingRule) (s s1 : Cloud)
    (o : compute.ForwardingRule) :
  request t e changes s = (inl o, s1) ->
  DeepEqual_zero changes = true ->
  RenderGCE t (Some a) e changes s = ((Returned None, changes), s1).
Proof.
  intros Hrequest Hzero. unfold RenderGCE.
  rewrite (run_request_built t e changes s s1 o _ Hrequest).
  unfold run_body, bind_body, bind, go_on, leave, ret.
  assert (Hlabels : Labels changes = None).
  { unfold DeepEqual_zero in Hzero.
    repeat (apply andb_prop in Hzero as [Hzero ?]).
    destruct (Labels changes); [discriminate|reflexivity]. }
  rewrite Hlabels, Hzero. reflexivity.
Qed.

(** X13.  The rule that [Find] returns is read off the answer [r] of one
    Get, sent to the project and the region of the cloud under the name of
    the desired rule: it has the name, the labels and the label fingerprint
    of [r] and the lifecycle of [e]; it never has a rule-managed address or
    a region; its port range, ports and load-balancing scheme are absent
    rather than empty.  The only other request is the reverse lookup of
    the address of [r], made when [r] has one. *)
Theorem Find_reads_the_live_rule
    (cloud : gce.GCECloud) (e actual : ForwardingRule) (s s1 : Cloud) :
  Find cloud e s = ((Some actual, None), s1) ->
  let get :=
    ForwardingRules_Get (gce.Project cloud) (gce.Region cloud)
      (ValueOf (Name e)) in
  exists (r : compute.ForwardingRule) (evs : list Event),
    fst (handle get (world s)) = Ok r /\
    Name actual = Some (compute.Name r) /\
    Labels actual = compute.Labels r /\
    labelFingerprint actual = compute.LabelFingerprint r /\
    Lifecycle actual = Lifecycle e /\
    RuleIPAddress actual = None /\ Region actual = "" /\
    PortRange actual <> Some "" /\ Ports actual <> Some [] /\
    LoadBalancingScheme actual <> Some "" /\
    log s1 = log s ++ {| ev_call := get; ev_err := None |} :: evs /\
    ((evs = [] /\ compute.IPAddress r = "" /\ IPAddress actual = None) \/
     (evs = [{| ev_call :=
                  findAddressByIP (compute.IPAddress r) (gce.Region cloud);
                ev_err := None |}] /\
      compute.IPAddress r <> "")).
Proof.
  intros HFind get. revert HFind.
  unfold Find, bind, ret, api. fold get.
  destruct (handle get (world s)) as [[r|err] w1] eqn:Hget;
    cbn [fst snd log world].
  2: { destruct (gce.IsNotFound (Some err)); discriminate. }
  destruct (nonempty (compute.IPAddress r)) eqn:Hip; cbn [fst snd log world].
  - destruct (handle (findAddressByIP (compute.IPAddress r) (gce.Region cloud)) w1)
      as [[address [err|]] w2] eqn:Hfind; cbn [fst snd resp_err];
      [discriminate|].
    intros Heq. injection Heq as <- <-. exists r. eexists.
    cbn [Name Labels labelFingerprint Lifecycle RuleIPAddress Region PortRange
         Ports LoadBalancingScheme IPAddress log].
    repeat split.
    + destruct (nonempty (compute.PortRange r)) eqn:Hp; [|discriminate].
      intros Heq. injection Heq as Heq. rewrite Heq in Hp. discriminate Hp.
    + destruct (compute.Ports r) as [[|p ports]|]; cbn; discriminate.
    + destruct (nonempty (compute.LoadBalancingScheme r)) eqn:Hp; [|discriminate].
      intros Heq. injection Heq as Heq. rewrite Heq in Hp. discriminate Hp.
    + rewrite <- app_assoc. reflexivity.
    + right. split; [reflexivity|].
      intros Heq. rewrite Heq in Hip. discriminate Hip.
  - intros Heq. injection Heq as <- <-. exists r, [].
    cbn [Name Labels labelFingerprint Lifecycle RuleIPAddress Region PortRange
         Ports LoadBalancingScheme IPAddress log].
    repeat split.
    + destruct (nonempty (compute.PortRange r)) eqn:Hp; [|discriminate].
      intros Heq. injection Heq as Heq. rewrite Heq in Hp. discriminate Hp.
    + destruct (compute.Ports r) as [[|p ports]|]; cbn; discriminate.
    + destruct (nonempty (compute.LoadBalancingScheme r)) eqn:Hp; [|discriminate].
      intros Heq. injection Heq as Heq. rewrite Heq in Hp. discriminate Hp.
    + left. repeat split. apply nonempty_false. exact Hip.
Qed.

(** X14.  [Find] and then [RenderGCE] with what it found: when the changes
    carry labels, the SetLabels request of the update carries the label
    fingerprint that the Get of [Find] read, and the labels of the desired
    rule.  It is sent to the region of the rule, whereas the Get went to
    the region of the cloud. *)
Theorem Find_then_update_sends_live_fingerprint
    (t : gce.GCEAPITarget) (e changes actual : ForwardingRule)
    (s s1 s2 : Cloud) (o : compute.ForwardingRule) :
  Find (gce.Cloud t) e s = ((Some actual, None), s1) ->
  request t e changes s1 = (inl o, s2) ->
  Labels changes <> None ->
  exists (r : compute.ForwardingRule) (err : option error) (rest : list Event),
    fst (handle (ForwardingRules_Get (gce.Project (gce.Cloud t))
                   (gce.Region (gce.Cloud t)) (ValueOf (Name e))) (world s))
      = Ok r /\
    log (snd (RenderGCE t (Some actual) e changes s1)) =
      log s2 ++
      {| ev_call :=
           ForwardingRules_SetLabels (gce.Project (gce.Cloud t)) (Region e)
             (ValueOf (Name e))
             {| compute.req_LabelFingerprint := compute.LabelFingerprint r;
                compute.req_Labels := Labels e |};
         ev_err := err |} :: rest.
Proof.
  intros HFind Hrequest Hlabels.
  pose proof (request_names_rule t e changes s1 s2 o Hrequest) as Hname.
  assert (Hread : exists r,
            fst (handle (ForwardingRules_Get (gce.Project (gce.Cloud t))
                           (gce.Region (gce.Cloud t)) (ValueOf (Name e)))
                   (world s)) = Ok r /\
            labelFingerprint actual = compute.LabelFingerprint r).
  { revert HFind. unfold Find, bind, ret, api.
    repeat (branch; cbn [fst snd log world] in *; try discriminate).
    all: intros Heq; injection Heq as <- <-; eexists; split; reflexivity. }
  destruct Hread as (r & Hget & Hfp). exists r.
  unfold RenderGCE. rewrite (run_request_built t e changes s1 s2 o _ Hrequest).
  unfold run_body, bind_body, bind, go_on, leave, ret, api.
  rewrite Hfp, Hname.
  destruct (Labels changes) as [labels|]; [|congruence].
  repeat (branch; cbn [fst snd log world] in *);
    eexists; eexists; (split; [exact Hget|]);
    rewrite <- ?app_assoc; reflexivity.
Qed.

(** X15.  [CheckChanges] accepts a rule exactly when it has a name that is
    not empty, whatever [a] and [changes] are; the request that [request]
    assembles for an accepted rule carries this name.  A rule with no name
    or an empty one is turned down with the required-field error. *)
Theorem CheckChanges_requires_a_name (a e changes : ForwardingRule) :
  match CheckChanges RequiredField a e changes with
  | None =>
      exists n : string,
        Name e = Some n /\ n <> "" /\
        forall (t : gce.GCEAPITarget) (changes' : ForwardingRule)
               (s s1 : Cloud) (o : compute.ForwardingRule),
          request t e changes' s = (inl o, s1) -> compute.Name o = n
  | Some err =>
      err = RequiredField "Name" /\ (Name e = None \/ Name e = Some "")
  end.
Proof.
  unfold CheckChanges.
  destruct (nonempty (ValueOf (Name e))) eqn:Hname.
  - destruct (Name e) as [n|] eqn:HName; [|discriminate Hname].
    exists n. split; [reflexivity|]. split.
    + intros ->. discriminate Hname.
    + intros t changes' s s1 o Hrequest.
      pose proof (request_names_rule t e changes' s s1 o Hrequest) as Ho.
      rewrite Ho, HName. reflexivity.
  - split; [reflexivity|].
    destruct (Name e) as [n|]; [right|left; reflexivity].
    apply nonempty_false in Hname. cbn in Hname. congruence.
Qed.

(** X16.  The terraform resource of a rule agrees with the request that
    [request] assembles for it: the same name and protocol; a field that
    the resource leaves out is empty in the request; a port range, a
    load-balancing scheme and a non-empty list of ports are the same in
    both.  The labels are in the resource and not in the request, which
    gets them by SetLabels. *)
Theorem terraform_resource_agrees_with_request
    (t : gce.GCEAPITarget) (e changes : ForwardingRule) (s s1 : Cloud)
    (o : compute.ForwardingRule) :
  request t e changes s = (inl o, s1) ->
  let tf := terraform_resource e in
  tf_Name tf = compute.Name o /\
  tf_IPProtocol tf = compute.IPProtocol o /\
  (tf_PortRange tf = None -> compute.PortRange o = "") /\
  (forall p, tf_PortRange tf = Some p -> compute.PortRange o = p) /\
  (tf_Ports tf = None -> compute.Ports o = None) /\
  (forall ports, tf_Ports tf = Some ports -> ports <> [] ->
                 compute.Ports o = Some ports) /\
  (tf_LoadBalancingScheme tf = None -> compute.LoadBalancingScheme o = "") /\
  (forall l, tf_LoadBalancingScheme tf = Some l ->
             compute.LoadBalancingScheme o = l) /\
  (tf_Target tf = None -> compute.Target o = "") /\
  (tf_BackendService tf = None -> compute.BackendService o = "") /\
  (tf_IPAddress tf = None -> compute.IPAddress o = "") /\
  (tf_Network tf = None -> compute.Network o = "") /\
  (tf_Subnetwork tf = None -> compute.Subnetwork o = "") /\
  tf_Labels tf = Labels e /\ compute.Labels o = None.
Proof.
  unfold request, bind_body, bind, go_on, leave, ret, api.
  repeat (branch; cbn [fst snd log world notnil isnil negb] in *;
          rewrite ?andb_true_r, ?andb_false_r in *; try congruence).
  all: intros Heq; injection Heq as <- <-;
    cbn [terraform_resource tf_Name tf_IPProtocol tf_PortRange tf_Ports
         tf_LoadBalancingScheme tf_Target tf_BackendService tf_IPAddress
         tf_Network tf_Subnetwork tf_Labels
         compute.Name compute.IPProtocol compute.PortRange compute.Ports
         compute.LoadBalancingScheme compute.Target compute.BackendService
         compute.IPAddress compute.Network compute.Subnetwork compute.Labels].
  all: repeat match goal with
              | H : _ = Some _ |- _ => rewrite H
              | H : _ = None |- _ => rewrite H
              end;
    cbn [option_map].
  all: repeat split; try discriminate; try congruence; intros;
    repeat match goal with
           | H : Some _ = Some _ |- _ => injection H as ?; subst
           | H : (0 <? length ?l)%nat = false |- _ =>
               destruct l; [|discriminate H]
           end;
    try congruence.
Qed.

(** X17.  [RenderTerraform] makes no check of its own.  A rule with a
    target pool and a backend service, which [RenderGCE] turns down
    without a request, is rendered with both; what the target answers is
    returned as it is, for the resource that [TerraformLink] names. *)
Theorem RenderTerraform_renders_what_RenderGCE_rejects
    (t : gce.GCEAPITarget) (a : option ForwardingRule)
    (a' e changes : ForwardingRule) (s : Cloud) (w : TW)
    (tp : task.TargetPool) (bs : task.BackendService) :
  TargetPool e = Some tp -> BackendService e = Some bs ->
  TargetPool_URL tp (gce.Cloud t) <> "" ->
  (exists err : error,
     RenderGCE t a e changes s = ((Returned (Some err), changes), s)) /\
  exists (name : string) (tf : terraformForwardingRule),
    RenderTerraform a' e changes w =
      RenderResource "google_compute_forwarding_rule" name tf w /\
    TerraformLink e = LiteralSelfLink "google_compute_forwarding_rule" name /\
    tf_Name tf = name /\
    tf_Target tf = Some (TargetPool_TerraformLink tp) /\
    tf_BackendService tf = Some (BackendService_TerraformAddress bs).
Proof.
  intros Htp Hbs Hurl. split.
  - destruct (request_rejects_both_targets t e changes s tp bs Htp Hbs Hurl)
      as (err & Herr).
    exists err.
    destruct (request_log_exact t e changes s)
      as [Hsame | (address & err' & Haddr & Hempty & Hlog)].
    + destruct (request t e changes s) as [r s1] eqn:Hrequest.
      cbn [fst snd] in *. subst.
      apply (RenderGCE_request_left t a e changes s s _ Hrequest).
    + exfalso. revert Herr Hlog.
      unfold request, bind_body, bind, go_on, leave, ret, api.
      rewrite Htp, Hbs, (nonempty_true _ Hurl). cbn [fst snd log].
      intros _ Hlog. apply (f_equal (@length _)) in Hlog.
      rewrite length_app in Hlog. cbn in Hlog. lia.
  - exists (ValueOf (Name e)), (terraform_resource e).
    unfold RenderTerraform, TerraformLink, terraform_resource.
    cbn [tf_Name tf_Target tf_BackendService]. rewrite Htp, Hbs.
    repeat split.
Qed.


End Rest.

End GceMore.

(** ** Runs of the rest of the task *)

Module GceMoreRuns.

Import gcetasks gcetasks_rest mockcompute mockterraform GceSpec GceMore.

(** The rule that refers to the reserved address by name gets the address
    of the store. *)
Lemma request_is_well_formed_witness :
  exists o : compute.ForwardingRule,
    fst (request target by_reference by_reference (start reserved)) = inl o /\
    compute.Name o = "rule-d" /\ compute.IPAddress o <> "".
Proof.
  eexists. split; [reflexivity|].
  destruct (request_is_well_formed (service := store) target by_reference
              by_reference (start reserved) _ _ eq_refl)
    as (Hname & _ & _ & _ & _ & Hip & _).
  split; [exact Hname|]. apply Hip. discriminate.
Defined.

(** A rule without an address reference is assembled without a request;
    the rule that refers to the reserved address by name costs one
    lookup. *)
Lemma request_looks_up_at_most_once_witness :
  snd (request target (plain "rule-a") (plain "rule-a") (start empty_store))
    = start empty_store /\
  map ev_call
    (log (snd (request target by_reference by_reference (start reserved)))) =
    [Address_find {| task.Address_Name := Some "addr-1";
                     task.Address_IPAddress := None |} "us-test1"].
Proof.
  split.
  - destruct (request_looks_up_at_most_once (service := store) target
                (plain "rule-a") (plain "rule-a") (start empty_store))
      as [Hnone _].
    apply Hnone. right. left. reflexivity.
  - destruct (request_looks_up_at_most_once (service := store) target
                by_reference by_reference (start reserved))
      as [_ Hlookup].
    refine (eq_trans (f_equal (fun c => map ev_call (log c))
                        (Hlookup _ _ eq_refl eq_refl)) eq_refl).
    intros (tp & bs & Htp & _). discriminate Htp.
Defined.

(** The requests of the update of the created rule: none is an Insert or a
    Get. *)
Lemma RenderGCE_requests_are_addressed_witness :
  exists evs : list Event,
    log (snd (RenderGCE target (Some actual) (labelled "rule-a") label_changes
                created)) = log created ++ evs /\
    Forall (fun ev => kind (ev_call ev) <> Insert /\
                      kind (ev_call ev) <> Get) evs.
Proof.
  destruct (RenderGCE_requests_are_addressed (service := store) target
              (Some actual) (labelled "rule-a") label_changes created)
    as (evs & Hlog & _ & _ & Hkind).
  exists evs. split; [exact Hlog|]. apply Hkind. discriminate.
Defined.

(** The update of the labels of the created rule returns nil and leaves
    every field of the changes zero.  With the whole of [labelled "rule-a"]
    as changes, the changes are left as they were or with the labels
    cleared and the name, the protocol and the rest as they were. *)
Lemma RenderGCE_consumes_changes_witness :
  fully_consumed
    (snd (fst (RenderGCE target (Some actual) (labelled "rule-a")
                 label_changes created))) /\
  (snd (fst (RenderGCE target (Some actual) (labelled "rule-a")
               (labelled "rule-a") created)) = labelled "rule-a" \/
   labels_cleared (labelled "rule-a")
     (snd (fst (RenderGCE target (Some actual) (labelled "rule-a")
                  (labelled "rule-a") created)))).
Proof.
  split.
  - destruct (RenderGCE_consumes_changes (service := store) target
                (Some actual) (labelled "rule-a") label_changes created)
      as (_ & _ & Hnil).
    apply Hnil; [discriminate|reflexivity].
  - destruct (RenderGCE_consumes_changes (service := store) target
                (Some actual) (labelled "rule-a") (labelled "rule-a") created)
      as (Hafter & _).
    exact Hafter.
Defined.

(** An update of the created rule with no change. *)
Lemma RenderGCE_update_without_changes_is_noop_witness :
  RenderGCE target (Some actual) (plain "rule-a") zero created =
  ((Returned None, zero), created).
Proof.
  apply (RenderGCE_update_without_changes_is_noop (service := store) target
           actual (plain "rule-a") zero created created _ eq_refl eq_refl).
Defined.

(** [Find] on the created rule: the fingerprint is the one the store gave
    the rule. *)
Lemma Find_reads_the_live_rule_witness :
  exists r : compute.ForwardingRule,
    fst (handle (ForwardingRules_Get "proj" "us-test1" "rule-a")
           (world created)) = Ok r /\
    compute.LabelFingerprint r = "fp" /\ compute.Name r = "rule-a".
Proof.
  destruct (Find_reads_the_live_rule (service := store) (gce.Cloud target)
              (plain "rule-a") actual created _ eq_refl)
    as (r & evs & Hget & Hname & _ & Hfp & _).
  exists r. split; [exact Hget|]. split.
  - rewrite <- Hfp. reflexivity.
  - cbn in Hname. injection Hname as <-. reflexivity.
Defined.

(** [Find] on the created rule and then the update of its labels. *)
Lemma Find_then_update_sends_live_fingerprint_witness :
  exists (r : compute.ForwardingRule) (err : option error) (rest : list Event),
    fst (handle (ForwardingRules_Get "proj" "us-test1" "rule-a")
           (world created)) = Ok r /\
    log (snd (RenderGCE target (Some actual) (labelled "rule-a") label_changes
                (snd (Find (gce.Cloud target) (labelled "rule-a") created)))) =
      log (snd (Find (gce.Cloud target) (labelled "rule-a") created)) ++
      {| ev_call :=
           ForwardingRules_SetLabels "proj" "us-test1" "rule-a"
             {| compute.req_LabelFingerprint := compute.LabelFingerprint r;
                compute.req_Labels := Some {[ "env" := "prod" ]} |};
         ev_err := err |} :: rest.
Proof.
  apply (Find_then_update_sends_live_fingerprint (service := store) target
           (labelled "rule-a") label_changes actual created _ _ _
           eq_refl eq_refl).
  discriminate.
Defined.

(** The resource and the request of the rule with the reserved address. *)
Lemma terraform_resource_agrees_with_request_witness :
  exists o : compute.ForwardingRule,
    fst (request target by_reference by_reference (start reserved)) = inl o /\
    tf_Name (terraform_resource by_reference) = compute.Name o /\
    compute.PortRange o = "443-443".
Proof.
  eexists. split; [reflexivity|].
  destruct (terraform_resource_agrees_with_request (service := store)
              (writer := writer) target by_reference by_reference
              (start reserved) _ _ eq_refl)
    as (Hname & _ & _ & Hrange & _).
  split; [exact Hname|]. apply Hrange. reflexivity.
Defined.

(** The rule with a target pool and a backend service: turned down by
    [RenderGCE], rendered by [RenderTerraform]. *)
Lemma RenderTerraform_renders_what_RenderGCE_rejects_witness :
  (exists err : error,
     RenderGCE target None (both_targets None) (both_targets None)
       (start empty_store) =
     ((Returned (Some err), both_targets None), start empty_store)) /\
  fst (RenderTerraform (both_targets None) (both_targets None)
         (both_targets None) []) = None.
Proof.
  destruct (RenderTerraform_renders_what_RenderGCE_rejects (service := store)
              (terraform := files) target None (both_targets None)
              (both_targets None) (both_targets None) (start empty_store) []
              _ _ eq_refl eq_refl) as (Hgce & _).
  - discriminate.
  - split; [exact Hgce|reflexivity].
Defined.

End GceMoreRuns.
